(** * ObjectStreamDecode: a shallow embedding of [serialization.py]

    The decoder of the Java object-serialization wire format, embedded as
    Rocq functions over an explicit Python object store.  Every record the
    decoder builds is a Python object that is created first and filled in
    afterwards, and the handle table holds the objects themselves, so the
    model keeps a heap of objects and passes addresses around. *)

From Stdlib Require Import ZArith String Ascii List Lia Bool.
From Stdlib Require Import Strings.Byte.
From stdpp Require Import list.
Import ListNotations.
Open Scope string_scope.
Open Scope list_scope.
Open Scope Z_scope.

(** ** Python values and objects *)

(** [io.BytesIO]: a buffer and a read cursor. *)
Record BytesIO : Type := mkBytesIO { buf : list byte; cur : nat }.

(** [read(n)] for [n >= 0]: at most [n] bytes from the cursor on. *)
Definition BytesIO_read (n : nat) (b : BytesIO) : list byte * BytesIO :=
  let out := take n (drop (cur b) (buf b)) in
  (out, mkBytesIO (buf b) (cur b + length out)).

(** The bounds of the C type [Py_ssize_t] (of a 64-bit build), which the
    offset and the position of [seek] have. *)
Definition PY_SSIZE_T_MAX : Z := 2 ^ 63 - 1.
Definition PY_SSIZE_T_MIN : Z := - 2 ^ 63.

(** [seek(n, 1)]: move the cursor by [n], not before 0, and return the
    new absolute position.  [None] stands for the OverflowError raised
    when [n] is no [Py_ssize_t] or the new position would be past
    [PY_SSIZE_T_MAX]; the cursor stays then. *)
Definition BytesIO_seek_cur (n : Z) (b : BytesIO) : option (Z * BytesIO) :=
  if (n <? PY_SSIZE_T_MIN) || (PY_SSIZE_T_MAX <? n) then None
  else if PY_SSIZE_T_MAX - Z.of_nat (cur b) <? n then None
  else
    let p := Z.max 0 (Z.of_nat (cur b) + n) in
    Some (p, mkBytesIO (buf b) (Z.to_nat p)).

(** The values the decoder handles.  [VComplex] keeps the raw big-endian
    IEEE-754 bytes of the two components; [VObj] is a reference to an
    object of the store. *)
#[warnings="-register-all"]
Inductive value : Type :=
| VNone
| VBool (b : bool)
| VInt (z : Z)
| VStr (s : string)
| VBytes (bs : list byte)
| VComplex (re im : list byte)
| VList (l : list value)
| VBytesIO (b : BytesIO)
| VObj (a : nat).

(** The classes of [serialization.py] (all subclasses of [Element]). *)
Module Cls.
Inductive t : Type :=
| BlockData | BlockDataLong | ClassDesc | EndBlockData | Enum | Field
| Header | JavaException | LongString | NewArray | NewClass
| NewClassDesc | NewObject | Null | ProxyClassDesc | Reference | String.

Definition eqb (c d : t) : bool :=
  match c, d with
  | BlockData, BlockData | BlockDataLong, BlockDataLong
  | ClassDesc, ClassDesc | EndBlockData, EndBlockData | Enum, Enum
  | Field, Field | Header, Header | JavaException, JavaException
  | LongString, LongString | NewArray, NewArray | NewClass, NewClass
  | NewClassDesc, NewClassDesc | NewObject, NewObject | Null, Null
  | ProxyClassDesc, ProxyClassDesc | Reference, Reference
  | String, String => true
  | _, _ => false
  end.
End Cls.

(** An instance: its class and its attribute dictionary, in the order
    [__init__] creates the attributes. *)
Record obj : Type := mkObj { cls : Cls.t; attrs : list (string * value) }.

Fixpoint attr_get (name : string) (d : list (string * value)) : option value :=
  match d with
  | [] => None
  | (k, v) :: d' => if String.eqb k name then Some v else attr_get name d'
  end.

Fixpoint attr_set (name : string) (x : value) (d : list (string * value))
  : list (string * value) :=
  match d with
  | [] => [(name, x)]
  | (k, v) :: d' =>
      if String.eqb k name then (k, x) :: d' else (k, v) :: attr_set name x d'
  end.

(** Truth value of a Python value.  No class of the module defines
    [__bool__] or [__len__], so every instance is true. *)
Definition zero_float (bs : list byte) : bool :=
  match bs with
  | [] => true
  | b :: rest =>
      (N.eqb (N.modulo (Byte.to_N b) 128) 0
       && forallb (fun c => N.eqb (Byte.to_N c) 0) rest)%bool
  end.

Definition truthy (v : value) : bool :=
  match v with
  | VNone => false
  | VBool b => b
  | VInt z => negb (z =? 0)
  | VStr s => negb (String.eqb s "")
  | VBytes bs => match bs with [] => false | _ => true end
  | VComplex re im => negb (zero_float re && zero_float im)
  | VList l => match l with [] => false | _ => true end
  | VBytesIO _ => true
  | VObj _ => true
  end.

Definition is_str (v : value) (s : string) : bool :=
  match v with VStr t => String.eqb t s | _ => false end.

(** Exceptions.  The messages built with f-strings are kept up to the
    colon. *)
Inductive exn : Type :=
| EOFError (msg : string)
| Exception (msg : string)
| struct_error
| ValueError
| AttributeError
| IndexError
| KeyError
| TypeError
| OverflowError.

(** ** The [struct] module, for the formats the decoder uses *)

Definition byte_val (b : byte) : Z := Z.of_N (Byte.to_N b).

(** Big-endian unsigned integer of a byte string. *)
Definition be_uint (bs : list byte) : Z :=
  fold_left (fun acc b => acc * 256 + byte_val b) bs 0.

Module Struct.
Section Formats.
(** ['F'] and ['D'] (complex of two binary32 / binary64) are format
    characters from Python 3.14 on and are rejected before. *)
Variable complex_formats : bool.

Definition item_size (c : ascii) : option nat :=
  match c with
  | "?"%char | "B"%char | "s"%char => Some 1%nat
  | "H"%char => Some 2%nat
  | "F"%char => if complex_formats then Some 8%nat else None
  | "D"%char => if complex_formats then Some 16%nat else None
  | _ => None
  end.

Fixpoint items_size (codes : string) : option nat :=
  match codes with
  | EmptyString => Some 0%nat
  | String c rest =>
      match item_size c, items_size rest with
      | Some n, Some m => Some (n + m)%nat
      | _, _ => None
      end
  end.

(** [struct.calcsize]; [None] is [struct.error].  Only the
    big-endian prefix ['>'] occurs. *)
Definition calcsize (fmt : string) : option nat :=
  match fmt with
  | String ">"%char codes => items_size codes
  | _ => None
  end.

Definition unpack_item (c : ascii) (bs : list byte) : value :=
  match c with
  | "?"%char => VBool (negb (be_uint bs =? 0))
  | "s"%char => VBytes bs
  | "F"%char => VComplex (take 4 bs) (drop 4 bs)
  | "D"%char => VComplex (take 8 bs) (drop 8 bs)
  | _ => VInt (be_uint bs)
  end.

Fixpoint unpack_items (codes : string) (ba : list byte)
  : option (list value) :=
  match codes with
  | EmptyString => Some []
  | String c rest =>
      match item_size c with
      | Some n =>
          match unpack_items rest (drop n ba) with
          | Some vs => Some (unpack_item c (take n ba) :: vs)
          | None => None
          end
      | None => None
      end
  end.

(** [struct.unpack]: the tuple of unpacked items. *)
Definition unpack (fmt : string) (ba : list byte) : option (list value) :=
  match fmt, calcsize fmt with
  | String ">"%char codes, Some n =>
      if (length ba =? n)%nat then unpack_items codes ba else None
  | _, _ => None
  end.
End Formats.
End Struct.

(** ** Constants *)

Module Constants.
Definition STREAM_MAGIC : Z := 0xACED.
Definition STREAM_VERSION : Z := 5.
Definition TC_NULL : Z := 0x70.
Definition TC_REFERENCE : Z := 0x71.
Definition TC_CLASSDESC : Z := 0x72.
Definition TC_OBJECT : Z := 0x73.
Definition TC_STRING : Z := 0x74.
Definition TC_ARRAY : Z := 0x75.
Definition TC_CLASS : Z := 0x76.
Definition TC_BLOCKDATA : Z := 0x77.
Definition TC_ENDBLOCKDATA : Z := 0x78.
Definition TC_RESET : Z := 0x79.
Definition TC_BLOCKDATALONG : Z := 0x7A.
Definition TC_EXCEPTION : Z := 0x7B.
Definition TC_LONGSTRING : Z := 0x7C.
Definition TC_PROXYCLASSDESC : Z := 0x7D.
Definition TC_ENUM : Z := 0x7E.
Definition BASE_WIRE_HANDLE : Z := 0x7E0000.

Definition primitive_name (c : ascii) : option string :=
  match c with
  | "B"%char => Some "byte"
  | "C"%char => Some "char"
  | "D"%char => Some "double"
  | "F"%char => Some "float"
  | "I"%char => Some "int"
  | "J"%char => Some "long"
  | "S"%char => Some "short"
  | "Z"%char => Some "boolean"
  | _ => None
  end.

Definition object_name (c : ascii) : option string :=
  match c with
  | "["%char => Some "array"
  | "L"%char => Some "object"
  | _ => None
  end.

(** The dictionaries have three keys per type code: the one-character
    [str], the one-byte [bytes] and the [int] code point. *)
Definition by_code (table : ascii -> option string) (key : value)
  : option string :=
  match key with
  | VStr (String c EmptyString) => table c
  | VBytes [b] => table (ascii_of_byte b)
  | VInt z =>
      if ((0 <=? z) && (z <? 256))%bool
      then table (ascii_of_N (Z.to_N z)) else None
  | _ => None
  end.

Definition PRIMITIVE_TYPES : value -> option string := by_code primitive_name.
Definition OBJECT_TYPES : value -> option string := by_code object_name.
Definition TYPES (key : value) : option string :=
  match OBJECT_TYPES key with
  | Some t => Some t
  | None => PRIMITIVE_TYPES key
  end.
End Constants.

(** ** The handler and the store *)

(** The attributes of [Handler], and the store [heap] its records live
    in: the object at address [a] is [heap !! a], and a new object gets
    the next free address. *)
Record Handler : Type := mkHandler {
  io : BytesIO;
  pos : Z;
  end_ : Z;
  block_mode : bool;
  block_data : value;
  references : list value;
  header : value;
  heap : list obj
}.

Definition with_io (x : BytesIO) (h : Handler) : Handler :=
  mkHandler x (pos h) (end_ h) (block_mode h) (block_data h) (references h) (header h) (heap h).
Definition with_pos (x : Z) (h : Handler) : Handler :=
  mkHandler (io h) x (end_ h) (block_mode h) (block_data h) (references h) (header h) (heap h).
Definition with_end (x : Z) (h : Handler) : Handler :=
  mkHandler (io h) (pos h) x (block_mode h) (block_data h) (references h) (header h) (heap h).
Definition with_block_mode (x : bool) (h : Handler) : Handler :=
  mkHandler (io h) (pos h) (end_ h) x (block_data h) (references h) (header h) (heap h).
Definition with_block_data (x : value) (h : Handler) : Handler :=
  mkHandler (io h) (pos h) (end_ h) (block_mode h) x (references h) (header h) (heap h).
Definition with_references (x : list value) (h : Handler) : Handler :=
  mkHandler (io h) (pos h) (end_ h) (block_mode h) (block_data h) x (header h) (heap h).
Definition with_header (x : value) (h : Handler) : Handler :=
  mkHandler (io h) (pos h) (end_ h) (block_mode h) (block_data h) (references h) x (heap h).
Definition with_heap (x : list obj) (h : Handler) : Handler :=
  mkHandler (io h) (pos h) (end_ h) (block_mode h) (block_data h) (references h) (header h) x.

(** The outcome of a call: a result, an exception, or [OutOfFuel] when
    the recursion bound of the model is reached. *)
Inductive result (A : Type) : Type :=
| Ok (a : A) (h : Handler)
| Raise (e : exn) (h : Handler)
| OutOfFuel.
Arguments Ok {A} a h.
Arguments Raise {A} e h.
Arguments OutOfFuel {A}.

Definition M (A : Type) : Type := Handler -> result A.

Definition ret {A} (a : A) : M A := fun h => Ok a h.
Definition bind {A B} (m : M A) (k : A -> M B) : M B :=
  fun h =>
    match m h with
    | Ok a h' => k a h'
    | Raise e h' => Raise e h'
    | OutOfFuel => OutOfFuel
    end.
Definition raise {A} (e : exn) : M A := fun h => Raise e h.
Definition get : M Handler := fun h => Ok h h.
Definition modify (f : Handler -> Handler) : M unit := fun h => Ok tt (f h).

Notation "x <- m ;; k" := (bind m (fun x => k))
  (at level 100, m at next level, k at level 200, right associativity).
Notation "m ;;; k" := (bind m (fun _ => k))
  (at level 100, k at level 200, right associativity).

Definition lift_opt {A} (e : exn) (o : option A) : M A :=
  match o with Some a => ret a | None => raise e end.

(** Running [m] [n] times and collecting the results in order: the
    [for i in range(n): xs.append(...)] loops. *)
Fixpoint repeatM {A} (n : nat) (m : M A) : M (list A) :=
  match n with
  | O => ret []
  | S n' => x <- m ;; xs <- repeatM n' m ;; ret (x :: xs)
  end.

Fixpoint mapM {A B} (f : A -> M B) (l : list A) : M (list B) :=
  match l with
  | [] => ret []
  | a :: l' => x <- f a ;; xs <- mapM f l' ;; ret (x :: xs)
  end.

(** *** Objects of the store *)

(** Calling a class: a new object with the attributes of [__init__]. *)
Definition alloc (o : obj) : M value :=
  fun h => Ok (VObj (length (heap h))) (with_heap (heap h ++ [o]) h).

(** [v.name]; values that are not instances have none of the attributes
    the decoder asks for. *)
Definition getattr (v : value) (name : string) : M value :=
  fun h =>
    match v with
    | VObj a =>
        match heap h !! a with
        | Some o =>
            match attr_get name (attrs o) with
            | Some x => Ok x h
            | None => Raise AttributeError h
            end
        | None => Raise AttributeError h
        end
    | _ => Raise AttributeError h
    end.

(** [v.name = x]. *)
Definition setattr (v : value) (name : string) (x : value) : M unit :=
  fun h =>
    match v with
    | VObj a =>
        match heap h !! a with
        | Some o =>
            Ok tt (with_heap (<[a := mkObj (cls o) (attr_set name x (attrs o))]> (heap h)) h)
        | None => Raise AttributeError h
        end
    | _ => Raise AttributeError h
    end.

(** [v.__class__], when it is one of the classes of the module; an
    address without an object, which no run produces, is an error as in
    [getattr]. *)
Definition class_of (v : value) : M (option Cls.t) :=
  fun h =>
    match v with
    | VObj a =>
        match heap h !! a with
        | Some o => Ok (Some (cls o)) h
        | None => Raise AttributeError h
        end
    | _ => Ok None h
    end.

Definition is_class (c : option Cls.t) (d : Cls.t) : bool :=
  match c with Some c' => Cls.eqb c' d | None => false end.

(** [c in [d1, ..., dn]]. *)
Definition in_classes (c : option Cls.t) (ds : list Cls.t) : bool :=
  existsb (is_class c) ds.

Definition as_int (v : value) : M Z :=
  match v with VInt z => ret z | _ => raise TypeError end.
Definition as_bool (v : value) : M bool :=
  match v with VBool b => ret b | _ => raise TypeError end.
Definition as_str (v : value) : M string :=
  match v with VStr s => ret s | _ => raise TypeError end.
Definition as_list (v : value) : M (list value) :=
  match v with VList l => ret l | _ => raise TypeError end.

(** [(value,) = t]: the tuple must have exactly one item. *)
Definition unpack1 (t : list value) : M value :=
  match t with [v] => ret v | _ => raise ValueError end.

(** ** [class Handler] *)

Section Decoder.
(** Whether [struct] knows the complex formats (see [Struct]). *)
Variable complex_formats : bool.
(** The call [decode_object(handler)] made from inside a decoder, and
    the number of nested calls still allowed below it. *)
Variable decode_object : M value.
Variable depth : nat.

Definition io_read (n : nat) : M (list byte) :=
  fun h => let (out, b) := BytesIO_read n (io h) in Ok out (with_io b h).

Definition io_seek_cur (n : Z) : M Z :=
  fun h =>
    match BytesIO_seek_cur n (io h) with
    | Some (p, b) => Ok p (with_io b h)
    | None => Raise OverflowError h
    end.

Definition set_block_data_mode (newmode : bool) : M value :=
  h <- get ;;
  if Bool.eqb newmode (block_mode h) then ret VNone else
  (if newmode then modify (with_pos 0) ;;; modify (with_end 0)
   else if pos h <? end_ h then raise (Exception "unread block data")
   else ret tt) ;;;
  modify (with_block_mode newmode) ;;;
  h' <- get ;;
  ret (VBool (negb (block_mode h'))).

Definition get_unread : M Z :=
  h <- get ;; ret (end_ h - pos h).

(** [while n > 0]: every turn takes at least 1 from [n], so [n] turns
    are enough. *)
Fixpoint skip_loop (turns : nat) (n : Z) : M unit :=
  match turns with
  | O => ret tt
  | S turns' =>
      if 0 <? n then
        skip <- io_seek_cur n ;;
        if skip =? 0 then raise (EOFError "Unexpected end of stream")
        else skip_loop turns' (n - skip)
      else ret tt
  end.

Definition skip (n : Z) : M unit := skip_loop (Z.to_nat n) n.

Definition refill : M unit :=
  h <- get ;;
  if negb (block_mode h) then raise (Exception "Refilling disabled") else
  n <- get_unread ;;
  skip n ;;;
  set_block_data_mode false ;;;
  new_block <- decode_object ;;
  set_block_data_mode true ;;;
  c <- class_of new_block ;;
  if negb (in_classes c [Cls.BlockData; Cls.BlockDataLong])
  then raise (Exception "Invalid block data") else
  modify (with_block_data new_block) ;;;
  modify (with_pos 0) ;;;
  h <- get ;;
  size <- getattr (block_data h) "size" ;;
  size <- as_int size ;;
  modify (with_end size).

Definition read_struct (unpack : string) : M (list value) :=
  ln <- lift_opt struct_error (Struct.calcsize complex_formats unpack) ;;
  h <- get ;;
  (if block_mode h && (pos h =? end_ h) then refill else ret tt) ;;;
  h <- get ;;
  ba <- (if block_mode h then
           (* read in block data *)
           bio <- getattr (block_data h) "io" ;;
           match bio with
           | VBytesIO b =>
               let (out, b') := BytesIO_read ln b in
               setattr (block_data h) "io" (VBytesIO b') ;;; ret out
           | _ => raise AttributeError
           end
         else io_read ln) ;;
  if negb (length ba =? ln)%nat
  then raise (EOFError "Unexpected end of stream") else
  modify (fun h => with_pos (pos h + Z.of_nat ln) h) ;;;
  lift_opt struct_error (Struct.unpack complex_formats unpack ba).

Definition read_boolean : M value :=
  t <- read_struct ">?" ;; unpack1 t.

Definition read_byte : M Z :=
  t <- read_struct ">B" ;; value <- unpack1 t ;; as_int value.

Definition read_char : M value :=
  t <- read_struct ">ss" ;; unpack1 t.

Definition read_double : M value :=
  t <- read_struct ">D" ;; unpack1 t.

Definition read_float : M value :=
  t <- read_struct ">F" ;; unpack1 t.

Definition read_short : M Z :=
  v1 <- read_byte ;;
  v2 <- read_byte ;;
  ret (Z.shiftl v1 8 + v2).

Definition read_int : M Z :=
  v1 <- read_short ;;
  v2 <- read_short ;;
  ret (Z.shiftl v1 16 + v2).

Definition read_long : M Z :=
  v1 <- read_int ;;
  v2 <- read_int ;;
  ret (Z.shiftl v1 32 + v2).

Definition read_primitive (primitive_type : value) : M value :=
  if is_str primitive_type "byte" then z <- read_byte ;; ret (VInt z) else
  if is_str primitive_type "char" then read_char else
  if is_str primitive_type "double" then read_double else
  if is_str primitive_type "float" then read_float else
  if is_str primitive_type "int" then z <- read_int ;; ret (VInt z) else
  if is_str primitive_type "long" then z <- read_long ;; ret (VInt z) else
  if is_str primitive_type "short" then z <- read_short ;; ret (VInt z) else
  if is_str primitive_type "boolean" then read_boolean else
  decode_object.

Definition read_object : M value := decode_object.

Definition add_reference (reference : value) : M unit :=
  modify (fun h => with_references (references h ++ [reference]) h).

(** [self.references[reference]]: a Python list index, counted from
    the end when it is negative. *)
Definition list_index {A} (l : list A) (i : Z) : option A :=
  let n := Z.of_nat (length l) in
  if (0 <=? i) && (i <? n) then l !! Z.to_nat i
  else if (- n <=? i) && (i <? 0) then l !! Z.to_nat (n + i)
  else None.

Definition get_reference (reference : Z) : M value :=
  h <- get ;; lift_opt IndexError (list_index (references h) reference).

(** ** The record classes *)

(** *** [String] and [LongString] *)

Definition new_String : M value :=
  alloc (mkObj Cls.String [("content", VStr "")]).

Definition chr (b : Z) : ascii := ascii_of_N (Z.to_N b).

Definition String_decode (self : value) : M unit :=
  ln <- read_short ;;
  if ln =? 0 then ret tt else
  contents <- repeatM (Z.to_nat ln) (b <- read_byte ;; ret (chr b)) ;;
  setattr self "content" (VStr (string_of_list_ascii contents)).

Definition new_LongString : M value :=
  alloc (mkObj Cls.LongString [("content", VStr "")]).

Definition LongString_decode (self : value) : M unit :=
  ln <- read_long ;;
  if ln =? 0 then ret tt else
  contents <- repeatM (Z.to_nat ln) (b <- read_byte ;; ret (chr b)) ;;
  setattr self "content" (VStr (string_of_list_ascii contents)).

(** *** [BlockData] and [BlockDataLong] *)

Definition new_BlockData : M value :=
  alloc (mkObj Cls.BlockData
           [("size", VInt 0); ("content", VStr ""); ("io", VNone)]).

Definition new_BlockDataLong : M value :=
  alloc (mkObj Cls.BlockDataLong
           [("size", VInt 0); ("content", VStr ""); ("io", VNone)]).

(** [read_size] is overridden in [BlockDataLong]. *)
Definition BlockData_read_size (self : value) : M Z :=
  c <- class_of self ;;
  if is_class c Cls.BlockDataLong then read_int else read_byte.

Definition BlockData_decode (self : value) : M unit :=
  size <- BlockData_read_size self ;;
  setattr self "size" (VInt size) ;;;
  if size =? 0 then ret tt else
  content <- io_read (Z.to_nat size) ;;
  setattr self "content" (VBytes content) ;;;
  if negb (truthy (VBytes content)) || negb (Z.of_nat (length content) =? size)
  then raise (EOFError "Unexpected end of stream") else
  setattr self "io" (VBytesIO (mkBytesIO content 0)).

(** *** [Reference] *)

Definition new_Reference : M value :=
  alloc (mkObj Cls.Reference [("ref", VInt 0); ("obj", VNone)]).

Definition Reference_decode (self : value) : M unit :=
  n <- read_int ;;
  let ref := n - Constants.BASE_WIRE_HANDLE in
  setattr self "ref" (VInt ref) ;;;
  target <- get_reference ref ;;
  setattr self "obj" target.

(** [if x.__class__ is Reference: x = x.obj]. *)
Definition unwrap_reference (x : value) : M value :=
  c <- class_of x ;;
  if is_class c Cls.Reference then getattr x "obj" else ret x.

(** *** [ClassDesc] *)

Definition new_ClassDesc : M value :=
  alloc (mkObj Cls.ClassDesc [("content", VNone)]).

Definition ClassDesc_decode (self : value) : M unit :=
  type <- decode_object ;;
  c <- class_of type ;;
  if negb (in_classes c [Cls.Null; Cls.Reference; Cls.ProxyClassDesc; Cls.NewClassDesc])
  then raise (Exception "Invalid type for class desc") else
  type <- unwrap_reference type ;;
  setattr self "content" type.

(** *** [Enum] *)

Definition new_Enum : M value :=
  alloc (mkObj Cls.Enum [("description", VNone); ("name", VNone)]).

Definition Enum_decode (self : value) : M unit :=
  description <- new_ClassDesc ;;
  setattr self "description" description ;;;
  ClassDesc_decode description ;;;
  add_reference self ;;;
  type <- decode_object ;;
  c <- class_of type ;;
  if negb (in_classes c [Cls.LongString; Cls.String; Cls.Reference])
  then raise (Exception "Invalid type for enum") else
  type <- unwrap_reference type ;;
  name <- getattr type "content" ;;
  setattr self "name" name.

(** *** [Field] *)

Definition new_Field : M value :=
  alloc (mkObj Cls.Field
           [("code", VInt 0); ("type", VInt 0);
            ("field_name", VNone); ("field_type", VNone)]).

Definition Field_is_valid (self : value) : M bool :=
  code <- getattr self "code" ;; ret (bool_decide (is_Some (Constants.TYPES code))).

Definition Field_is_object (self : value) : M bool :=
  code <- getattr self "code" ;; ret (bool_decide (is_Some (Constants.OBJECT_TYPES code))).

Definition Field_is_primitive (self : value) : M bool :=
  code <- getattr self "code" ;; ret (bool_decide (is_Some (Constants.PRIMITIVE_TYPES code))).

Definition Field_get_primitive_type (self : value) : M value :=
  code <- getattr self "code" ;;
  t <- lift_opt KeyError (Constants.PRIMITIVE_TYPES code) ;;
  ret (VStr t).

Definition Field_decode (self : value) : M unit :=
  code <- read_byte ;;
  setattr self "code" (VInt code) ;;;
  valid <- Field_is_valid self ;;
  if negb valid then raise (Exception "Invalid type code") else
  code <- getattr self "code" ;;
  t <- lift_opt KeyError (Constants.TYPES code) ;;
  setattr self "type" (VStr t) ;;;
  class_name <- new_String ;;
  String_decode class_name ;;;
  field_name <- getattr class_name "content" ;;
  setattr self "field_name" field_name ;;;
  is_object <- Field_is_object self ;;
  if is_object then
    type <- decode_object ;;
    c <- class_of type ;;
    if negb (in_classes c [Cls.String; Cls.Reference])
    then raise (Exception "Invalid type for field") else
    type <- unwrap_reference type ;;
    setattr self "field_type" type
  else ret tt.

(** *** [Header] *)

Definition new_Header : M value :=
  alloc (mkObj Cls.Header
           [("magic", VInt Constants.STREAM_MAGIC);
            ("version", VInt Constants.STREAM_VERSION)]).

Definition Header__decode_magic : M (list value) := read_struct ">HH".

Definition Header_decode (self : value) : M unit :=
  t <- Header__decode_magic ;;
  match t with
  | [magic; version] =>
      setattr self "magic" magic ;;; setattr self "version" version
  | _ => raise ValueError
  end.

(** *** [JavaException] *)

Definition new_JavaException : M value :=
  alloc (mkObj Cls.JavaException [("exception", VNone)]).

Definition JavaException_decode (self : value) : M unit :=
  exception <- decode_object ;;
  exception <- unwrap_reference exception ;;
  setattr self "exception" exception.

(** *** [NewArray] *)

Definition new_NewArray : M value :=
  alloc (mkObj Cls.NewArray
           [("new_class_desc", VNone); ("size", VInt 0);
            ("type", VStr ""); ("contents", VList [])]).

(** [s.index(c)]: the position of the first [c]. *)
Fixpoint str_index (c : ascii) (s : string) : option nat :=
  match s with
  | EmptyString => None
  | String d rest =>
      if Ascii.eqb d c then Some 0%nat else S <$> str_index c rest
  end.

Definition NewArray_array_type (self : value) : M value :=
  new_class_desc <- getattr self "new_class_desc" ;;
  c <- class_of new_class_desc ;;
  if negb (is_class c Cls.NewClassDesc) then ret (VBool false) else
  class_name <- getattr new_class_desc "class_name" ;;
  class_name <- as_str class_name ;;
  match class_name with
  | EmptyString => ret (VBool false)
  | String c0 _ =>
      match Constants.OBJECT_TYPES (VStr (String c0 EmptyString)) with
      | None => ret (VBool false)
      | Some t =>
          if negb (String.eqb t "array") then ret (VBool false) else
          decoded_type <- lift_opt IndexError (String.get 1 class_name) ;;
          match Constants.PRIMITIVE_TYPES (VStr (String decoded_type EmptyString)) with
          | Some p => ret (VStr p)
          | None =>
              if Ascii.eqb decoded_type "L" then
                (* Object *)
                i <- lift_opt ValueError (str_index ";" class_name) ;;
                ret (VStr (String.substring 2 (i - 2) class_name))
              else raise (Exception "Invalid array type")
          end
      end
  end.

Definition NewArray_decode (self : value) : M unit :=
  class_desc <- decode_object ;;
  c <- class_of class_desc ;;
  if negb (in_classes c [Cls.NewClassDesc; Cls.Reference])
  then raise (Exception "Invalid type for class desc") else
  class_desc <- unwrap_reference class_desc ;;
  setattr self "new_class_desc" class_desc ;;;
  add_reference self ;;;
  type <- NewArray_array_type self ;;
  setattr self "type" type ;;;
  size <- read_int ;;
  setattr self "size" (VInt size) ;;;
  contents <- repeatM (Z.to_nat size)
                (type <- getattr self "type" ;;
                 content <- read_primitive type ;;
                 unwrap_reference content) ;;
  setattr self "contents" (VList contents).

(** *** [NewClass] *)

Definition new_NewClass : M value :=
  alloc (mkObj Cls.NewClass [("class_desc", VNone)]).

Definition NewClass_decode (self : value) : M unit :=
  class_desc <- new_ClassDesc ;;
  setattr self "class_desc" class_desc ;;;
  ClassDesc_decode class_desc ;;;
  add_reference self.

(** *** [NewClassDesc] *)

Definition new_NewClassDesc : M value :=
  alloc (mkObj Cls.NewClassDesc
           [("class_name", VStr ""); ("serial_version_uid", VInt 0);
            ("flags", VInt 0); ("fields", VList []); ("super_class", VNone)]).

Definition NewClassDesc_decode (self : value) : M unit :=
  class_name <- new_String ;;
  String_decode class_name ;;;
  name <- getattr class_name "content" ;;
  setattr self "class_name" name ;;;
  uid <- read_long ;;
  setattr self "serial_version_uid" (VInt uid) ;;;
  add_reference self ;;;
  flags <- read_byte ;;
  setattr self "flags" (VInt flags) ;;;
  fields_count <- read_short ;;
  fields <- repeatM (Z.to_nat fields_count)
              (field <- new_Field ;; Field_decode field ;;; ret field) ;;
  setattr self "fields" (VList fields) ;;;
  type <- decode_object ;;
  c <- class_of type ;;
  if negb (in_classes c [Cls.EndBlockData])
  then raise (Exception "Invalid type for enum") else
  super_class <- new_ClassDesc ;;
  setattr self "super_class" super_class ;;;
  ClassDesc_decode super_class.

(** *** [NewObject] *)

Definition new_NewObject : M value :=
  alloc (mkObj Cls.NewObject [("class_desc", VNone); ("contents", VList [])]).

Definition NewObject_get_class_content (class_desc : value) : M value :=
  content <- getattr class_desc "content" ;;
  if negb (truthy content) then ret (VBool false) else
  c <- class_of content ;;
  if is_class c Cls.NewClassDesc then ret content else ret (VBool false).

(** The value of one field of the object being read. *)
Definition NewObject_field_value (field : value) : M value :=
  primitive <- Field_is_primitive field ;;
  if primitive then
    primitive_type <- Field_get_primitive_type field ;;
    read_primitive primitive_type
  else
    content <- decode_object ;;
    unwrap_reference content.

(** The method calls itself on the super class; [calls] bounds the
    nesting. *)
Fixpoint NewObject_decode_class_data (calls : nat) (new_class_desc : value)
  : M (list value) :=
  match calls with
  | O => fun _ => OutOfFuel
  | S calls' =>
      if negb (truthy new_class_desc) then ret [] else
      super_class <- getattr new_class_desc "super_class" ;;
      contents <- (if truthy super_class then
                     super_desc <- NewObject_get_class_content super_class ;;
                     NewObject_decode_class_data calls' super_desc
                   else ret []) ;;
      fields <- getattr new_class_desc "fields" ;;
      fields <- as_list fields ;;
      values <- mapM NewObject_field_value fields ;;
      ret (contents ++ values)
  end.

Definition NewObject_decode (self : value) : M unit :=
  class_desc <- new_ClassDesc ;;
  setattr self "class_desc" class_desc ;;;
  ClassDesc_decode class_desc ;;;
  add_reference self ;;;
  class_desc <- getattr self "class_desc" ;;
  new_class_desc <- NewObject_get_class_content class_desc ;;
  contents <- NewObject_decode_class_data (S depth) new_class_desc ;;
  setattr self "contents" (VList contents).

(** *** [Null], [EndBlockData] *)

Definition new_Null : M value := alloc (mkObj Cls.Null []).
Definition new_EndBlockData : M value := alloc (mkObj Cls.EndBlockData []).

(** *** [ProxyClassDesc] *)

Definition new_ProxyClassDesc : M value :=
  alloc (mkObj Cls.ProxyClassDesc [("ifaces", VList []); ("super_class", VNone)]).

Definition ProxyClassDesc_decode (self : value) : M unit :=
  add_reference self ;;;
  size <- read_int ;;
  repeatM (Z.to_nat size)
    (iface <- new_String ;;
     String_decode iface ;;;
     name <- getattr iface "content" ;;
     ifaces <- getattr self "ifaces" ;;
     ifaces <- as_list ifaces ;;
     setattr self "ifaces" (VList (ifaces ++ [name]))) ;;;
  type <- decode_object ;;
  c <- class_of type ;;
  if negb (in_classes c [Cls.EndBlockData])
  then raise (Exception "Invalid type for enum") else
  super_class <- new_ClassDesc ;;
  setattr self "super_class" super_class ;;;
  ClassDesc_decode super_class.

(** ** [decode_object]: one tag, one record *)

Definition decode_object_body : M value :=
  tc <- read_byte ;;
  if tc =? 0 then raise (Exception "Invalid type code") else
  if tc =? Constants.TC_ARRAY then
    new_array <- new_NewArray ;; NewArray_decode new_array ;;; ret new_array else
  if tc =? Constants.TC_BLOCKDATA then
    new_block_data <- new_BlockData ;;
    BlockData_decode new_block_data ;;; ret new_block_data else
  if tc =? Constants.TC_BLOCKDATALONG then
    new_block_data_long <- new_BlockDataLong ;;
    BlockData_decode new_block_data_long ;;; ret new_block_data_long else
  if tc =? Constants.TC_CLASS then
    new_class <- new_NewClass ;; NewClass_decode new_class ;;; ret new_class else
  if tc =? Constants.TC_CLASSDESC then
    new_class_desc <- new_NewClassDesc ;;
    NewClassDesc_decode new_class_desc ;;; ret new_class_desc else
  if tc =? Constants.TC_ENDBLOCKDATA then new_EndBlockData else
  if tc =? Constants.TC_ENUM then
    new_enum <- new_Enum ;; Enum_decode new_enum ;;; ret new_enum else
  if tc =? Constants.TC_EXCEPTION then
    new_exception <- new_JavaException ;;
    JavaException_decode new_exception ;;; ret new_exception else
  if tc =? Constants.TC_LONGSTRING then
    new_long_string <- new_LongString ;;
    LongString_decode new_long_string ;;;
    add_reference new_long_string ;;; ret new_long_string else
  if tc =? Constants.TC_NULL then new_Null else
  if tc =? Constants.TC_OBJECT then
    new_object <- new_NewObject ;; NewObject_decode new_object ;;; ret new_object else
  if tc =? Constants.TC_PROXYCLASSDESC then
    raise (Exception "TC_PROXYCLASSDESC not supported") else
  if tc =? Constants.TC_REFERENCE then
    new_reference <- new_Reference ;;
    Reference_decode new_reference ;;; ret new_reference else
  if tc =? Constants.TC_STRING then
    new_string <- new_String ;;
    String_decode new_string ;;;
    add_reference new_string ;;; ret new_string else
  (* pass *)
  ret VNone.

(** [Handler(io)]: the attributes, then the header. *)
Definition Handler_new (io0 : BytesIO) : Handler :=
  mkHandler io0 0 0 false VNone [] VNone [].

Definition Handler_init : M unit :=
  hd <- new_Header ;;
  modify (with_header hd) ;;;
  Header_decode hd.
End Decoder.

(** The recursion of [decode_object] through the decoders, bounded by
    [fuel] nested calls. *)
Fixpoint decode_object (complex_formats : bool) (fuel : nat) : M value :=
  match fuel with
  | O => fun _ => OutOfFuel
  | S fuel' =>
      decode_object_body complex_formats (decode_object complex_formats fuel') fuel'
  end.

(** Opening a stream: [Handler(BytesIO(data))]. *)
Definition open_stream (complex_formats : bool) (data : list byte) : result unit :=
  Handler_init complex_formats (fun _ => OutOfFuel)
    (Handler_new (mkBytesIO data 0)).

(** * Properties of the decoder *)

(** ** Vocabulary of the statements *)

(** [m] moves the handler along the relation [R] whenever it returns. *)
Definition preserves (R : Handler -> Handler -> Prop) {A} (m : M A) : Prop :=
  forall h a h', m h = Ok a h' -> R h h'.

(** Two objects that differ at most in the cursor of their [io]. *)
Definition same_but_io (o o' : obj) : Prop :=
  cls o = cls o' /\
  forall name, name <> "io" -> attr_get name (attrs o) = attr_get name (attrs o').

(** From [h] to [h']: handles are only added, objects keep their class,
    and the objects outside [S] keep their attributes. *)
Record evolves (S : list nat) (h h' : Handler) : Prop := mkEvolves {
  ev_refs : references h `prefix_of` references h';
  ev_cls : forall a o, heap h !! a = Some o ->
           exists o', heap h' !! a = Some o' /\ cls o' = cls o;
  ev_frame : forall a o, heap h !! a = Some o -> ~ In a S ->
             exists o', heap h' !! a = Some o' /\ same_but_io o o'
}.

(** The bytes of the stream that are still to be read. *)
Definition avail (h : Handler) : list byte := drop (cur (io h)) (buf (io h)).

(** The handler after a read of [n] bytes from the stream. *)
Definition advance (n : nat) (h : Handler) : Handler :=
  with_pos (pos h + Z.of_nat n)
    (with_io (mkBytesIO (buf (io h)) (cur (io h) + n)) h).

(** Whether a class name starts with the array code. *)
Definition array_name (s : string) : bool :=
  match s with String "["%char _ => true | _ => false end.

(** ** Streams used as examples *)

(** The handler that [Handler(BytesIO(data))] leaves. *)
Definition opened (complex_formats : bool) (data : list byte) : Handler :=
  match open_stream complex_formats data with
  | Ok _ h | Raise _ h => h
  | OutOfFuel => Handler_new (mkBytesIO data 0)
  end.

(** The same handler after the caller's [set_block_data_mode(True)]. *)
Definition opened_block_mode (complex_formats : bool) (data : list byte) : Handler :=
  match set_block_data_mode true (opened complex_formats data) with
  | Ok _ h | Raise _ h => h
  | OutOfFuel => opened complex_formats data
  end.

(** The handler [opened_block_mode] after a [refill]. *)
Definition refilled (complex_formats : bool) (fuel : nat) (data : list byte)
  : Handler :=
  match refill (decode_object complex_formats fuel)
          (opened_block_mode complex_formats data) with
  | Ok _ h | Raise _ h => h
  | OutOfFuel => opened_block_mode complex_formats data
  end.

(** The handler after the first record of the stream. *)
Definition after_record (complex_formats : bool) (fuel : nat) (data : list byte)
  : Handler :=
  match decode_object complex_formats fuel (opened complex_formats data) with
  | Ok _ h | Raise _ h => h
  | OutOfFuel => opened complex_formats data
  end.

(** [AC ED 00 05], then String "A", then a reference to handle 0. *)
Definition stream_back_reference : list byte :=
  [xac; xed; x00; x05; x74; x00; x01; x41; x71; x00; x7e; x00; x00].

(** The same with the operand [0x7DFFFF], one below the base. *)
Definition stream_reference_below_base : list byte :=
  [xac; xed; x00; x05; x74; x00; x01; x41; x71; x00; x7d; xff; xff].

(** A header of zeros, then a null. *)
Definition stream_zero_header : list byte := [x00; x00; x00; x00; x70].

(** A header, then the tag [0x7F]. *)
Definition stream_unknown_tag : list byte := [xac; xed; x00; x05; x7f].

(** A proxy class description: one interface "A", an empty annotation,
    no super class. *)
Definition proxy_body : list byte :=
  [x00; x00; x00; x01; x00; x01; x41; x78; x70].
Definition stream_proxy : list byte :=
  [xac; xed; x00; x05; x7d] ++ proxy_body.

(** An array whose class description is named "X", of size 2: a null,
    then the string "A". *)
Definition stream_array_of_X : list byte :=
  [xac; xed; x00; x05; x75; x72; x00; x01; x58;
   x00; x00; x00; x00; x00; x00; x00; x00; x02; x00; x00; x78; x70;
   x00; x00; x00; x02; x70; x74; x00; x01; x41].

(** The handler when [NewArray.decode] is entered on that stream (the
    tag is read and the NewArray created), and once the class description
    is decoded. *)
Definition array_of_X_entered : Handler :=
  match (read_byte false (decode_object false 0) ;;; new_NewArray)
          (opened false stream_array_of_X) with
  | Ok _ h | Raise _ h => h
  | OutOfFuel => opened false stream_array_of_X
  end.
Definition array_of_X_described : Handler :=
  match decode_object false 2 array_of_X_entered with
  | Ok _ h | Raise _ h => h
  | OutOfFuel => array_of_X_entered
  end.

(** An array whose class description is a null. *)
Definition stream_array_of_null : list byte :=
  [xac; xed; x00; x05; x75; x70; x00; x00; x00; x00].

(** The two bytes [00 41] in the stream, and in two block-data frames of
    one byte each. *)
Definition stream_char : list byte := [xac; xed; x00; x05; x00; x41].
Definition stream_char_two_frames : list byte :=
  [xac; xed; x00; x05; x77; x01; x00; x77; x01; x41].

(** Eight bytes in the stream, and in two frames of four bytes. *)
Definition stream_float : list byte :=
  [xac; xed; x00; x05; x3f; x80; x00; x00; x00; x00; x00; x00].
Definition stream_float_two_frames : list byte :=
  [xac; xed; x00; x05; x77; x04; x3f; x80; x00; x00; x77; x04; x00; x00; x00; x00].

(** The int 5 in two frames of two bytes. *)
Definition stream_int_two_frames : list byte :=
  [xac; xed; x00; x05; x77; x02; x00; x00; x77; x02; x00; x05].

(** An object of class B, with a byte field [b], whose super class A has
    an int field [a]; then the class data: the int 7 and the byte 9. *)
Definition stream_object_B : list byte :=
  [xac; xed; x00; x05; x73;
   x72; x00; x01; x42; x00; x00; x00; x00; x00; x00; x00; x00; x02;
   x00; x01; x42; x00; x01; x62; x78;
   x72; x00; x01; x41; x00; x00; x00; x00; x00; x00; x00; x00; x02;
   x00; x01; x49; x00; x01; x61; x78; x70;
   x00; x00; x00; x07; x09].

(** A frame of length zero. *)
Definition stream_empty_frame : list byte := [xac; xed; x00; x05; x77; x00; x41].

(** ** The block-data frame *)

(** [pos] and [end] are the cursor and the length of the [io] of the
    frame the handler holds. *)
Definition frame_synced (h : Handler) : Prop :=
  exists a o b,
    block_data h = VObj a /\ heap h !! a = Some o /\
    attr_get "io" (attrs o) = Some (VBytesIO b) /\
    pos h = Z.of_nat (cur b) /\ end_ h = Z.of_nat (length (buf b)) /\
    (cur b <= length (buf b))%nat.

(** The frame is used up (or there is none yet), or it is in step with
    [pos] and [end]. *)
Definition frame_ok (h : Handler) : Prop :=
  pos h = end_ h \/ frame_synced h.

(** What a frame looks like once decoded: its [size], and an [io] over
    its bytes unless it is empty. *)
Definition frame_object (o : obj) (size : Z) : Prop :=
  attr_get "size" (attrs o) = Some (VInt size) /\
  ((size = 0 /\ attr_get "io" (attrs o) = Some VNone) \/
   (exists content,
      attr_get "io" (attrs o) = Some (VBytesIO (mkBytesIO content 0)) /\
      Z.of_nat (length content) = size /\ size <> 0)).

(** ** Later states of the handler *)

(** One action on the handler: a tag dispatch, a read, a handle
    assignment, the creation of an object, an attribute assignment or a
    change of mode. *)
Inductive step (cf : bool) : Handler -> Handler -> Prop :=
| step_decode_object fuel h v h' :
    decode_object cf fuel h = Ok v h' -> step cf h h'
| step_read_struct fuel fmt h t h' :
    read_struct cf (decode_object cf fuel) fmt h = Ok t h' -> step cf h h'
| step_add_reference v h u h' :
    add_reference v h = Ok u h' -> step cf h h'
| step_alloc o h v h' :
    alloc o h = Ok v h' -> step cf h h'
| step_setattr v name x h u h' :
    setattr v name x h = Ok u h' -> step cf h h'
| step_set_block_data_mode b h v h' :
    set_block_data_mode b h = Ok v h' -> step cf h h'.

(** [h'] is reached from [h] by any number of actions. *)
Inductive later (cf : bool) : Handler -> Handler -> Prop :=
| later_now h : later cf h h
| later_step h h1 h2 : step cf h h1 -> later cf h1 h2 -> later cf h h2.

(** ** The super chain of a class description *)

(** [super_chain hp v L]: starting from [v], the content of a ClassDesc,
    and following [super_class] as long as the content is a NewClassDesc,
    the class descriptions met have the field lists [L], the outermost
    super class first.  A description whose [super_class] is still [None]
    ends the chain. *)
Inductive super_chain (hp : list obj) : value -> list (list value) -> Prop :=
| chain_value v :
    (forall a, v <> VObj a) -> super_chain hp v []
| chain_other a o :
    hp !! a = Some o -> cls o <> Cls.NewClassDesc -> super_chain hp (VObj a) []
| chain_top a o fs sc :
    hp !! a = Some o -> cls o = Cls.NewClassDesc ->
    attr_get "fields" (attrs o) = Some (VList fs) ->
    attr_get "super_class" (attrs o) = Some sc -> truthy sc = false ->
    super_chain hp (VObj a) [fs]
| chain_super a o fs sc osc body L :
    hp !! a = Some o -> cls o = Cls.NewClassDesc ->
    attr_get "fields" (attrs o) = Some (VList fs) ->
    attr_get "super_class" (attrs o) = Some (VObj sc) ->
    hp !! sc = Some osc -> attr_get "content" (attrs osc) = Some body ->
    super_chain hp body L ->
    super_chain hp (VObj a) (L ++ [fs]).

(** The number of fields of a chain. *)
Definition field_count (L : list (list value)) : nat :=
  sum_list (length <$> L).

(** The [type] of the array at [a] is False. *)
Definition type_is_False (a : nat) (h : Handler) : Prop :=
  exists o, heap h !! a = Some o /\ attr_get "type" (attrs o) = Some (VBool false).

(** The class of the record each tag stands for. *)
Definition tag_class (tc : Z) : option Cls.t :=
  if tc =? Constants.TC_ARRAY then Some Cls.NewArray else
  if tc =? Constants.TC_BLOCKDATA then Some Cls.BlockData else
  if tc =? Constants.TC_BLOCKDATALONG then Some Cls.BlockDataLong else
  if tc =? Constants.TC_CLASS then Some Cls.NewClass else
  if tc =? Constants.TC_CLASSDESC then Some Cls.NewClassDesc else
  if tc =? Constants.TC_ENDBLOCKDATA then Some Cls.EndBlockData else
  if tc =? Constants.TC_ENUM then Some Cls.Enum else
  if tc =? Constants.TC_EXCEPTION then Some Cls.JavaException else
  if tc =? Constants.TC_LONGSTRING then Some Cls.LongString else
  if tc =? Constants.TC_NULL then Some Cls.Null else
  if tc =? Constants.TC_OBJECT then Some Cls.NewObject else
  if tc =? Constants.TC_REFERENCE then Some Cls.Reference else
  if tc =? Constants.TC_STRING then Some Cls.String else
  None.

(** ** Primitives over block-data frames *)

(** The length byte of a short frame. *)
Definition length_byte (f : list byte) : byte :=
  default x00 (Byte.of_N (N.of_nat (length f))).

(** A block-data frame of 1 to 255 bytes on the wire: [TC_BLOCKDATA], the
    length, the bytes. *)
Definition frame_bytes (f : list byte) : list byte :=
  x77 :: length_byte f :: f.

Definition valid_frame (f : list byte) : Prop :=
  (1 <= length f <= 255)%nat.

(** The frames one after the other. *)
Definition wire (frames : list (list byte)) : list byte :=
  concat (frame_bytes <$> frames).

(** The bytes of the current frame that are still unread. *)
Definition frame_left (h : Handler) (left : list byte) : Prop :=
  (pos h = end_ h /\ left = []) \/
  (exists a o b,
      block_data h = VObj a /\ heap h !! a = Some o /\
      attr_get "io" (attrs o) = Some (VBytesIO b) /\
      pos h = Z.of_nat (cur b) /\ end_ h = Z.of_nat (length (buf b)) /\
      left = drop (cur b) (buf b) /\ left <> []).

(** [hb] reads in block mode the bytes [data], cut into frames, that [hs]
    reads in stream mode; [rest] follows the frames on the wire. *)
Definition same_data (rest : list byte) (hb hs : Handler) (data : list byte)
  : Prop :=
  block_mode hb = true /\ block_mode hs = false /\
  exists left frames,
    frame_left hb left /\ avail hb = wire frames ++ rest /\
    Forall valid_frame frames /\ data = left ++ concat frames /\
    exists rest_s, avail hs = data ++ rest_s.

(** The integer and boolean primitives, and the bytes they take. *)
Definition integer_width (t : string) : option nat :=
  if String.eqb t "byte" then Some 1%nat else
  if String.eqb t "short" then Some 2%nat else
  if String.eqb t "int" then Some 4%nat else
  if String.eqb t "long" then Some 8%nat else
  if String.eqb t "boolean" then Some 1%nat else None.

(** [m] takes [width] bytes and returns the same value in both modes. *)
Definition reads_alike {A} (rest : list byte) (width : nat) (m : M A) : Prop :=
  forall hb hs data,
    same_data rest hb hs data -> (width <= length data)%nat ->
    exists a hb' hs',
      m hb = Ok a hb' /\ m hs = Ok a hs' /\
      same_data rest hb' hs' (drop width data).

(** The bytes a sequence of integer and boolean primitives takes. *)
Fixpoint integer_widths (ts : list string) : option nat :=
  match ts with
  | [] => Some 0%nat
  | t :: ts' =>
      match integer_width t, integer_widths ts' with
      | Some w, Some n => Some (w + n)%nat
      | _, _ => None
      end
  end.

(** ** The recursion bound *)

(** [r'] is [r], unless [r] ran out of fuel. *)
Definition refines {A} (r r' : result A) : Prop := r = OutOfFuel \/ r = r'.

Definition mrefines {A} (m m' : M A) : Prop := forall h, refines (m h) (m' h).

(** ** Records on the wire *)

(** The characters [String.decode] makes of the bytes of a string: one
    character per byte, [chr] of its value. *)
Definition latin1 (s : list byte) : string :=
  string_of_list_ascii ((fun b => chr (byte_val b)) <$> s).

(** The tag and the length bytes that open a block-data frame: one length
    byte after [TC_BLOCKDATA], four after [TC_BLOCKDATALONG]. *)
Definition frame_header (tag : byte) (lenb : list byte) : Prop :=
  (tag = x77 /\ length lenb = 1%nat) \/ (tag = x7a /\ length lenb = 4%nat).

Definition frame_class (tag : byte) : Cls.t :=
  if Byte.eqb tag x7a then Cls.BlockDataLong else Cls.BlockData.

(** ** Runs in stream mode *)

(** From [h] to [h'], when [h] is in stream mode: the handler stays in
    stream mode, the stream is the same buffer with the cursor further on,
    [pos] has not gone back, and [end], [block_data] and [header] are as
    they were. *)
Definition stream_run (h h' : Handler) : Prop :=
  block_mode h = false ->
  block_mode h' = false /\ buf (io h') = buf (io h) /\
  (cur (io h) <= cur (io h'))%nat /\ pos h <= pos h' /\ end_ h' = end_ h /\
  block_data h' = block_data h /\ header h' = header h.

(** ** The records behind the handles *)

(** The classes whose records are given a handle: [add_reference] is
    called with an instance of one of them. *)
Definition handle_class (c : Cls.t) : bool :=
  match c with
  | Cls.Enum | Cls.LongString | Cls.NewArray | Cls.NewClass
  | Cls.NewClassDesc | Cls.NewObject | Cls.ProxyClassDesc | Cls.String => true
  | _ => false
  end.

(** [v] is an object of the store [hp], of one of these classes. *)
Definition handle_record (hp : list obj) (v : value) : bool :=
  match v with
  | VObj a =>
      match hp !! a with
      | Some o => handle_class (cls o)
      | None => false
      end
  | _ => false
  end.

(** Every entry of the handle table is such a record. *)
Definition handles_ok (h : Handler) : bool :=
  forallb (handle_record (heap h)) (references h).

(** From [h] to [h']: objects keep their class, and if the values [sel]
    are records that may be given a handle, the handle table stays a
    table of such records. *)
Definition keeps_handles (sel : list value) (h h' : Handler) : Prop :=
  (forall a o, heap h !! a = Some o ->
               exists o', heap h' !! a = Some o' /\ cls o' = cls o) /\
  (forallb (handle_record (heap h)) sel = true ->
   handles_ok h = true -> handles_ok h' = true).

(** ** Steps of a run in stream mode *)

(** The handler [h] once [n] more bytes of the stream are read, the
    handles [refs] assigned and the objects [objs] created. *)
Definition after_reading (h : Handler) (n : nat) (refs : list value)
  (objs : list obj) : Handler :=
  with_references (references h ++ refs)
    (with_heap (heap h ++ objs) (advance n h)).

(** The elements of an array of bytes: the values of the bytes. *)
Definition byte_values (data : list byte) : list value :=
  (fun b => VInt (byte_val b)) <$> data.

(** ** More streams used as examples *)

(** A long string "A": the length takes eight bytes. *)
Definition stream_long_string : list byte :=
  [xac; xed; x00; x05; x7c; x00; x00; x00; x00; x00; x00; x00; x01; x41].

(** A string that announces two bytes and has one. *)
Definition stream_string_cut : list byte :=
  [xac; xed; x00; x05; x74; x00; x02; x41].

(** A frame that announces three bytes and has one. *)
Definition stream_frame_cut : list byte :=
  [xac; xed; x00; x05; x77; x03; x00].

(** A header and nothing else. *)
Definition stream_header_only : list byte := [xac; xed; x00; x05].

(** A header, then [TC_RESET]. *)
Definition stream_reset : list byte := [xac; xed; x00; x05; x79].

(** A reference to handle 0 when no handle is assigned yet. *)
Definition stream_reference_past_end : list byte :=
  [xac; xed; x00; x05; x71; x00; x7e; x00; x00].

(** The int 5 in the stream. *)
Definition stream_int : list byte := [xac; xed; x00; x05; x00; x00; x00; x05].

(** [new byte[] {1, 2}] as Java writes it: the class description of
    [byte[]], then the length and the bytes. *)
Definition stream_byte_array : list byte :=
  [xac; xed; x00; x05; x75; x72; x00; x02; x5b; x42;
   xac; xf3; x17; xf8; x06; x08; x54; xe0; x02; x00; x00; x78; x70;
   x00; x00; x00; x02; x01; x02].

(** An array whose class is named "[[B". *)
Definition stream_nested_array : list byte :=
  [xac; xed; x00; x05; x75; x72; x00; x03; x5b; x5b; x42;
   x00; x00; x00; x00; x00; x00; x00; x00; x02; x00; x00; x78; x70;
   x00; x00; x00; x00].

(** The handler after the second record of the stream. *)
Definition after_second_record (complex_formats : bool) (fuel : nat)
  (data : list byte) : Handler :=
  match decode_object complex_formats fuel (after_record complex_formats fuel data) with
  | Ok _ h | Raise _ h => h
  | OutOfFuel => after_record complex_formats fuel data
  end.

(** An object of class A with the int field [a], whose value is 7. *)
Definition stream_object_A : list byte :=
  [xac; xed; x00; x05; x73; x72; x00; x01; x41;
   x00; x00; x00; x00; x00; x00; x00; x00; x02; x00; x01;
   x49; x00; x01; x61; x78; x70; x00; x00; x00; x07].

(** A class record for the class A. *)
Definition stream_class_A : list byte :=
  [xac; xed; x00; x05; x76; x72; x00; x01; x41;
   x00; x00; x00; x00; x00; x00; x00; x00; x02; x00; x00; x78; x70].

(** The constant X of the enum E. *)
Definition stream_enum : list byte :=
  [xac; xed; x00; x05; x7e; x72; x00; x01; x45;
   x00; x00; x00; x00; x00; x00; x00; x00; x12; x00; x00; x78; x70;
   x74; x00; x01; x58].

(** String "A", then an exception record that refers to handle 0. *)
Definition stream_exception_reference : list byte :=
  [xac; xed; x00; x05; x74; x00; x01; x41; x7b; x71; x00; x7e; x00; x00].

(** Two objects of class A: the second refers to the class description of
    the first (handle 0) and has the value 9. *)
Definition stream_two_objects_A : list byte :=
  stream_object_A ++ [x73; x71; x00; x7e; x00; x00; x00; x00; x00; x09].

(** ** Reasoning about the monad *)

Lemma bind_Ok {A B} (m : M A) (k : A -> M B) h b h' :
  bind m k h = Ok b h' -> exists a h1, m h = Ok a h1 /\ k a h1 = Ok b h'.
Proof.
  unfold bind. destruct (m h) as [a h1| |]; try discriminate. eauto.
Qed.

Lemma bind_eq {A B} (m : M A) (k : A -> M B) h a h1 :
  m h = Ok a h1 -> bind m k h = k a h1.
Proof. intros H. unfold bind. now rewrite H. Qed.

Lemma ret_Ok {A} (a b : A) h h' : ret a h = Ok b h' -> b = a /\ h' = h.
Proof. intros H. inversion H. auto. Qed.

Section Preserves.
Variable R : Handler -> Handler -> Prop.
Hypothesis R_refl : forall h, R h h.
Hypothesis R_trans : forall h1 h2 h3, R h1 h2 -> R h2 h3 -> R h1 h3.

Lemma preserves_ret {A} (a : A) : preserves R (ret a).
Proof. intros h a' h' H. inversion H; subst. apply R_refl. Qed.

Lemma preserves_raise {A} e : preserves R (@raise A e).
Proof. intros h a h' H. discriminate. Qed.

Lemma preserves_get : preserves R get.
Proof. intros h a h' H. inversion H; subst. apply R_refl. Qed.

Lemma preserves_bind {A B} (m : M A) (k : A -> M B) :
  preserves R m -> (forall a, preserves R (k a)) -> preserves R (bind m k).
Proof.
  intros Hm Hk h b h' H. apply bind_Ok in H as (a & h1 & H1 & H2).
  eapply R_trans; [eapply Hm | eapply Hk]; eauto.
Qed.

Lemma preserves_lift_opt {A} e (o : option A) : preserves R (lift_opt e o).
Proof. destruct o; [apply preserves_ret | apply preserves_raise]. Qed.

Lemma preserves_repeatM {A} n (m : M A) :
  preserves R m -> preserves R (repeatM n m).
Proof.
  intros Hm. induction n as [|n IH]; simpl.
  - apply preserves_ret.
  - apply preserves_bind; [assumption|]. intros x.
    apply preserves_bind; [assumption|]. intros xs. apply preserves_ret.
Qed.

Lemma preserves_mapM {A B} (f : A -> M B) l :
  (forall a, preserves R (f a)) -> preserves R (mapM f l).
Proof.
  intros Hf. induction l as [|a l IH]; simpl.
  - apply preserves_ret.
  - apply preserves_bind; [apply Hf|]. intros x.
    apply preserves_bind; [assumption|]. intros xs. apply preserves_ret.
Qed.
End Preserves.

(** ** What decoding never undoes *)

Lemma same_but_io_refl o : same_but_io o o.
Proof. split; auto. Qed.

Lemma same_but_io_trans o1 o2 o3 :
  same_but_io o1 o2 -> same_but_io o2 o3 -> same_but_io o1 o3.
Proof.
  intros [C1 A1] [C2 A2]. split; [congruence|].
  intros name Hn. rewrite A1, A2; auto.
Qed.

Lemma evolves_refl S h : evolves S h h.
Proof.
  split; [reflexivity| |]; intros a o Ha; eauto using same_but_io_refl.
Qed.

Lemma evolves_trans S h1 h2 h3 :
  evolves S h1 h2 -> evolves S h2 h3 -> evolves S h1 h3.
Proof.
  intros [R1 C1 F1] [R2 C2 F2]. split.
  - etransitivity; eauto.
  - intros a o Ha. destruct (C1 _ _ Ha) as (o' & Ha' & E').
    destruct (C2 _ _ Ha') as (o'' & Ha'' & E''). exists o''. split; [auto|congruence].
  - intros a o Ha Hn. destruct (F1 _ _ Ha Hn) as (o' & Ha' & E').
    destruct (F2 _ _ Ha' Hn) as (o'' & Ha'' & E'').
    eauto using same_but_io_trans.
Qed.

Lemma evolves_weaken S S' h h' :
  incl S S' -> evolves S h h' -> evolves S' h h'.
Proof.
  intros Hi [R1 C1 F1]. split; auto.
Qed.

(** Changing an attribute of the handler other than the handle table. *)
Lemma evolves_handler S h h' :
  heap h' = heap h -> references h `prefix_of` references h' -> evolves S h h'.
Proof.
  intros Hh Hr. split; [assumption| |]; intros a o Ha; rewrite Hh;
    eauto using same_but_io_refl.
Qed.

Lemma attr_get_set_ne name name' x d :
  name' <> name -> attr_get name' (attr_set name x d) = attr_get name' d.
Proof.
  intros Hn. induction d as [|[k v] d IH]; simpl.
  - destruct (String.eqb_spec name name'); congruence.
  - destruct (String.eqb_spec k name) as [->|Hk]; simpl.
    + destruct (String.eqb_spec name name'); congruence.
    + destruct (String.eqb_spec k name'); auto.
Qed.

Lemma attr_get_set_eq name x d : attr_get name (attr_set name x d) = Some x.
Proof.
  induction d as [|[k v] d IH]; simpl.
  - now rewrite String.eqb_refl.
  - destruct (String.eqb_spec k name) as [->|Hk]; simpl.
    + now rewrite String.eqb_refl.
    + destruct (String.eqb_spec k name); congruence.
Qed.

Lemma setattr_Ok v name x h u h' :
  setattr v name x h = Ok u h' ->
  exists a o, v = VObj a /\ heap h !! a = Some o /\
    h' = with_heap (<[a := mkObj (cls o) (attr_set name x (attrs o))]> (heap h)) h.
Proof.
  unfold setattr. destruct v; try discriminate.
  destruct (heap h !! a) as [o|] eqn:E; try discriminate.
  intros H. inversion H. eauto.
Qed.

Lemma evolves_setattr S s name x :
  In s S -> preserves (evolves S) (setattr (VObj s) name x).
Proof.
  intros Hs h u h' H. apply setattr_Ok in H as (a & o & Hv & Ha & ->).
  inversion Hv; subst a. split; simpl; [reflexivity| |].
  - intros a o' Ha'. destruct (decide (a = s)) as [->|Hne].
    + rewrite list_lookup_insert_eq by (eapply lookup_lt_Some; eauto).
      eexists; split; eauto. simpl. congruence.
    + rewrite list_lookup_insert_ne by auto. eauto.
  - intros a o' Ha' Hn. rewrite list_lookup_insert_ne by (intros ->; auto).
    eauto using same_but_io_refl.
Qed.

Lemma evolves_setattr_io S v x : preserves (evolves S) (setattr v "io" x).
Proof.
  intros h u h' H. apply setattr_Ok in H as (s & o & -> & Hs & ->).
  split; simpl; [reflexivity| |].
  - intros a o' Ha'. destruct (decide (a = s)) as [->|Hne].
    + rewrite list_lookup_insert_eq by (eapply lookup_lt_Some; eauto).
      eexists; split; eauto. simpl. congruence.
    + rewrite list_lookup_insert_ne by auto. eauto.
  - intros a o' Ha' _. destruct (decide (a = s)) as [->|Hne].
    + rewrite list_lookup_insert_eq by (eapply lookup_lt_Some; eauto).
      eexists; split; eauto. rewrite Hs in Ha'. inversion Ha'; subst o'.
      split; simpl; auto. intros name Hn. now rewrite attr_get_set_ne.
    + rewrite list_lookup_insert_ne by auto. eauto using same_but_io_refl.
Qed.

(** A new object is outside every set of addresses fixed before. *)
Lemma evolves_alloc_bind {B} S o (k : value -> M B) :
  (forall s, preserves (evolves (s :: S)) (k (VObj s))) ->
  preserves (evolves S) (bind (alloc o) k).
Proof.
  intros Hk h b h' H. apply bind_Ok in H as (v & h1 & H1 & H2).
  unfold alloc in H1. inversion H1; subst v h1. clear H1.
  apply Hk in H2. destruct H2 as [R1 C1 F1]. simpl in *. split; auto.
  - intros a o' Ha. apply C1. now apply lookup_app_l_Some.
  - intros a o' Ha Hn. apply F1; [now apply lookup_app_l_Some|].
    intros [<-|Hin]; [|auto]. apply lookup_lt_Some in Ha. lia.
Qed.

Lemma evolves_modify S f :
  (forall h, heap (f h) = heap h) ->
  (forall h, references h `prefix_of` references (f h)) ->
  preserves (evolves S) (modify f).
Proof.
  intros Hh Hr h u h' H. inversion H; subst. apply evolves_handler; auto.
Qed.

Lemma evolves_alloc S o : preserves (evolves S) (alloc o).
Proof.
  intros h a h' H. unfold alloc in H. inversion H; subst. clear H.
  split; simpl; [reflexivity| |]; intros a o' Ha; rewrite lookup_app_l_Some with (x := o');
    eauto using same_but_io_refl.
Qed.

Create HintDb pres discriminated.
#[export] Hint Extern 1 (In _ _) => simpl; tauto : pres.

Ltac pres :=
  lazymatch goal with
  | |- preserves _ (bind (alloc _) _) =>
      apply evolves_alloc_bind; intros ?; pres
  | |- preserves _ (bind _ _) =>
      apply (preserves_bind _ (evolves_trans _)); [ pres | intros ?; pres ]
  | |- preserves _ (alloc _) => apply evolves_alloc
  | |- preserves _ (ret _) => apply preserves_ret, evolves_refl
  | |- preserves _ (raise _) => apply preserves_raise
  | |- preserves _ get => apply preserves_get, evolves_refl
  | |- preserves _ (lift_opt _ _) => apply preserves_lift_opt, evolves_refl
  | |- preserves _ (repeatM _ _) =>
      apply (preserves_repeatM _ (evolves_refl _) (evolves_trans _)); pres
  | |- preserves _ (mapM _ _) =>
      apply (preserves_mapM _ (evolves_refl _) (evolves_trans _)); intros ?; pres
  | |- preserves _ (setattr _ "io" _) => apply evolves_setattr_io
  | |- preserves _ (setattr (VObj _) _ _) =>
      apply evolves_setattr; simpl; tauto
  | |- preserves _ (modify _) =>
      apply evolves_modify; intros ?; simpl;
      first [ reflexivity | apply prefix_app_r; reflexivity ]
  | |- preserves _ (if ?b then _ else _) => destruct b; pres
  | |- preserves _ (match ?x with _ => _ end) => destruct x; pres
  | |- _ => eauto with pres
  end.

Section Invariants.
Variable complex_formats : bool.
Variable rec : M value.
Variable depth : nat.
Hypothesis rec_evolves : forall S, preserves (evolves S) rec.

Local Hint Resolve rec_evolves : pres.

Lemma io_read_evolves S n : preserves (evolves S) (io_read n).
Proof.
  intros h a h' H. unfold io_read in H.
  destruct (BytesIO_read n (io h)) as [out b]. inversion H; subst.
  apply evolves_handler; reflexivity.
Qed.

Lemma io_seek_cur_evolves S n : preserves (evolves S) (io_seek_cur n).
Proof.
  intros h a h' H. unfold io_seek_cur in H.
  destruct (BytesIO_seek_cur n (io h)) as [[p b]|]; [|discriminate].
  inversion H; subst. apply evolves_handler; reflexivity.
Qed.
Local Hint Resolve io_read_evolves io_seek_cur_evolves : pres.

Lemma getattr_evolves S v name : preserves (evolves S) (getattr v name).
Proof.
  intros h a h' H. unfold getattr in H.
  destruct v; try discriminate. destruct (heap h !! a0); try discriminate.
  destruct (attr_get name (attrs o)); inversion H; subst. apply evolves_refl.
Qed.

Lemma class_of_evolves S v : preserves (evolves S) (class_of v).
Proof.
  intros h a h' H. unfold class_of in H.
  destruct v as [| | | | | | | |a0]; try (inversion H; subst; apply evolves_refl).
  destruct (heap h !! a0); inversion H; subst; apply evolves_refl.
Qed.
Local Hint Resolve getattr_evolves class_of_evolves : pres.

Lemma as_int_evolves S v : preserves (evolves S) (as_int v).
Proof. unfold as_int. pres. Qed.
Lemma as_str_evolves S v : preserves (evolves S) (as_str v).
Proof. unfold as_str. pres. Qed.
Lemma as_list_evolves S v : preserves (evolves S) (as_list v).
Proof. unfold as_list. pres. Qed.
Lemma unpack1_evolves S t : preserves (evolves S) (unpack1 t).
Proof. unfold unpack1. pres. Qed.
Local Hint Resolve as_int_evolves as_str_evolves as_list_evolves unpack1_evolves : pres.

Lemma set_block_data_mode_evolves S b :
  preserves (evolves S) (set_block_data_mode b).
Proof. unfold set_block_data_mode. pres. Qed.

Lemma skip_loop_evolves S k n : preserves (evolves S) (skip_loop k n).
Proof. revert n. induction k as [|k IH]; intros n; simpl; pres. Qed.
Local Hint Resolve set_block_data_mode_evolves skip_loop_evolves : pres.

Lemma refill_evolves S : preserves (evolves S) (refill rec).
Proof. unfold refill, get_unread, skip. pres. Qed.
Local Hint Resolve refill_evolves : pres.

Lemma read_struct_evolves S fmt :
  preserves (evolves S) (read_struct complex_formats rec fmt).
Proof. unfold read_struct. pres. Qed.
Local Hint Resolve read_struct_evolves : pres.

Lemma read_boolean_evolves S : preserves (evolves S) (read_boolean complex_formats rec).
Proof. unfold read_boolean. pres. Qed.
Lemma read_byte_evolves S : preserves (evolves S) (read_byte complex_formats rec).
Proof. unfold read_byte. pres. Qed.
Lemma read_char_evolves S : preserves (evolves S) (read_char complex_formats rec).
Proof. unfold read_char. pres. Qed.
Lemma read_double_evolves S : preserves (evolves S) (read_double complex_formats rec).
Proof. unfold read_double. pres. Qed.
Lemma read_float_evolves S : preserves (evolves S) (read_float complex_formats rec).
Proof. unfold read_float. pres. Qed.
Local Hint Resolve read_boolean_evolves read_byte_evolves read_char_evolves
  read_double_evolves read_float_evolves : pres.

Lemma read_short_evolves S : preserves (evolves S) (read_short complex_formats rec).
Proof. unfold read_short. pres. Qed.
Local Hint Resolve read_short_evolves : pres.
Lemma read_int_evolves S : preserves (evolves S) (read_int complex_formats rec).
Proof. unfold read_int. pres. Qed.
Local Hint Resolve read_int_evolves : pres.
Lemma read_long_evolves S : preserves (evolves S) (read_long complex_formats rec).
Proof. unfold read_long. pres. Qed.
Local Hint Resolve read_long_evolves : pres.

Lemma read_primitive_evolves S t :
  preserves (evolves S) (read_primitive complex_formats rec t).
Proof. unfold read_primitive. pres. Qed.

Lemma add_reference_evolves S v : preserves (evolves S) (add_reference v).
Proof. unfold add_reference. pres. Qed.

Lemma get_reference_evolves S n : preserves (evolves S) (get_reference n).
Proof. unfold get_reference. pres. Qed.

Lemma unwrap_reference_evolves S v : preserves (evolves S) (unwrap_reference v).
Proof. unfold unwrap_reference. pres. Qed.
Local Hint Resolve read_primitive_evolves add_reference_evolves
  get_reference_evolves unwrap_reference_evolves : pres.

(** A decoder changes the attributes of [self] only. *)
Lemma String_decode_evolves S s :
  In s S -> preserves (evolves S) (String_decode complex_formats rec (VObj s)).
Proof. intros. unfold String_decode. pres. Qed.

Lemma LongString_decode_evolves S s :
  In s S -> preserves (evolves S) (LongString_decode complex_formats rec (VObj s)).
Proof. intros. unfold LongString_decode. pres. Qed.

Lemma BlockData_decode_evolves S s :
  In s S -> preserves (evolves S) (BlockData_decode complex_formats rec (VObj s)).
Proof. intros. unfold BlockData_decode, BlockData_read_size. pres. Qed.

Lemma Reference_decode_evolves S s :
  In s S -> preserves (evolves S) (Reference_decode complex_formats rec (VObj s)).
Proof. intros. unfold Reference_decode. pres. Qed.

Lemma ClassDesc_decode_evolves S s :
  In s S -> preserves (evolves S) (ClassDesc_decode rec (VObj s)).
Proof. intros. unfold ClassDesc_decode. pres. Qed.
Local Hint Resolve String_decode_evolves LongString_decode_evolves
  BlockData_decode_evolves Reference_decode_evolves ClassDesc_decode_evolves : pres.

Lemma Enum_decode_evolves S s :
  In s S -> preserves (evolves S) (Enum_decode rec (VObj s)).
Proof. intros. unfold Enum_decode, new_ClassDesc. pres. Qed.

Lemma Field_decode_evolves S s :
  In s S -> preserves (evolves S) (Field_decode complex_formats rec (VObj s)).
Proof.
  intros. unfold Field_decode, Field_is_valid, Field_is_object, new_String. pres.
Qed.

Lemma Header_decode_evolves S s :
  In s S -> preserves (evolves S) (Header_decode complex_formats rec (VObj s)).
Proof. intros. unfold Header_decode, Header__decode_magic. pres. Qed.

Lemma JavaException_decode_evolves S s :
  In s S -> preserves (evolves S) (JavaException_decode rec (VObj s)).
Proof. intros. unfold JavaException_decode. pres. Qed.
Local Hint Resolve Enum_decode_evolves Field_decode_evolves
  Header_decode_evolves JavaException_decode_evolves : pres.

Lemma NewArray_array_type_evolves S v :
  preserves (evolves S) (NewArray_array_type v).
Proof. unfold NewArray_array_type. pres. Qed.
Local Hint Resolve NewArray_array_type_evolves : pres.

Lemma NewArray_decode_evolves S s :
  In s S -> preserves (evolves S) (NewArray_decode complex_formats rec (VObj s)).
Proof. intros. unfold NewArray_decode. pres. Qed.

Lemma NewClass_decode_evolves S s :
  In s S -> preserves (evolves S) (NewClass_decode rec (VObj s)).
Proof. intros. unfold NewClass_decode, new_ClassDesc. pres. Qed.

Lemma NewClassDesc_decode_evolves S s :
  In s S -> preserves (evolves S) (NewClassDesc_decode complex_formats rec (VObj s)).
Proof.
  intros. unfold NewClassDesc_decode, new_ClassDesc, new_String, new_Field. pres.
Qed.

Lemma NewObject_get_class_content_evolves S v :
  preserves (evolves S) (NewObject_get_class_content v).
Proof. unfold NewObject_get_class_content. pres. Qed.

Lemma NewObject_field_value_evolves S v :
  preserves (evolves S) (NewObject_field_value complex_formats rec v).
Proof.
  unfold NewObject_field_value, Field_is_primitive, Field_get_primitive_type. pres.
Qed.
Local Hint Resolve NewObject_get_class_content_evolves
  NewObject_field_value_evolves : pres.

Lemma NewObject_decode_class_data_evolves S calls v :
  preserves (evolves S) (NewObject_decode_class_data complex_formats rec calls v).
Proof.
  revert v. induction calls as [|calls IH]; intros v; simpl.
  - intros h a h' H. discriminate.
  - pres.
Qed.
Local Hint Resolve NewObject_decode_class_data_evolves : pres.

Lemma NewObject_decode_evolves S s :
  In s S ->
  preserves (evolves S) (NewObject_decode complex_formats rec depth (VObj s)).
Proof. intros. unfold NewObject_decode, new_ClassDesc. pres. Qed.

Lemma ProxyClassDesc_decode_evolves S s :
  In s S ->
  preserves (evolves S) (ProxyClassDesc_decode complex_formats rec (VObj s)).
Proof.
  intros. unfold ProxyClassDesc_decode, new_ClassDesc, new_String. pres.
Qed.
Local Hint Resolve NewArray_decode_evolves NewClass_decode_evolves
  NewClassDesc_decode_evolves NewObject_decode_evolves : pres.

Lemma decode_object_body_evolves S :
  preserves (evolves S) (decode_object_body complex_formats rec depth).
Proof.
  unfold decode_object_body, new_NewArray, new_BlockData, new_BlockDataLong,
    new_NewClass, new_NewClassDesc, new_EndBlockData, new_Enum,
    new_JavaException, new_LongString, new_Null, new_NewObject,
    new_Reference, new_String.
  pres.
Qed.

(** What tag dispatch returns is the object it has just created, of the
    class of the tag, or [None]. *)
Lemma decode_object_body_class h v h' :
  decode_object_body complex_formats rec depth h = Ok v h' ->
  exists tc h1,
    read_byte complex_formats rec h = Ok tc h1 /\
    match tag_class tc with
    | Some c =>
        exists o, v = VObj (length (heap h1)) /\
                  heap h' !! length (heap h1) = Some o /\ cls o = c
    | None => v = VNone /\ h' = h1
    end.
Proof.
  unfold decode_object_body, tag_class. intros H.
  apply bind_Ok in H as (tc & h1 & Hr & H). exists tc, h1. split; [assumption|].
  destruct (tc =? 0); [discriminate|].
  repeat match type of H with
    | (if ?b then _ else _) _ = _ => destruct b
    end;
    try discriminate;
    try (inversion H; subst; split; reflexivity);
    unfold new_NewArray, new_BlockData, new_BlockDataLong, new_NewClass,
      new_NewClassDesc, new_EndBlockData, new_Enum, new_JavaException,
      new_LongString, new_Null, new_NewObject, new_Reference, new_String in H;
    try (unfold alloc in H; inversion H; subst; clear H; simpl;
         eexists; split; [reflexivity|]; split; [apply list_lookup_middle; reflexivity|reflexivity]);
    (apply bind_Ok in H as (x & h2 & Hal & H);
     unfold alloc in Hal; inversion Hal; subst x h2; clear Hal;
     match type of H with
     | ?k ?h2 = Ok _ _ =>
         assert (Hp : preserves (evolves [length (heap h1)]) k) by pres;
         pose proof (Hp _ _ _ H) as Ev; clear Hp
     end;
     repeat (apply bind_Ok in H as (? & ? & _ & H));
     apply ret_Ok in H as [-> _];
     match type of Ev with
     | evolves _ (with_heap (_ ++ [?ob]) _) _ =>
         destruct (ev_cls _ _ _ Ev (length (heap h1)) ob) as (o' & Ho' & Ecls);
         [simpl; apply list_lookup_middle; reflexivity|]
     end;
     exists o'; split; [reflexivity|]; split; [assumption|exact Ecls]).
Qed.

Lemma Handler_init_evolves S :
  preserves (evolves S) (Handler_init complex_formats rec).
Proof. unfold Handler_init, new_Header. pres. Qed.
End Invariants.

(** Tag dispatch, at every depth: handles are only added, and the
    objects that exist keep their class and their attributes. *)
Lemma decode_object_evolves cf fuel S :
  preserves (evolves S) (decode_object cf fuel).
Proof.
  revert S. induction fuel as [|fuel IH]; intros S; simpl.
  - intros h a h' H. discriminate.
  - apply decode_object_body_evolves. assumption.
Qed.

(** ** Reading in stream mode *)

Lemma avail_advance n h : avail (advance n h) = drop n (avail h).
Proof.
  unfold avail, advance. simpl. rewrite drop_drop. reflexivity.
Qed.

Lemma advance_advance n m h : advance m (advance n h) = advance (n + m) h.
Proof.
  unfold advance, with_pos, with_io. simpl. f_equal; [f_equal|]; lia.
Qed.

Lemma block_mode_advance n h : block_mode (advance n h) = block_mode h.
Proof. reflexivity. Qed.

Section StreamMode.
Variable complex_formats : bool.
Variable rec : M value.

(** Outside block mode [read_struct] takes the next bytes of the stream,
    moves [pos] along, and never calls [refill]. *)
Lemma read_struct_stream fmt ln h :
  block_mode h = false ->
  Struct.calcsize complex_formats fmt = Some ln ->
  (ln <= length (avail h))%nat ->
  read_struct complex_formats rec fmt h =
  lift_opt struct_error
    (Struct.unpack complex_formats fmt (take ln (avail h))) (advance ln h).
Proof.
  intros Hm Hc Hl. unfold read_struct, bind, get, ret, modify, io_read, BytesIO_read.
  rewrite Hc. simpl. rewrite Hm. simpl. rewrite Hm. fold (avail h).
  rewrite length_take, Nat.min_l by assumption.
  rewrite Nat.eqb_refl. simpl. reflexivity.
Qed.

Lemma read_struct_stream_eof fmt ln h :
  block_mode h = false ->
  Struct.calcsize complex_formats fmt = Some ln ->
  (length (avail h) < ln)%nat ->
  read_struct complex_formats rec fmt h =
  Raise (EOFError "Unexpected end of stream")
    (with_io (mkBytesIO (buf (io h)) (cur (io h) + length (avail h))) h).
Proof.
  intros Hm Hc Hl. unfold read_struct, bind, get, ret, modify, io_read, BytesIO_read.
  rewrite Hc. simpl. rewrite Hm. simpl. rewrite Hm. fold (avail h).
  rewrite length_take, Nat.min_r by lia.
  destruct (Nat.eqb_spec (length (avail h)) ln); [lia|]. simpl.
  reflexivity.
Qed.

Lemma read_byte_stream h b rest :
  block_mode h = false ->
  avail h = b :: rest ->
  read_byte complex_formats rec h = Ok (byte_val b) (advance 1 h).
Proof.
  intros Hm Ha. unfold read_byte, bind.
  rewrite (read_struct_stream ">B" 1) by (auto; rewrite Ha; simpl; lia).
  rewrite Ha. simpl. unfold be_uint. simpl. reflexivity.
Qed.

Lemma read_short_stream h b1 b2 rest :
  block_mode h = false ->
  avail h = b1 :: b2 :: rest ->
  read_short complex_formats rec h = Ok (be_uint [b1; b2]) (advance 2 h).
Proof.
  intros Hm Ha. unfold read_short, bind.
  rewrite (read_byte_stream h b1 (b2 :: rest)) by auto.
  rewrite (read_byte_stream (advance 1 h) b2 rest)
    by (auto; rewrite avail_advance, Ha; reflexivity).
  rewrite advance_advance. unfold ret, be_uint. simpl.
  rewrite Z.shiftl_mul_pow2 by lia. f_equal.
Qed.

Lemma read_int_stream h b1 b2 b3 b4 rest :
  block_mode h = false ->
  avail h = b1 :: b2 :: b3 :: b4 :: rest ->
  read_int complex_formats rec h = Ok (be_uint [b1; b2; b3; b4]) (advance 4 h).
Proof.
  intros Hm Ha. unfold read_int, bind.
  rewrite (read_short_stream h b1 b2 (b3 :: b4 :: rest)) by auto.
  rewrite (read_short_stream (advance 2 h) b3 b4 rest)
    by (auto; rewrite avail_advance, Ha; reflexivity).
  rewrite advance_advance. unfold ret, be_uint. simpl.
  rewrite Z.shiftl_mul_pow2 by lia. f_equal. lia.
Qed.

(** Conversely, a read that returns in stream mode has moved the stream
    by the width of the format and changed nothing else. *)
Lemma read_struct_stream_Ok fmt h t h' :
  block_mode h = false ->
  read_struct complex_formats rec fmt h = Ok t h' ->
  exists ln,
    Struct.calcsize complex_formats fmt = Some ln /\
    (ln <= length (avail h))%nat /\ h' = advance ln h /\
    Struct.unpack complex_formats fmt (take ln (avail h)) = Some t.
Proof.
  intros Hm H. destruct (Struct.calcsize complex_formats fmt) as [ln|] eqn:Hc.
  - destruct (le_lt_dec ln (length (avail h))) as [Hle|Hlt].
    + rewrite (read_struct_stream fmt ln h Hm Hc Hle) in H.
      destruct (Struct.unpack complex_formats fmt (take ln (avail h))) eqn:Eu;
        inversion H; subst. exists ln. repeat split; auto.
    + rewrite (read_struct_stream_eof fmt ln h Hm Hc Hlt) in H. discriminate.
  - unfold read_struct, bind in H. rewrite Hc in H. discriminate.
Qed.

Lemma read_byte_stream_Ok h z h' :
  block_mode h = false ->
  read_byte complex_formats rec h = Ok z h' ->
  h' = advance 1 h /\ exists b rest, avail h = b :: rest /\ z = byte_val b.
Proof.
  intros Hm H. destruct (avail h) as [|b rest] eqn:Ha.
  - unfold read_byte in H. apply bind_Ok in H as (t & h1 & H1 & _).
    apply read_struct_stream_Ok in H1 as (ln & Hc & Hle & _); [|assumption].
    rewrite Ha in Hle. inversion Hc; subst ln. simpl in Hle. lia.
  - rewrite (read_byte_stream h b rest Hm Ha) in H. inversion H; subst. eauto.
Qed.

Lemma read_short_stream_Ok h z h' :
  block_mode h = false ->
  read_short complex_formats rec h = Ok z h' -> h' = advance 2 h.
Proof.
  intros Hm H. unfold read_short in H.
  apply bind_Ok in H as (v1 & h1 & H1 & H).
  apply bind_Ok in H as (v2 & h2 & H2 & H). apply ret_Ok in H as [_ ->].
  apply read_byte_stream_Ok in H1 as [-> _]; [|assumption].
  apply read_byte_stream_Ok in H2 as [-> _]; [|assumption].
  apply advance_advance.
Qed.

Lemma read_int_stream_Ok h z h' :
  block_mode h = false ->
  read_int complex_formats rec h = Ok z h' -> h' = advance 4 h.
Proof.
  intros Hm H. unfold read_int in H.
  apply bind_Ok in H as (v1 & h1 & H1 & H).
  apply bind_Ok in H as (v2 & h2 & H2 & H). apply ret_Ok in H as [_ ->].
  apply read_short_stream_Ok in H1 as ->; [|assumption].
  apply read_short_stream_Ok in H2 as ->; [|assumption].
  apply advance_advance.
Qed.
End StreamMode.

(** ** More fuel changes no result *)

Lemma mrefines_refl {A} (m : M A) : mrefines m m.
Proof. intros h. now right. Qed.

Lemma mrefines_bind {A B} (m m' : M A) (k k' : A -> M B) :
  mrefines m m' -> (forall a, mrefines (k a) (k' a)) ->
  mrefines (bind m k) (bind m' k').
Proof.
  intros Hm Hk h. unfold bind. destruct (Hm h) as [E|E]; rewrite E; [now left|].
  destruct (m' h) as [a h1|e h1|]; [apply Hk|now right|now right].
Qed.

Lemma mrefines_repeatM {A} n (m m' : M A) :
  mrefines m m' -> mrefines (repeatM n m) (repeatM n m').
Proof.
  intros Hm. induction n as [|n IH]; simpl; [apply mrefines_refl|].
  apply mrefines_bind; [assumption|]. intros x.
  apply mrefines_bind; [assumption|]. intros xs. apply mrefines_refl.
Qed.

Lemma mrefines_mapM {A B} (f f' : A -> M B) l :
  (forall a, mrefines (f a) (f' a)) -> mrefines (mapM f l) (mapM f' l).
Proof.
  intros Hf. induction l as [|a l IH]; simpl; [apply mrefines_refl|].
  apply mrefines_bind; [apply Hf|]. intros x.
  apply mrefines_bind; [assumption|]. intros xs. apply mrefines_refl.
Qed.

Create HintDb mono discriminated.

Ltac mono :=
  lazymatch goal with
  | |- mrefines ?m ?m => apply mrefines_refl
  | |- mrefines (bind _ _) (bind _ _) =>
      apply mrefines_bind; [ mono | intros ?; mono ]
  | |- mrefines (if ?b then _ else _) (if ?b then _ else _) => destruct b; mono
  | |- mrefines (match ?x with _ => _ end) (match ?x with _ => _ end) =>
      destruct x; mono
  | |- mrefines (repeatM _ _) (repeatM _ _) => apply mrefines_repeatM; mono
  | |- mrefines (mapM _ _) (mapM _ _) => apply mrefines_mapM; intros ?; mono
  | |- _ => eauto with mono
  end.

Section Monotone.
Variable cf : bool.
Variables rec rec' : M value.
Variables depth depth' : nat.
Hypothesis rec_refines : mrefines rec rec'.
Hypothesis depth_le : (depth <= depth')%nat.

Local Hint Resolve rec_refines : mono.

Lemma refill_mono : mrefines (refill rec) (refill rec').
Proof. unfold refill. mono. Qed.
Local Hint Resolve refill_mono : mono.

Lemma read_struct_mono fmt : mrefines (read_struct cf rec fmt) (read_struct cf rec' fmt).
Proof. unfold read_struct. mono. Qed.
Local Hint Resolve read_struct_mono : mono.

Lemma read_boolean_mono : mrefines (read_boolean cf rec) (read_boolean cf rec').
Proof. unfold read_boolean. mono. Qed.
Lemma read_byte_mono : mrefines (read_byte cf rec) (read_byte cf rec').
Proof. unfold read_byte. mono. Qed.
Lemma read_char_mono : mrefines (read_char cf rec) (read_char cf rec').
Proof. unfold read_char. mono. Qed.
Lemma read_double_mono : mrefines (read_double cf rec) (read_double cf rec').
Proof. unfold read_double. mono. Qed.
Lemma read_float_mono : mrefines (read_float cf rec) (read_float cf rec').
Proof. unfold read_float. mono. Qed.
Local Hint Resolve read_boolean_mono read_byte_mono read_char_mono
  read_double_mono read_float_mono : mono.

Lemma read_short_mono : mrefines (read_short cf rec) (read_short cf rec').
Proof. unfold read_short. mono. Qed.
Local Hint Resolve read_short_mono : mono.
Lemma read_int_mono : mrefines (read_int cf rec) (read_int cf rec').
Proof. unfold read_int. mono. Qed.
Local Hint Resolve read_int_mono : mono.
Lemma read_long_mono : mrefines (read_long cf rec) (read_long cf rec').
Proof. unfold read_long. mono. Qed.
Local Hint Resolve read_long_mono : mono.

Lemma read_primitive_mono t :
  mrefines (read_primitive cf rec t) (read_primitive cf rec' t).
Proof. unfold read_primitive. mono. Qed.
Local Hint Resolve read_primitive_mono : mono.

Lemma String_decode_mono s :
  mrefines (String_decode cf rec s) (String_decode cf rec' s).
Proof. unfold String_decode. mono. Qed.
Lemma LongString_decode_mono s :
  mrefines (LongString_decode cf rec s) (LongString_decode cf rec' s).
Proof. unfold LongString_decode. mono. Qed.
Lemma BlockData_decode_mono s :
  mrefines (BlockData_decode cf rec s) (BlockData_decode cf rec' s).
Proof. unfold BlockData_decode, BlockData_read_size. mono. Qed.
Lemma Reference_decode_mono s :
  mrefines (Reference_decode cf rec s) (Reference_decode cf rec' s).
Proof. unfold Reference_decode. mono. Qed.
Lemma ClassDesc_decode_mono s :
  mrefines (ClassDesc_decode rec s) (ClassDesc_decode rec' s).
Proof. unfold ClassDesc_decode. mono. Qed.
Local Hint Resolve String_decode_mono LongString_decode_mono BlockData_decode_mono
  Reference_decode_mono ClassDesc_decode_mono : mono.

Lemma Enum_decode_mono s : mrefines (Enum_decode rec s) (Enum_decode rec' s).
Proof. unfold Enum_decode. mono. Qed.
Lemma Field_decode_mono s :
  mrefines (Field_decode cf rec s) (Field_decode cf rec' s).
Proof. unfold Field_decode. mono. Qed.
Lemma JavaException_decode_mono s :
  mrefines (JavaException_decode rec s) (JavaException_decode rec' s).
Proof. unfold JavaException_decode. mono. Qed.
Local Hint Resolve Enum_decode_mono Field_decode_mono JavaException_decode_mono : mono.

Lemma NewArray_decode_mono s :
  mrefines (NewArray_decode cf rec s) (NewArray_decode cf rec' s).
Proof. unfold NewArray_decode. mono. Qed.
Lemma NewClass_decode_mono s :
  mrefines (NewClass_decode rec s) (NewClass_decode rec' s).
Proof. unfold NewClass_decode. mono. Qed.
Lemma NewClassDesc_decode_mono s :
  mrefines (NewClassDesc_decode cf rec s) (NewClassDesc_decode cf rec' s).
Proof. unfold NewClassDesc_decode. mono. Qed.
Lemma NewObject_field_value_mono v :
  mrefines (NewObject_field_value cf rec v) (NewObject_field_value cf rec' v).
Proof. unfold NewObject_field_value. mono. Qed.
Local Hint Resolve NewArray_decode_mono NewClass_decode_mono
  NewClassDesc_decode_mono NewObject_field_value_mono : mono.

Lemma NewObject_decode_class_data_mono calls :
  forall calls' v, (calls <= calls')%nat ->
    mrefines (NewObject_decode_class_data cf rec calls v)
      (NewObject_decode_class_data cf rec' calls' v).
Proof.
  induction calls as [|calls IH]; intros calls' v Hle; [intros h; now left|].
  destruct calls' as [|calls']; [lia|]. simpl.
  assert (Hc : forall w, mrefines (NewObject_decode_class_data cf rec calls w)
                           (NewObject_decode_class_data cf rec' calls' w))
    by (intros w; apply IH; lia).
  mono.
Qed.

Lemma NewObject_decode_mono s :
  mrefines (NewObject_decode cf rec depth s) (NewObject_decode cf rec' depth' s).
Proof.
  unfold NewObject_decode.
  assert (Hc : forall w, mrefines (NewObject_decode_class_data cf rec (S depth) w)
                           (NewObject_decode_class_data cf rec' (S depth') w))
    by (intros w; apply NewObject_decode_class_data_mono; lia).
  mono.
Qed.
Local Hint Resolve NewObject_decode_mono : mono.

Lemma decode_object_body_mono :
  mrefines (decode_object_body cf rec depth) (decode_object_body cf rec' depth').
Proof. unfold decode_object_body. mono. Qed.
End Monotone.

(** The bound on the recursion is no part of the result: what
    [decode_object] returns or raises with some fuel, it returns or raises
    with any more. *)
Theorem decode_object_fuel cf fuel :
  forall fuel', (fuel <= fuel')%nat ->
    mrefines (decode_object cf fuel) (decode_object cf fuel').
Proof.
  induction fuel as [|fuel IH]; intros fuel' Hle; [intros h; now left|].
  destruct fuel' as [|fuel']; [lia|]. simpl.
  apply decode_object_body_mono; [apply IH|]; lia.
Qed.

Corollary decode_object_more_fuel cf fuel fuel' h v h' :
  (fuel <= fuel')%nat ->
  decode_object cf fuel h = Ok v h' -> decode_object cf fuel' h = Ok v h'.
Proof.
  intros Hle H. destruct (decode_object_fuel cf fuel fuel' Hle h) as [E|E];
    congruence.
Qed.

(** Closed goals about concrete streams are settled by evaluation. *)
Ltac evaluate :=
  repeat match goal with
         | |- _ /\ _ => split
         | |- exists _, _ => eexists
         end;
  vm_compute; reflexivity.

(** ** The stream header *)

(** Whatever its first four bytes are, a stream opens: the header object
    takes the two shorts and nothing compares them with [STREAM_MAGIC]
    and [STREAM_VERSION]. *)
Lemma open_stream_any_header cf b1 b2 b3 b4 rest :
  open_stream cf (b1 :: b2 :: b3 :: b4 :: rest) =
  Ok tt (mkHandler (mkBytesIO (b1 :: b2 :: b3 :: b4 :: rest) 4) 4 0 false VNone []
           (VObj 0)
           [mkObj Cls.Header [("magic", VInt (be_uint [b1; b2]));
                              ("version", VInt (be_uint [b3; b4]))]]).
Proof.
  unfold open_stream, Handler_init, Header_decode, Header__decode_magic, new_Header.
  unfold bind at 1. simpl. unfold bind at 1. simpl. unfold bind at 1.
  rewrite (read_struct_stream cf _ ">HH" 4) by (simpl; auto; lia).
  reflexivity.
Qed.

(** C3 (the code departs from the claim): the stream [00 00 00 00 70]
    has neither the magic [0xACED] nor the version 5, yet it opens without
    an error, the header object holds magic 0 and version 0, and the next
    record, a Null, is decoded. *)
Theorem header_mismatch_not_raised :
  exists h,
    open_stream false stream_zero_header = Ok tt h /\
    heap h !! 0%nat
      = Some (mkObj Cls.Header [("magic", VInt 0); ("version", VInt 0)]) /\
    exists r h',
      decode_object false 1 h = Ok (VObj r) h' /\
      heap h' !! r = Some (mkObj Cls.Null []).
Proof.
  eexists. split; [vm_compute; reflexivity|].
  split; [reflexivity|].
  do 2 eexists. split; [vm_compute; reflexivity|]. vm_compute; reflexivity.
Qed.

(** ** [read_char] *)

(** With two bytes at hand [read_char] takes both and then fails: the
    format [">ss"] unpacks to a pair, which [(value,) = ...] refuses. *)
Lemma read_char_stream cf rec h b1 b2 rest :
  block_mode h = false ->
  avail h = b1 :: b2 :: rest ->
  read_char cf rec h = Raise ValueError (advance 2 h).
Proof.
  intros Hm Ha. unfold read_char, bind.
  rewrite (read_struct_stream cf rec ">ss" 2) by (auto; rewrite Ha; simpl; lia).
  rewrite Ha. reflexivity.
Qed.

(** C8 (the code departs from the claim): after the header the stream
    holds the two bytes [00 41]; [read_char] consumes them and raises
    [ValueError] instead of returning the code unit [0x0041]. *)
Theorem read_char_raises_on_two_bytes :
  avail (opened false stream_char) = [x00; x41] /\
  block_mode (opened false stream_char) = false /\
  read_char false (decode_object false 1) (opened false stream_char)
  = Raise ValueError (advance 2 (opened false stream_char)) /\
  read_char true (decode_object true 1) (opened true stream_char)
  = Raise ValueError (advance 2 (opened true stream_char)).
Proof. evaluate. Qed.

(** ** Tags outside the table *)

(** A tag that is not zero and none of the fourteen tags compared
    against falls through to the end of [decode_object], which returns
    [None]. *)
Lemma decode_object_unknown_tag cf fuel h tc h1 :
  read_byte cf (decode_object cf fuel) h = Ok tc h1 ->
  tc <> 0 -> (tc < 0x70 \/ 0x7E < tc) ->
  decode_object cf (S fuel) h = Ok VNone h1.
Proof.
  intros Hr H0 Hout. simpl. unfold decode_object_body, bind. rewrite Hr.
  unfold Constants.TC_ARRAY, Constants.TC_BLOCKDATA, Constants.TC_BLOCKDATALONG,
    Constants.TC_CLASS, Constants.TC_CLASSDESC, Constants.TC_ENDBLOCKDATA,
    Constants.TC_ENUM, Constants.TC_EXCEPTION, Constants.TC_LONGSTRING,
    Constants.TC_NULL, Constants.TC_OBJECT, Constants.TC_PROXYCLASSDESC,
    Constants.TC_REFERENCE, Constants.TC_STRING.
  repeat match goal with
         | |- context [?a =? ?b] => destruct (Z.eqb_spec a b); [lia|]
         end.
  reflexivity.
Qed.

(** The tag [TC_RESET] is in the table of constants but is not compared
    against either. *)
Lemma decode_object_reset cf fuel h h1 :
  read_byte cf (decode_object cf fuel) h = Ok Constants.TC_RESET h1 ->
  decode_object cf (S fuel) h = Ok VNone h1.
Proof.
  intros Hr. simpl. unfold decode_object_body, bind. rewrite Hr. reflexivity.
Qed.

(** C7 (the code departs from the claim): on the tag [0x7F], which is
    not zero and not one of [0x70..0x7E], [decode_object] raises nothing
    and returns [None], having consumed the tag. *)
Theorem unknown_tag_returns_none :
  avail (opened false stream_unknown_tag) = [x7f] /\
  decode_object false 1 (opened false stream_unknown_tag)
  = Ok VNone (advance 1 (opened false stream_unknown_tag)).
Proof. evaluate. Qed.

(** ** The handle table *)

(** An index from [-len] to [-1] counts from the end of the table. *)
Lemma get_reference_negative h i :
  - Z.of_nat (length (references h)) <= i < 0 ->
  get_reference i h =
  lift_opt IndexError
    (references h !! Z.to_nat (Z.of_nat (length (references h)) + i)) h.
Proof.
  intros Hi. unfold get_reference, bind, get, list_index.
  destruct (Z.leb_spec 0 i); [lia|]. simpl.
  destruct (Z.leb_spec (- Z.of_nat (length (references h))) i); [|lia].
  destruct (Z.ltb_spec i 0); [|lia]. reflexivity.
Qed.

(** An index outside [-len .. len-1] raises [IndexError]. *)
Lemma get_reference_out_of_range h i :
  i < - Z.of_nat (length (references h)) \/ Z.of_nat (length (references h)) <= i ->
  get_reference i h = Raise IndexError h.
Proof.
  intros Hi. unfold get_reference, bind, get, list_index.
  destruct (Z.leb_spec 0 i); destruct (Z.ltb_spec i (Z.of_nat (length (references h))));
    simpl; try lia;
    destruct (Z.leb_spec (- Z.of_nat (length (references h))) i);
    destruct (Z.ltb_spec i 0); simpl; try lia; reflexivity.
Qed.

(** C4 (the code departs from the claim): after String "A" has taken
    handle 0, a TC_REFERENCE with operand [0x7DFFFF], one below the base,
    raises nothing: its [ref] is -1 and it resolves to the last record of
    the table, the String. *)
Theorem reference_below_base_resolves :
  exists h1 s h2 r h3,
    open_stream false stream_reference_below_base = Ok tt h1 /\
    decode_object false 1 h1 = Ok (VObj s) h2 /\
    heap h2 !! s = Some (mkObj Cls.String [("content", VStr "A")]) /\
    references h2 = [VObj s] /\
    avail h2 = [x71; x00; x7d; xff; xff] /\
    decode_object false 1 h2 = Ok (VObj r) h3 /\
    heap h3 !! r
      = Some (mkObj Cls.Reference [("ref", VInt (-1)); ("obj", VObj s)]).
Proof.
  do 5 eexists.
  split; [vm_compute; reflexivity|].
  split; [vm_compute; reflexivity|].
  evaluate.
Qed.

(** ** Proxy class descriptions *)

(** C5 (counterexample): the bytes after the tag [0x7D] form a proxy
    class description that [ProxyClassDesc.decode], called on them
    directly, decodes in full (handle 0 first, then one interface "A", the
    end of the annotation, a null super class); tag dispatch on the same
    stream raises and returns no record, whatever the depth allowed. *)
Lemma proxy_stream_is_rejected :
  avail (opened false stream_proxy) = x7d :: proxy_body /\
  (exists h',
     (x <- new_ProxyClassDesc ;;
      ProxyClassDesc_decode false (decode_object false 2) x ;;; ret x)
       (advance 1 (opened false stream_proxy)) = Ok (VObj 1) h' /\
     references h' = [VObj 1] /\ avail h' = [] /\
     exists sc,
       heap h' !! 1%nat
       = Some (mkObj Cls.ProxyClassDesc
                 [("ifaces", VList [VStr "A"]); ("super_class", sc)])) /\
  ~ (exists fuel r h', decode_object false fuel (opened false stream_proxy) = Ok r h').
Proof.
  split; [reflexivity|]. split.
  - eexists. split; [vm_compute; reflexivity|]. evaluate.
  - intros (fuel & r & h' & H). destruct fuel as [|fuel]; [discriminate|].
    vm_compute in H. discriminate.
Qed.

(** C5 (as amended): whenever the tag read is [0x7D], tag dispatch raises
    "TC_PROXYCLASSDESC not supported" right after the tag; no handle is
    assigned and nothing more is read. *)
Theorem proxy_tag_not_supported cf fuel h h1 :
  read_byte cf (decode_object cf fuel) h = Ok Constants.TC_PROXYCLASSDESC h1 ->
  decode_object cf (S fuel) h
  = Raise (Exception "TC_PROXYCLASSDESC not supported") h1.
Proof.
  intros Hr. simpl. unfold decode_object_body, bind. rewrite Hr. reflexivity.
Qed.

Lemma proxy_tag_not_supported_witness :
  read_byte false (decode_object false 0) (opened false stream_proxy)
  = Ok Constants.TC_PROXYCLASSDESC (advance 1 (opened false stream_proxy)) /\
  decode_object false 1 (opened false stream_proxy)
  = Raise (Exception "TC_PROXYCLASSDESC not supported")
      (advance 1 (opened false stream_proxy)).
Proof.
  split; [vm_compute; reflexivity|].
  apply (proxy_tag_not_supported false 0). vm_compute; reflexivity.
Defined.

(** ** Handles *)

Lemma step_references cf h h' :
  step cf h h' -> references h `prefix_of` references h'.
Proof.
  intros [fuel h0 v h1 H|fuel fmt h0 t h1 H|v h0 u h1 H|o h0 v h1 H
         |v name x h0 u h1 H|b h0 v h1 H].
  - apply (decode_object_evolves cf fuel [] _ _ _ H).
  - apply (read_struct_evolves cf _ (decode_object_evolves cf fuel) [] fmt _ _ _ H).
  - apply (add_reference_evolves [] v _ _ _ H).
  - apply (evolves_alloc [] o _ _ _ H).
  - apply setattr_Ok in H as (a & o & _ & _ & ->). reflexivity.
  - apply (set_block_data_mode_evolves [] b _ _ _ H).
Qed.

(** The handle table is append-only. *)
Lemma later_references cf h h' :
  later cf h h' -> references h `prefix_of` references h'.
Proof.
  induction 1 as [h|h h1 h2 Hs _ IH]; [reflexivity|].
  etransitivity; [eapply step_references|]; eauto.
Qed.

Lemma list_index_nat {A} (l : list A) n x :
  l !! n = Some x -> list_index l (Z.of_nat n) = Some x.
Proof.
  intros H. unfold list_index. pose proof (lookup_lt_Some _ _ _ H).
  destruct (Z.leb_spec 0 (Z.of_nat n)); [|lia].
  destruct (Z.ltb_spec (Z.of_nat n) (Z.of_nat (length l))); [|lia].
  simpl. now rewrite Nat2Z.id.
Qed.


Lemma setattr_here a o name x h :
  heap h !! a = Some o ->
  setattr (VObj a) name x h
  = Ok tt (with_heap (<[a := mkObj (cls o) (attr_set name x (attrs o))]> (heap h)) h).
Proof. intros H. unfold setattr. now rewrite H. Qed.

Lemma get_reference_Ok h i x :
  list_index (references h) i = Some x -> get_reference i h = Ok x h.
Proof. intros H. unfold get_reference, bind, get. now rewrite H. Qed.

(** [Reference.decode] in stream mode: the operand, less the base,
    indexes the handle table. *)
Lemma Reference_decode_stream cf rec a o h b1 b2 b3 b4 rest target :
  block_mode h = false ->
  avail h = b1 :: b2 :: b3 :: b4 :: rest ->
  heap h !! a = Some o ->
  list_index (references h) (be_uint [b1; b2; b3; b4] - Constants.BASE_WIRE_HANDLE)
  = Some target ->
  Reference_decode cf rec (VObj a) h
  = Ok tt
      (with_heap
         (<[a := mkObj (cls o)
                   (attr_set "obj" target
                      (attr_set "ref"
                         (VInt (be_uint [b1; b2; b3; b4] - Constants.BASE_WIRE_HANDLE))
                         (attrs o)))]> (heap h))
         (advance 4 h)).
Proof.
  intros Hm Ha Ho Ht. unfold Reference_decode, bind.
  rewrite (read_int_stream cf rec h b1 b2 b3 b4 rest Hm Ha).
  rewrite (setattr_here a o) by exact Ho.
  rewrite (get_reference_Ok _ _ target) by exact Ht.
  erewrite setattr_here
    by (simpl; apply list_lookup_insert_eq; eapply lookup_lt_Some; exact Ho).
  simpl. rewrite list_insert_insert_eq. reflexivity.
Qed.

(** X16: a TC_REFERENCE whose operand, less the base, is at or past the
    number of handles, or below its opposite, raises IndexError. *)
Lemma reference_out_of_range_raises cf fuel h b1 b2 b3 b4 rest :
  block_mode h = false ->
  avail h = x71 :: b1 :: b2 :: b3 :: b4 :: rest ->
  (be_uint [b1; b2; b3; b4] - Constants.BASE_WIRE_HANDLE
   < - Z.of_nat (length (references h)) \/
   Z.of_nat (length (references h))
   <= be_uint [b1; b2; b3; b4] - Constants.BASE_WIRE_HANDLE) ->
  exists h', decode_object cf (S fuel) h = Raise IndexError h'.
Proof.
  intros Hm Ha Hr. cbn [decode_object]. unfold decode_object_body.
  rewrite (bind_eq _ _ _ _ _ (read_byte_stream cf _ h x71 _ Hm Ha)).
  change (byte_val x71) with 113. simpl.
  unfold new_Reference. erewrite bind_eq by reflexivity.
  set (o := mkObj Cls.Reference [("ref", VInt 0); ("obj", VNone)]).
  set (h1 := with_heap (heap (advance 1 h) ++ [o]) (advance 1 h)).
  assert (Ha1 : avail h1 = b1 :: b2 :: b3 :: b4 :: rest).
  { change (avail h1) with (avail (advance 1 h)). rewrite avail_advance, Ha. reflexivity. }
  assert (Ho : heap h1 !! length (heap h) = Some o).
  { simpl. apply list_lookup_middle. reflexivity. }
  unfold bind at 1, Reference_decode.
  change (length (heap (advance 1 h))) with (length (heap h)).
  rewrite (bind_eq _ _ _ _ _ (read_int_stream cf _ h1 b1 b2 b3 b4 rest Hm Ha1)).
  erewrite bind_eq by (apply (setattr_here _ o); exact Ho).
  unfold bind at 1. rewrite get_reference_out_of_range by exact Hr.
  eexists. reflexivity.
Qed.

Lemma reference_out_of_range_raises_witness :
  block_mode (opened false stream_reference_past_end) = false /\
  avail (opened false stream_reference_past_end) = x71 :: x00 :: x7e :: x00 :: x00 :: [] /\
  (be_uint [x00; x7e; x00; x00] - Constants.BASE_WIRE_HANDLE
   < - Z.of_nat (length (references (opened false stream_reference_past_end))) \/
   Z.of_nat (length (references (opened false stream_reference_past_end)))
   <= be_uint [x00; x7e; x00; x00] - Constants.BASE_WIRE_HANDLE) /\
  exists h',
    decode_object false 1 (opened false stream_reference_past_end) = Raise IndexError h'.
Proof.
  split; [reflexivity|]. split; [vm_compute; reflexivity|].
  split; [right; vm_compute; discriminate|].
  apply (reference_out_of_range_raises false 0 _ x00 x7e x00 x00 []);
    [reflexivity|vm_compute; reflexivity|right; vm_compute; discriminate].
Defined.

(** A record that was given a handle is what a later TC_REFERENCE with
    that handle resolves to. *)
Lemma reference_resolves_handle cf record h0 u h1 h2 fuel b1 b2 b3 b4 rest :
  add_reference record h0 = Ok u h1 ->
  later cf h1 h2 ->
  block_mode h2 = false ->
  avail h2 = x71 :: b1 :: b2 :: b3 :: b4 :: rest ->
  be_uint [b1; b2; b3; b4]
  = Constants.BASE_WIRE_HANDLE + Z.of_nat (length (references h0)) ->
  exists h3,
    decode_object cf (S fuel) h2 = Ok (VObj (length (heap h2))) h3 /\
    heap h3 !! length (heap h2)
    = Some (mkObj Cls.Reference
              [("ref", VInt (Z.of_nat (length (references h0))));
               ("obj", record)]) /\
    avail h3 = rest.
Proof.
  intros Hadd Hlater Hm Ha Hop.
  assert (Hrec : references h2 !! length (references h0) = Some record).
  { apply later_references in Hlater.
    eapply prefix_lookup_Some; [|exact Hlater].
    unfold add_reference, modify in Hadd. inversion Hadd; subst h1. simpl.
    apply list_lookup_middle. reflexivity. }
  simpl. unfold decode_object_body, bind at 1.
  rewrite (read_byte_stream cf _ h2 x71 _ Hm Ha).
  change (byte_val x71) with 113. simpl.
  unfold new_Reference, bind at 1, alloc at 1.
  set (o := mkObj Cls.Reference [("ref", VInt 0); ("obj", VNone)]).
  set (h2' := with_heap (heap (advance 1 h2) ++ [o]) (advance 1 h2)).
  assert (Ha' : avail h2' = b1 :: b2 :: b3 :: b4 :: rest).
  { change (avail h2') with (avail (advance 1 h2)).
    rewrite avail_advance, Ha. reflexivity. }
  assert (Ho : heap h2' !! length (heap h2) = Some o).
  { simpl. apply list_lookup_middle. reflexivity. }
  assert (Ht : list_index (references h2')
                 (be_uint [b1; b2; b3; b4] - Constants.BASE_WIRE_HANDLE)
               = Some record).
  { rewrite Hop.
    replace (_ + _ - _) with (Z.of_nat (length (references h0))) by lia.
    now apply list_index_nat. }
  unfold bind.
  change (length (heap (advance 1 h2))) with (length (heap h2)).
  rewrite (Reference_decode_stream cf _ _ o h2' b1 b2 b3 b4 rest record
             Hm Ha' Ho Ht).
  eexists. split; [reflexivity|]. split.
  - simpl. rewrite list_lookup_insert_eq by (rewrite length_app; simpl; lia).
    rewrite Hop.
    replace (_ + _ - _) with (Z.of_nat (length (references h0))) by lia.
    reflexivity.
  - change (avail (with_heap ?x ?h)) with (avail h).
    rewrite avail_advance, Ha'. reflexivity.
Qed.

(** C2: the record passed to [add_reference] when [n] handles had been
    assigned takes handle [n] for good: at any later state of the handler, a
    TC_REFERENCE whose operand is [BASE_WIRE_HANDLE + n] decodes to a
    Reference record with [ref = n] whose [obj] is that very record.  So the
    stream [AC ED 00 05 74 00 01 41 71 00 7E 00 00] decodes to the String "A"
    and then to a Reference with [ref = 0] whose [obj] is the String
    object. *)
Theorem handle_retrievable :
  (forall cf record h0 u h1 h2 fuel b1 b2 b3 b4 rest n,
      length (references h0) = n ->
      add_reference record h0 = Ok u h1 ->
      later cf h1 h2 ->
      block_mode h2 = false ->
      avail h2 = x71 :: b1 :: b2 :: b3 :: b4 :: rest ->
      be_uint [b1; b2; b3; b4] = Constants.BASE_WIRE_HANDLE + Z.of_nat n ->
      exists h3,
        decode_object cf (S fuel) h2 = Ok (VObj (length (heap h2))) h3 /\
        heap h3 !! length (heap h2)
        = Some (mkObj Cls.Reference
                  [("ref", VInt (Z.of_nat n)); ("obj", record)]) /\
        avail h3 = rest) /\
  (exists h1 h2 h3,
      open_stream false stream_back_reference = Ok tt h1 /\
      decode_object false 1 h1 = Ok (VObj 1) h2 /\
      decode_object false 1 h2 = Ok (VObj 2) h3 /\
      heap h3 !! 1%nat = Some (mkObj Cls.String [("content", VStr "A")]) /\
      heap h3 !! 2%nat
      = Some (mkObj Cls.Reference [("ref", VInt 0); ("obj", VObj 1)]) /\
      references h3 = [VObj 1] /\
      avail h3 = []).
Proof.
  split.
  - intros cf record h0 u h1 h2 fuel b1 b2 b3 b4 rest n <-.
    apply reference_resolves_handle.
  - do 3 eexists. split; [vm_compute; reflexivity|].
    split; [vm_compute; reflexivity|]. evaluate.
Qed.

Lemma handle_retrievable_witness :
  add_reference (VObj 1)
    (with_references [] (after_record false 1 stream_back_reference))
  = Ok tt (after_record false 1 stream_back_reference) /\
  exists h3,
    decode_object false 1 (after_record false 1 stream_back_reference)
    = Ok (VObj (length (heap (after_record false 1 stream_back_reference)))) h3 /\
    heap h3 !! length (heap (after_record false 1 stream_back_reference))
    = Some (mkObj Cls.Reference [("ref", VInt (Z.of_nat 0)); ("obj", VObj 1)]) /\
    avail h3 = [].
Proof.
  split; [vm_compute; reflexivity|].
  destruct handle_retrievable as [Hgen _].
  apply (Hgen false (VObj 1)
           (with_references [] (after_record false 1 stream_back_reference)) tt
           (after_record false 1 stream_back_reference)
           (after_record false 1 stream_back_reference) 0%nat
           x00 x7e x00 x00 [] 0%nat).
  - reflexivity.
  - vm_compute; reflexivity.
  - apply later_now.
  - reflexivity.
  - vm_compute; reflexivity.
  - vm_compute; reflexivity.
Defined.

(** ** Class data *)

Lemma getattr_Ok v name h x h' :
  getattr v name h = Ok x h' ->
  h' = h /\ exists a o, v = VObj a /\ heap h !! a = Some o /\
                        attr_get name (attrs o) = Some x.
Proof.
  unfold getattr. destruct v as [| | | | | | | |a]; try discriminate.
  destruct (heap h !! a) as [o|] eqn:Ea; try discriminate.
  destruct (attr_get name (attrs o)) as [y|] eqn:Ey; try discriminate.
  intros H. inversion H; subst. eauto 6.
Qed.

Lemma class_of_Ok v h c h' :
  class_of v h = Ok c h' ->
  h' = h /\
  ((c = None /\ forall a, v <> VObj a) \/
   (exists a o, v = VObj a /\ heap h !! a = Some o /\ c = Some (cls o))).
Proof.
  unfold class_of. destruct v as [| | | | | | | |a];
    try (intros H; inversion H; subst; split; [reflexivity|left; split; [reflexivity|discriminate]]).
  destruct (heap h !! a) as [o|] eqn:Ea; try discriminate.
  intros H. inversion H; subst. split; [reflexivity|]. right. eauto.
Qed.

Lemma Cls_eqb_eq c d : Cls.eqb c d = true <-> c = d.
Proof. destruct c, d; simpl; split; congruence. Qed.

Lemma mapM_length {A B} (f : A -> M B) l h xs h' :
  mapM f l h = Ok xs h' -> length xs = length l.
Proof.
  revert h xs h'. induction l as [|a l IH]; simpl; intros h xs h' H.
  - apply ret_Ok in H as [-> _]. reflexivity.
  - apply bind_Ok in H as (x & h1 & _ & H).
    apply bind_Ok in H as (ys & h2 & H2 & H).
    apply ret_Ok in H as [-> _]. simpl. f_equal. exact (IH _ _ _ H2).
Qed.

(** What [get_class_content] returns: the content when it is a
    NewClassDesc, False otherwise. *)
Lemma NewObject_get_class_content_Ok class_desc h v h' :
  NewObject_get_class_content class_desc h = Ok v h' ->
  h' = h /\
  exists a o body,
    class_desc = VObj a /\ heap h !! a = Some o /\
    attr_get "content" (attrs o) = Some body /\
    ((v = body /\ exists b ob, body = VObj b /\ heap h !! b = Some ob /\
                               cls ob = Cls.NewClassDesc) \/
     (v = VBool false /\ super_chain (heap h) body [])).
Proof.
  unfold NewObject_get_class_content. intros H.
  apply bind_Ok in H as (body & h1 & Hg & H).
  apply getattr_Ok in Hg as (-> & a & o & -> & Ha & Hb).
  split; [|exists a, o, body; repeat split; auto]; revert H.
  - destruct (truthy body); simpl; [|intros H; now apply ret_Ok in H].
    intros H. apply bind_Ok in H as (c & h2 & Hc & H).
    apply class_of_Ok in Hc as (-> & _).
    destruct (is_class c Cls.NewClassDesc); now apply ret_Ok in H.
  - destruct (truthy body) eqn:Et; simpl.
    + intros H. apply bind_Ok in H as (c & h2 & Hc & H).
      apply class_of_Ok in Hc as (-> & [(-> & Hv)|(b & ob & -> & Hob & ->)]); simpl in H.
      * apply ret_Ok in H as [-> _]. right. split; [reflexivity|].
        now apply chain_value.
      * destruct (Cls.eqb (cls ob) Cls.NewClassDesc) eqn:E; apply ret_Ok in H as [-> _].
        -- left. split; [reflexivity|]. apply Cls_eqb_eq in E. eauto.
        -- right. split; [reflexivity|]. eapply chain_other; eauto.
           intros Hc. apply Cls_eqb_eq in Hc. congruence.
    + intros H. apply ret_Ok in H as [-> _]. right. split; [reflexivity|].
      apply chain_value. intros b ->. discriminate.
Qed.

(** The chain reads the class of the objects and three of their
    attributes; it is the same in a store that agrees on these. *)
Lemma super_chain_agree hp hp' v L :
  (forall a o, hp !! a = Some o ->
     exists o', hp' !! a = Some o' /\ cls o' = cls o /\
       attr_get "fields" (attrs o') = attr_get "fields" (attrs o) /\
       attr_get "super_class" (attrs o') = attr_get "super_class" (attrs o) /\
       attr_get "content" (attrs o') = attr_get "content" (attrs o)) ->
  super_chain hp v L -> super_chain hp' v L.
Proof.
  intros Hag Hc. induction Hc as [v Hv|a o Ha Hcls|a o fs sc Ha Hcls Hf Hs Ht
                                  |a o fs sc osc body L Ha Hcls Hf Hs Hsc Hb Hc IH].
  - now apply chain_value.
  - destruct (Hag _ _ Ha) as (o' & Ha' & E & _).
    eapply chain_other; eauto. congruence.
  - destruct (Hag _ _ Ha) as (o' & Ha' & E & Ef & Es & _).
    eapply chain_top; eauto; congruence.
  - destruct (Hag _ _ Ha) as (o' & Ha' & E & Ef & Es & _).
    destruct (Hag _ _ Hsc) as (osc' & Hsc' & _ & _ & _ & Ec).
    eapply chain_super; eauto; congruence.
Qed.

(** The chain of a class description does not change as decoding goes
    on. *)
Lemma super_chain_evolves h h' v L :
  evolves [] h h' -> super_chain (heap h) v L -> super_chain (heap h') v L.
Proof.
  intros He. apply super_chain_agree. intros a o Ha.
  destruct (ev_frame _ _ _ He _ _ Ha) as (o' & Ha' & Ec & Eat); [intros []|].
  exists o'. repeat split; auto; symmetry; apply Eat; discriminate.
Qed.

(** Nor when an attribute it does not read is assigned. *)
Lemma super_chain_setattr v name x h u h' body L :
  setattr v name x h = Ok u h' ->
  name <> "fields" -> name <> "super_class" -> name <> "content" ->
  super_chain (heap h) body L -> super_chain (heap h') body L.
Proof.
  intros Hs N1 N2 N3. apply setattr_Ok in Hs as (a & o & -> & Ha & ->).
  apply super_chain_agree. intros b ob Hb. simpl.
  destruct (decide (b = a)) as [->|Hne].
  - rewrite list_lookup_insert_eq by (eapply lookup_lt_Some; eauto).
    rewrite Ha in Hb. inversion Hb; subst ob. eexists. split; [reflexivity|].
    simpl. rewrite !attr_get_set_ne by congruence. auto.
  - rewrite list_lookup_insert_ne by auto. eauto 6.
Qed.

Lemma nil_not_in (a : nat) : ~ In a [].
Proof. intros []. Qed.

Lemma super_chain_False hp L : super_chain hp (VBool false) L -> L = [].
Proof. intros H. inversion H. reflexivity. Qed.

Lemma mapM_app {A B} (f : A -> M B) l1 l2 h xs h1 ys h2 :
  mapM f l1 h = Ok xs h1 -> mapM f l2 h1 = Ok ys h2 ->
  mapM f (l1 ++ l2) h = Ok (xs ++ ys) h2.
Proof.
  revert h xs. induction l1 as [|a l1 IH]; simpl; intros h xs H1 H2.
  - apply ret_Ok in H1 as [-> ->]. exact H2.
  - apply bind_Ok in H1 as (x & h0 & Hx & H1).
    apply bind_Ok in H1 as (xs' & h0' & Hxs & H1).
    apply ret_Ok in H1 as [-> ->].
    rewrite (bind_eq _ _ _ _ _ Hx), (bind_eq _ _ _ _ _ (IH _ _ Hxs H2)). reflexivity.
Qed.

Section ClassData.
Variable complex_formats : bool.
Variable rec : M value.
Hypothesis rec_evolves : forall S, preserves (evolves S) rec.

(** The values [decode_class_data] returns are read field after field
    along the chain: those of the outermost super class first, those of
    the class itself last. *)
Lemma NewObject_decode_class_data_chain calls :
  forall v h vals h',
    NewObject_decode_class_data complex_formats rec calls v h = Ok vals h' ->
    (truthy v = true ->
     exists a o, v = VObj a /\ heap h !! a = Some o /\ cls o = Cls.NewClassDesc) ->
    exists L,
      super_chain (heap h') v L /\
      mapM (NewObject_field_value complex_formats rec) (concat L) h = Ok vals h'.
Proof.
  induction calls as [|calls IH]; intros v h vals h' H Hv; [discriminate|].
  simpl in H. destruct (truthy v) eqn:Et; simpl in H.
  2:{ apply ret_Ok in H as [-> ->]. exists []. split; [|reflexivity].
      apply chain_value. intros a ->. discriminate. }
  destruct (Hv eq_refl) as (a & o & -> & Ha & Hcls). clear Hv.
  apply bind_Ok in H as (sc & h0 & Hsc & H).
  apply getattr_Ok in Hsc as (-> & a' & o' & Ea & Ha' & Hsc).
  inversion Ea; subst a'. rewrite Ha in Ha'. inversion Ha'; subst o'. clear Ea Ha'.
  apply bind_Ok in H as (contents & h1 & Hsuper & H).
  apply bind_Ok in H as (fields & h1' & Hf & H).
  apply getattr_Ok in Hf as (-> & a' & o1 & Ea & Ha1 & Hf).
  inversion Ea; subst a'. clear Ea.
  apply bind_Ok in H as (fs & h1' & Hl & H).
  destruct fields; try discriminate. apply ret_Ok in Hl as [-> ->].
  apply bind_Ok in H as (values & h2 & Hvals & H).
  apply ret_Ok in H as [-> ->].
  assert (E12 : evolves [] h1 h2).
  { eapply (preserves_mapM _ (evolves_refl _) (evolves_trans _)); [|exact Hvals].
    intros f. apply NewObject_field_value_evolves, rec_evolves. }
  assert (E01 : evolves [] h h1).
  { destruct (truthy sc).
    - apply bind_Ok in Hsuper as (sd & h0 & Hsd & Hsuper).
      apply NewObject_get_class_content_Ok in Hsd as (-> & _).
      eapply NewObject_decode_class_data_evolves; eauto.
    - apply ret_Ok in Hsuper as [_ ->]. apply evolves_refl. }
  assert (E02 : evolves [] h h2) by (eapply evolves_trans; eauto).
  (* the description at the end *)
  destruct (ev_frame _ _ _ E01 _ _ Ha (nil_not_in a)) as (o1' & Ha1' & Ec1 & Eat1).
  rewrite Ha1 in Ha1'. inversion Ha1'; subst o1'. clear Ha1'.
  destruct (ev_frame _ _ _ E12 _ _ Ha1 (nil_not_in a)) as (o2 & Ha2 & Ec2 & Eat2).
  assert (Hcls2 : cls o2 = Cls.NewClassDesc) by congruence.
  assert (Hf2 : attr_get "fields" (attrs o2) = Some (VList l))
    by (rewrite <- Eat2; [assumption|discriminate]).
  assert (Hsc2 : attr_get "super_class" (attrs o2) = Some sc)
    by (rewrite <- Eat2, <- Eat1; [assumption|discriminate|discriminate]).
  destruct (truthy sc) eqn:Etsc.
  - apply bind_Ok in Hsuper as (sd & h0 & Hsd & Hsuper).
    apply NewObject_get_class_content_Ok in Hsd
      as (-> & sca & osc & body & -> & Hosc & Hbody & Hcase).
    destruct (ev_frame _ _ _ E02 _ _ Hosc (nil_not_in sca)) as (osc2 & Hosc2 & _ & Eatc).
    assert (Hbody2 : attr_get "content" (attrs osc2) = Some body)
      by (rewrite <- Eatc; [assumption|discriminate]).
    destruct (IH _ _ _ _ Hsuper) as (L1 & Hc1 & Hread1).
    { destruct Hcase as [(-> & b & ob & -> & Hb & Hcb)|(-> & _)]; [eauto|discriminate]. }
    apply (super_chain_evolves h1 h2) in Hc1; [|assumption].
    exists (L1 ++ [l]). split.
    + eapply chain_super; eauto.
      destruct Hcase as [(-> & _)|(-> & Hnone)]; [assumption|].
      apply super_chain_False in Hc1 as ->.
      apply (super_chain_evolves h h2); assumption.
    + rewrite concat_app. simpl. rewrite app_nil_r.
      eapply mapM_app; eassumption.
  - apply ret_Ok in Hsuper as [-> ->].
    exists [l]. split.
    + eapply chain_top; eauto.
    + simpl. rewrite app_nil_r. exact Hvals.
Qed.
End ClassData.

Section NewObjectSlots.
Variable complex_formats : bool.
Variable rec : M value.
Variable depth : nat.
Hypothesis rec_evolves : forall S, preserves (evolves S) rec.

(** [NewObject.decode]: once the class description is decoded and the
    handle assigned, the fields of the chain of the class description are
    read one after the other, super classes first, and the values are
    left in [contents] in that order. *)
Lemma NewObject_decode_slots r h u h' :
  (r < length (heap h))%nat ->
  NewObject_decode complex_formats rec depth (VObj r) h = Ok u h' ->
  exists o cd ocd body L values h0 h1,
    heap h' !! r = Some o /\
    attr_get "class_desc" (attrs o) = Some (VObj cd) /\
    heap h' !! cd = Some ocd /\
    attr_get "content" (attrs ocd) = Some body /\
    super_chain (heap h') body L /\
    attr_get "contents" (attrs o) = Some (VList values) /\
    (class_desc <- new_ClassDesc ;;
     setattr (VObj r) "class_desc" class_desc ;;;
     ClassDesc_decode rec class_desc ;;;
     add_reference (VObj r)) h = Ok tt h0 /\
    mapM (NewObject_field_value complex_formats rec) (concat L) h0 = Ok values h1 /\
    setattr (VObj r) "contents" (VList values) h1 = Ok tt h'.
Proof.
  unfold NewObject_decode, new_ClassDesc. intros Hr H.
  apply bind_Ok in H as (cdv & h1 & Halloc & H).
  pose proof Halloc as Halloc'.
  unfold alloc in Halloc. inversion Halloc; subst cdv h1. clear Halloc.
  set (cd := length (heap h)) in *.
  apply bind_Ok in H as ([] & h2 & Hset & H).
  pose proof Hset as Hset'.
  apply setattr_Ok in Hset' as (r' & o0 & Er & Hr0 & Eh2). inversion Er; subst r'. clear Er.
  simpl in Hr0.
  assert (Hrcd : r <> cd) by (unfold cd; lia).
  apply bind_Ok in H as ([] & h3 & Hcd & H).
  apply bind_Ok in H as ([] & h4 & Hadd & H).
  assert (Hhead :
    (class_desc <- alloc (mkObj Cls.ClassDesc [("content", VNone)]) ;;
     setattr (VObj r) "class_desc" class_desc ;;;
     ClassDesc_decode rec class_desc ;;;
     add_reference (VObj r)) h = Ok tt h4).
  { rewrite (bind_eq _ _ _ _ _ Halloc'), (bind_eq _ _ _ _ _ Hset),
      (bind_eq _ _ _ _ _ Hcd). exact Hadd. }
  clear Halloc'.
  apply bind_Ok in H as (cdv & h4' & Hget & H).
  apply bind_Ok in H as (ncd & h4'' & Hncd & H).
  apply bind_Ok in H as (contents & h5 & Hdata & H).
  (* the object right after [self.class_desc = ClassDesc()] *)
  assert (Hr2 : exists o2, heap h2 !! r = Some o2 /\
                           attr_get "class_desc" (attrs o2) = Some (VObj cd)).
  { subst h2. simpl. rewrite list_lookup_insert_eq by (eapply lookup_lt_Some; eauto).
    eexists. split; [reflexivity|]. simpl. apply attr_get_set_eq. }
  destruct Hr2 as (o2 & Hr2 & Hcd2). clear Eh2 Hr0 Hset.
  (* ... after the class description is decoded and the handle assigned *)
  pose proof (ClassDesc_decode_evolves rec rec_evolves [cd] cd (or_introl eq_refl) _ _ _ Hcd)
    as E23.
  destruct (ev_frame _ _ _ E23 _ _ Hr2) as (o3 & Hr3 & _ & Eat3);
    [intros [?|[]]; congruence|].
  unfold add_reference, modify in Hadd. inversion Hadd; subst h4. clear Hadd.
  apply getattr_Ok in Hget as (-> & r' & o3' & Er & Hr3' & Hcdv).
  inversion Er; subst r'. clear Er. simpl in Hr3'.
  rewrite Hr3 in Hr3'. inversion Hr3'; subst o3'. clear Hr3'.
  rewrite <- Eat3 in Hcdv by discriminate. rewrite Hcd2 in Hcdv.
  inversion Hcdv; subst cdv. clear Hcdv.
  apply NewObject_get_class_content_Ok in Hncd
    as (-> & cd' & ocd & body & Ecd & Hocd & Hbody & Hcase).
  inversion Ecd; subst cd'. clear Ecd.
  (* the class data *)
  pose proof (NewObject_decode_class_data_evolves complex_formats rec rec_evolves
                [] _ _ _ _ _ Hdata) as E45.
  destruct (NewObject_decode_class_data_chain complex_formats rec rec_evolves
              _ _ _ _ _ Hdata) as (L & Hchain & Hread).
  { destruct Hcase as [(-> & b & ob & -> & Hb & Hcb)|(-> & _)]; [eauto|discriminate]. }
  assert (Hchain5 : super_chain (heap h5) body L).
  { destruct Hcase as [(-> & _)|(-> & Hnone)]; [assumption|].
    apply super_chain_False in Hchain as ->.
    now apply (super_chain_evolves _ _ _ _ E45). }
  destruct (ev_frame _ _ _ E45 r o3) as (o5 & Hr5 & _ & Eat5); [assumption|intros []|].
  destruct (ev_frame _ _ _ E45 cd ocd) as (ocd5 & Hocd5 & _ & Eatc); [assumption|intros []|].
  (* the last assignment *)
  pose proof H as Hlast. destruct u.
  pose proof (super_chain_setattr _ _ _ _ _ _ _ _ H
                ltac:(discriminate) ltac:(discriminate) ltac:(discriminate) Hchain5)
    as Hchain'.
  apply setattr_Ok in H as (r' & o5' & Er & Hr5' & ->).
  inversion Er; subst r'. clear Er.
  rewrite Hr5 in Hr5'. inversion Hr5'; subst o5'. clear Hr5'.
  eexists _, cd, ocd5, body, L, contents, _, h5. simpl. repeat split.
  - apply list_lookup_insert_eq. eapply lookup_lt_Some; eauto.
  - simpl. rewrite attr_get_set_ne by discriminate.
    rewrite <- Eat5, <- Eat3 by discriminate. assumption.
  - rewrite list_lookup_insert_ne by assumption. assumption.
  - rewrite <- Eatc by discriminate. assumption.
  - exact Hchain'.
  - simpl. apply attr_get_set_eq.
  - exact Hhead.
  - exact Hread.
  - exact Hlast.
Qed.
End NewObjectSlots.

Lemma tag_class_NewObject tc :
  tag_class tc = Some Cls.NewObject -> tc = Constants.TC_OBJECT.
Proof.
  unfold tag_class.
  repeat match goal with
         | |- context [if ?a =? ?b then _ else _] =>
             destruct (Z.eqb_spec a b); [try discriminate|]
         end; try discriminate.
  intros _. assumption.
Qed.

Lemma length_concat_fields (L : list (list value)) : length (concat L) = field_count L.
Proof.
  unfold field_count. induction L as [|fs L IH]; simpl; [reflexivity|].
  rewrite length_app, IH. reflexivity.
Qed.

(** C6: when tag dispatch returns a NewObject, its [contents] hold as
    many values as the class descriptions of the super chain of its class
    description have fields, and they are in the order of the chain, super
    classes first: once the tag is read, the object created, its class
    description decoded and its handle assigned, the decoder reads the
    value of each field of the outermost super class, then of the next
    class down, and last of the class itself, and [contents] is the list of
    these values in the order they were read. *)
Theorem object_slots_match_fields cf fuel h r h' o :
  decode_object cf (S fuel) h = Ok (VObj r) h' ->
  heap h' !! r = Some o ->
  cls o = Cls.NewObject ->
  exists cd ocd body L values h0 h1,
    attr_get "class_desc" (attrs o) = Some (VObj cd) /\
    heap h' !! cd = Some ocd /\
    attr_get "content" (attrs ocd) = Some body /\
    super_chain (heap h') body L /\
    attr_get "contents" (attrs o) = Some (VList values) /\
    length values = field_count L /\
    (read_byte cf (decode_object cf fuel) ;;;
     self <- new_NewObject ;;
     class_desc <- new_ClassDesc ;;
     setattr self "class_desc" class_desc ;;;
     ClassDesc_decode (decode_object cf fuel) class_desc ;;;
     add_reference self) h = Ok tt h0 /\
    mapM (NewObject_field_value cf (decode_object cf fuel)) (concat L) h0
    = Ok values h1 /\
    setattr (VObj r) "contents" (VList values) h1 = Ok tt h'.
Proof.
  intros H Ho Hcls. simpl in H.
  destruct (decode_object_body_class cf _ fuel (decode_object_evolves cf fuel) _ _ _ H)
    as (tc & h1 & Hr & Hc).
  destruct (tag_class tc) as [c|] eqn:Et; [|destruct Hc; discriminate].
  destruct Hc as (o' & Er & Ho' & Ec). inversion Er; subst r. clear Er.
  rewrite Ho in Ho'. inversion Ho'; subst o'. clear Ho'.
  rewrite Hcls in Ec. subst c. apply tag_class_NewObject in Et. subst tc.
  unfold decode_object_body, bind at 1 in H. rewrite Hr in H. simpl in H.
  unfold new_NewObject in H.
  apply bind_Ok in H as (x & h2 & Hal & H).
  pose proof Hal as Hal'.
  unfold alloc in Hal. inversion Hal; subst x h2. clear Hal.
  apply bind_Ok in H as ([] & h3 & Hdec & H). apply ret_Ok in H as [_ ->].
  apply NewObject_decode_slots in Hdec;
    [|apply decode_object_evolves|simpl; rewrite length_app; simpl; lia].
  destruct Hdec
    as (o' & cd & ocd & body & L & values & h0 & h4 & Ho' & Hcd & Hocd & Hb & Hch & Hct
        & Hhead & Hread & Hlast).
  rewrite Ho in Ho'. inversion Ho'; subst o'. clear Ho'.
  exists cd, ocd, body, L, values, h0, h4. repeat split; auto.
  - rewrite <- length_concat_fields. eapply mapM_length. exact Hread.
  - rewrite (bind_eq _ _ _ _ _ Hr). unfold new_NewObject.
    rewrite (bind_eq _ _ _ _ _ Hal'). exact Hhead.
Qed.

Lemma object_slots_match_fields_witness :
  decode_object false 4 (opened false stream_object_B)
  = Ok (VObj 1) (after_record false 4 stream_object_B) /\
  heap (after_record false 4 stream_object_B) !! 1%nat
  = Some (mkObj Cls.NewObject
            [("class_desc", VObj 2); ("contents", VList [VInt 7; VInt 9])]) /\
  exists cd ocd body L values h0 h1,
    attr_get "class_desc" [("class_desc", VObj 2); ("contents", VList [VInt 7; VInt 9])]
    = Some (VObj cd) /\
    heap (after_record false 4 stream_object_B) !! cd = Some ocd /\
    attr_get "content" (attrs ocd) = Some body /\
    super_chain (heap (after_record false 4 stream_object_B)) body L /\
    attr_get "contents" [("class_desc", VObj 2); ("contents", VList [VInt 7; VInt 9])]
    = Some (VList values) /\
    length values = field_count L /\
    (read_byte false (decode_object false 3) ;;;
     self <- new_NewObject ;;
     class_desc <- new_ClassDesc ;;
     setattr self "class_desc" class_desc ;;;
     ClassDesc_decode (decode_object false 3) class_desc ;;;
     add_reference self) (opened false stream_object_B) = Ok tt h0 /\
    mapM (NewObject_field_value false (decode_object false 3)) (concat L) h0
    = Ok values h1 /\
    setattr (VObj 1) "contents" (VList values) h1
    = Ok tt (after_record false 4 stream_object_B).
Proof.
  split; [vm_compute; reflexivity|]. split; [vm_compute; reflexivity|].
  apply (object_slots_match_fields false 3 (opened false stream_object_B) 1
           (after_record false 4 stream_object_B)
           (mkObj Cls.NewObject
              [("class_desc", VObj 2); ("contents", VList [VInt 7; VInt 9])]));
    vm_compute; reflexivity.
Defined.

(** On that stream the chain is A, with its field [a], then B, with its
    field [b], and the values are the int of A, then the byte of B. *)
Example object_B_chain :
  super_chain (heap (after_record false 4 stream_object_B)) (VObj 3)
    [[VObj 11]; [VObj 5]] /\
  getattr (VObj 11) "field_name" (after_record false 4 stream_object_B)
  = Ok (VStr "a") (after_record false 4 stream_object_B) /\
  getattr (VObj 5) "field_name" (after_record false 4 stream_object_B)
  = Ok (VStr "b") (after_record false 4 stream_object_B) /\
  getattr (VObj 1) "contents" (after_record false 4 stream_object_B)
  = Ok (VList [VInt 7; VInt 9]) (after_record false 4 stream_object_B).
Proof.
  split; [|evaluate].
  change [[VObj 11]; [VObj 5]] with ([[VObj 11]] ++ [[VObj 5]]).
  eapply chain_super; try (vm_compute; reflexivity).
  change [[VObj 11]] with ([] ++ [[VObj 11]]).
  eapply chain_super; try (vm_compute; reflexivity).
  eapply chain_other; [vm_compute; reflexivity|vm_compute; discriminate].
Qed.

(** ** Arrays *)

(** C9 (counterexample): the class description of the array is a
    NewClassDesc named "X"; no error is raised and a NewArray is
    returned, with [type] False and the two elements that tag dispatch
    read, a null and the string "A". *)
Lemma array_of_X_is_decoded :
  exists r d n s h',
    decode_object false 3 (opened false stream_array_of_X) = Ok (VObj r) h' /\
    heap h' !! r
    = Some (mkObj Cls.NewArray
              [("new_class_desc", VObj d); ("size", VInt 2);
               ("type", VBool false); ("contents", VList [VObj n; VObj s])]) /\
    (cls <$> heap h' !! d) = Some Cls.NewClassDesc /\
    getattr (VObj d) "class_name" h' = Ok (VStr "X") h' /\
    heap h' !! n = Some (mkObj Cls.Null []) /\
    heap h' !! s = Some (mkObj Cls.String [("content", VStr "A")]).
Proof.
  do 5 eexists. split; [vm_compute; reflexivity|]. evaluate.
Qed.

Lemma object_name_array c t :
  Constants.object_name c = Some t -> String.eqb t "array" = Ascii.eqb c "["%char.
Proof.
  destruct c as [[] [] [] [] [] [] [] []]; simpl; intros H;
    try discriminate; inversion H; reflexivity.
Qed.

(** [array_type] on a description that is not a NewClassDesc, or whose
    name does not start with ['[']. *)
Lemma NewArray_array_type_False self h d c :
  getattr self "new_class_desc" h = Ok d h ->
  class_of d h = Ok c h ->
  (is_class c Cls.NewClassDesc = false \/
   exists name, getattr d "class_name" h = Ok (VStr name) h /\
                array_name name = false) ->
  NewArray_array_type self h = Ok (VBool false) h.
Proof.
  intros Hd Hc Hcase.
  unfold NewArray_array_type, bind. rewrite Hd, Hc.
  destruct (is_class c Cls.NewClassDesc) eqn:E; [|reflexivity]. simpl.
  destruct Hcase as [Hf|(name & Hn & Ha)]; [discriminate|].
  rewrite Hn. simpl. destruct name as [|c0 name]; [reflexivity|].
  unfold Constants.OBJECT_TYPES, Constants.by_code.
  destruct (Constants.object_name c0) as [t|] eqn:Eo; [|reflexivity].
  rewrite (object_name_array _ _ Eo). simpl in Ha.
  destruct (Ascii.eqb_spec c0 "["%char) as [->|Hne]; [discriminate|]. reflexivity.
Qed.

Lemma bind_ext_on {A B} (m : M A) (k k' : A -> M B) h :
  (forall x h', m h = Ok x h' -> k x h' = k' x h') ->
  bind m k h = bind m k' h.
Proof. intros H. unfold bind. destruct (m h); auto. Qed.

(** Two loops whose bodies do the same wherever [I] holds, which the
    body keeps. *)
Lemma repeatM_agree {A} (I : Handler -> Prop) (m m' : M A) n :
  (forall h, I h -> m h = m' h) ->
  (forall h x h', I h -> m' h = Ok x h' -> I h') ->
  forall h, I h -> repeatM n m h = repeatM n m' h.
Proof.
  intros Hsame Hkeep. induction n as [|n IH]; intros h HI; [reflexivity|].
  cbn [repeatM]. unfold bind at 1 3. rewrite (Hsame h HI).
  destruct (m' h) as [x h1| |] eqn:E; try reflexivity.
  unfold bind. rewrite (IH h1 (Hkeep _ _ _ HI E)). reflexivity.
Qed.

Lemma type_is_False_evolves a h h' :
  evolves [] h h' -> type_is_False a h -> type_is_False a h'.
Proof.
  intros He (o & Ho & Ht).
  destruct (ev_frame _ _ _ He _ _ Ho (nil_not_in a)) as (o' & Ho' & _ & Eat).
  exists o'. split; [assumption|]. rewrite <- Eat by discriminate. assumption.
Qed.

(** With [type] False, reading an element is one tag dispatch. *)
Lemma NewArray_element_dispatch cf rec a h :
  type_is_False a h ->
  (type <- getattr (VObj a) "type" ;;
   content <- read_primitive cf rec type ;;
   unwrap_reference content) h
  = (content <- rec ;; unwrap_reference content) h.
Proof.
  intros (o & Ho & Ht). unfold bind at 1, getattr. rewrite Ho, Ht. reflexivity.
Qed.

Section ArrayDispatch.
Variable cf : bool.
Variable fuel : nat.

(** [NewArray.decode] when the class description resolves to something
    that is not a NewClassDesc, or to one whose name does not start with
    ['[']: [type] is False and each element is read by tag dispatch. *)
Lemma NewArray_decode_dispatch a o h v h1 c d c' :
  heap h !! a = Some o ->
  decode_object cf fuel h = Ok v h1 ->
  class_of v h1 = Ok c h1 ->
  in_classes c [Cls.NewClassDesc; Cls.Reference] = true ->
  unwrap_reference v h1 = Ok d h1 ->
  class_of d h1 = Ok c' h1 ->
  (is_class c' Cls.NewClassDesc = false \/
   exists name, getattr d "class_name" h1 = Ok (VStr name) h1 /\
                array_name name = false) ->
  NewArray_decode cf (decode_object cf fuel) (VObj a) h
  = (setattr (VObj a) "new_class_desc" d ;;;
     add_reference (VObj a) ;;;
     setattr (VObj a) "type" (VBool false) ;;;
     size <- read_int cf (decode_object cf fuel) ;;
     setattr (VObj a) "size" (VInt size) ;;;
     contents <- repeatM (Z.to_nat size)
                   (content <- decode_object cf fuel ;; unwrap_reference content) ;;
     setattr (VObj a) "contents" (VList contents)) h1.
Proof.
  intros Ho Hrec Hc Hin Hd Hc' Hcase.
  unfold NewArray_decode.
  rewrite (bind_eq _ _ _ _ _ Hrec), (bind_eq _ _ _ _ _ Hc), Hin. cbn [negb].
  rewrite (bind_eq _ _ _ _ _ Hd).
  (* the array is still there *)
  pose proof (decode_object_evolves cf fuel [] _ _ _ Hrec) as E01.
  destruct (ev_cls _ _ _ E01 _ _ Ho) as (o1 & Ho1 & _).
  rewrite !(bind_eq _ _ _ _ _ (setattr_here a o1 "new_class_desc" d h1 Ho1)).
  set (h2 := with_heap _ h1).
  assert (Hlt : (a < length (heap h1))%nat) by (eapply lookup_lt_Some; eauto).
  assert (Ho2 : heap h2 !! a
                = Some (mkObj (cls o1) (attr_set "new_class_desc" d (attrs o1)))).
  { unfold h2. cbn [heap with_heap]. apply list_lookup_insert_eq. exact Hlt. }
  assert (Hadd : forall h0, add_reference (VObj a) h0
                            = Ok tt (with_references (references h0 ++ [VObj a]) h0))
    by reflexivity.
  rewrite !(bind_eq _ _ _ _ _ (Hadd h2)).
  set (h3 := with_references _ h2).
  assert (Ho3 : heap h3 !! a
                = Some (mkObj (cls o1) (attr_set "new_class_desc" d (attrs o1))))
    by exact Ho2.
  assert (Hheap3 : heap h3
                   = <[a := mkObj (cls o1) (attr_set "new_class_desc" d (attrs o1))]>
                       (heap h1)) by reflexivity.
  (* the type *)
  assert (Hty : NewArray_array_type (VObj a) h3 = Ok (VBool false) h3).
  { apply (NewArray_array_type_False _ _ d c').
    - unfold getattr. rewrite Ho3. cbn [attrs]. rewrite attr_get_set_eq. reflexivity.
    - apply class_of_Ok in Hc' as (_ & [(-> & Hv)|(b & ob & -> & Hb & ->)]).
      + destruct d; try reflexivity. exfalso. eapply Hv. reflexivity.
      + unfold class_of. rewrite Hheap3.
        destruct (Nat.eq_dec a b) as [->|Hab].
        * rewrite list_lookup_insert_eq by exact Hlt. cbn [cls]. congruence.
        * rewrite list_lookup_insert_ne by exact Hab. rewrite Hb. reflexivity.
    - destruct Hcase as [Hf|(name & Hn & Ha)]; [left; exact Hf|].
      right. exists name. split; [|exact Ha].
      apply getattr_Ok in Hn as (_ & b & ob & -> & Hb & Hname).
      unfold getattr. rewrite Hheap3.
      destruct (Nat.eq_dec a b) as [->|Hab].
      + rewrite list_lookup_insert_eq by exact Hlt. cbn [attrs].
        rewrite attr_get_set_ne by discriminate.
        rewrite Ho1 in Hb. inversion Hb; subst ob. rewrite Hname. reflexivity.
      + rewrite list_lookup_insert_ne by exact Hab. rewrite Hb, Hname. reflexivity. }
  rewrite (bind_eq _ _ _ _ _ Hty).
  rewrite !(bind_eq _ _ _ _ _ (setattr_here a _ "type" (VBool false) h3 Ho3)).
  set (h4 := with_heap _ h3).
  assert (H4 : type_is_False a h4).
  { eexists. split.
    - unfold h4. cbn [heap with_heap]. apply list_lookup_insert_eq.
      rewrite Hheap3, length_insert. exact Hlt.
    - cbn [attrs]. apply attr_get_set_eq. }
  clearbody h4. clear - H4.
  (* the size, then the elements *)
  apply bind_ext_on. intros size h5 Hsize.
  assert (H5 : type_is_False a h5).
  { eapply type_is_False_evolves; [|exact H4].
    eapply (read_int_evolves cf _ (decode_object_evolves cf fuel)); exact Hsize. }
  apply bind_ext_on. intros [] h6 Hset.
  assert (H6 : type_is_False a h6).
  { destruct H5 as (o5 & Ho5 & Ht5).
    apply setattr_Ok in Hset as (a' & o5' & Ea & Ho5' & ->). inversion Ea; subst a'.
    rewrite Ho5 in Ho5'. inversion Ho5'; subst o5'.
    eexists. split.
    - cbn [heap with_heap]. apply list_lookup_insert_eq. eapply lookup_lt_Some; eauto.
    - cbn [attrs]. rewrite attr_get_set_ne by discriminate. exact Ht5. }
  unfold bind at 1 4.
  rewrite (repeatM_agree (type_is_False a) _
             (content <- decode_object cf fuel ;; unwrap_reference content)
             (Z.to_nat size)); [reflexivity| | |exact H6].
  - intros h HI. apply NewArray_element_dispatch. exact HI.
  - intros h x h' HI H. apply bind_Ok in H as (y & h0 & Hy & Hx).
    eapply type_is_False_evolves; [|exact HI].
    eapply evolves_trans.
    + eapply decode_object_evolves; exact Hy.
    + eapply unwrap_reference_evolves; exact Hx.
Qed.
End ArrayDispatch.

(** C9 (as amended): [NewArray.decode] raises "Invalid type for class
    desc" when the record in the place of the class description is neither
    a NewClassDesc nor a Reference; when the resolved description is not a
    NewClassDesc, or is one whose name does not start with ['['],
    [array_type] raises nothing and is False; and the array is then decoded
    with [type] False, its size read and each of its elements read by one
    tag dispatch. *)
Theorem array_descriptor_check :
  (forall cf rec self h v h1 c,
      rec h = Ok v h1 ->
      class_of v h1 = Ok c h1 ->
      in_classes c [Cls.NewClassDesc; Cls.Reference] = false ->
      NewArray_decode cf rec self h
      = Raise (Exception "Invalid type for class desc") h1) /\
  (forall self h d c,
      getattr self "new_class_desc" h = Ok d h ->
      class_of d h = Ok c h ->
      (is_class c Cls.NewClassDesc = false \/
       exists name, getattr d "class_name" h = Ok (VStr name) h /\
                    array_name name = false) ->
      NewArray_array_type self h = Ok (VBool false) h) /\
  (forall cf fuel a o h v h1 c d c',
      heap h !! a = Some o ->
      decode_object cf fuel h = Ok v h1 ->
      class_of v h1 = Ok c h1 ->
      in_classes c [Cls.NewClassDesc; Cls.Reference] = true ->
      unwrap_reference v h1 = Ok d h1 ->
      class_of d h1 = Ok c' h1 ->
      (is_class c' Cls.NewClassDesc = false \/
       exists name, getattr d "class_name" h1 = Ok (VStr name) h1 /\
                    array_name name = false) ->
      NewArray_decode cf (decode_object cf fuel) (VObj a) h
      = (setattr (VObj a) "new_class_desc" d ;;;
         add_reference (VObj a) ;;;
         setattr (VObj a) "type" (VBool false) ;;;
         size <- read_int cf (decode_object cf fuel) ;;
         setattr (VObj a) "size" (VInt size) ;;;
         contents <- repeatM (Z.to_nat size)
                       (content <- decode_object cf fuel ;;
                        unwrap_reference content) ;;
         setattr (VObj a) "contents" (VList contents)) h1).
Proof.
  split; [|split].
  - intros cf rec self h v h1 c Hrec Hc Hin.
    unfold NewArray_decode, bind. rewrite Hrec, Hc, Hin. reflexivity.
  - exact NewArray_array_type_False.
  - intros cf fuel a o h v h1 c d c'. apply NewArray_decode_dispatch.
Qed.

Lemma array_descriptor_check_witness :
  NewArray_decode false (decode_object false 1) (VObj 1)
    (advance 1 (opened false stream_array_of_null))
  = Raise (Exception "Invalid type for class desc")
      (with_heap (heap (opened false stream_array_of_null) ++ [mkObj Cls.Null []])
         (advance 2 (opened false stream_array_of_null))) /\
  (forall h' r d,
      decode_object false 3 (opened false stream_array_of_X) = Ok (VObj r) h' ->
      getattr (VObj r) "new_class_desc" h' = Ok (VObj d) h' ->
      NewArray_array_type (VObj r) h' = Ok (VBool false) h') /\
  heap array_of_X_entered !! 1%nat
  = Some (mkObj Cls.NewArray
            [("new_class_desc", VNone); ("size", VInt 0);
             ("type", VStr ""); ("contents", VList [])]) /\
  decode_object false 2 array_of_X_entered = Ok (VObj 2) array_of_X_described /\
  class_of (VObj 2) array_of_X_described
  = Ok (Some Cls.NewClassDesc) array_of_X_described /\
  unwrap_reference (VObj 2) array_of_X_described
  = Ok (VObj 2) array_of_X_described /\
  getattr (VObj 2) "class_name" array_of_X_described
  = Ok (VStr "X") array_of_X_described /\
  NewArray_decode false (decode_object false 2) (VObj 1) array_of_X_entered
  = (setattr (VObj 1) "new_class_desc" (VObj 2) ;;;
     add_reference (VObj 1) ;;;
     setattr (VObj 1) "type" (VBool false) ;;;
     size <- read_int false (decode_object false 2) ;;
     setattr (VObj 1) "size" (VInt size) ;;;
     contents <- repeatM (Z.to_nat size)
                   (content <- decode_object false 2 ;;
                    unwrap_reference content) ;;
     setattr (VObj 1) "contents" (VList contents)) array_of_X_described.
Proof.
  destruct array_descriptor_check as (Hraise & Hfalse & Hdispatch). split; [|split].
  - apply (Hraise false (decode_object false 1) (VObj 1) _ (VObj 1) _ (Some Cls.Null));
      vm_compute; reflexivity.
  - intros h' r d Hdec Hd. vm_compute in Hdec. inversion Hdec; subst r h'. clear Hdec.
    vm_compute in Hd. inversion Hd; subst d. clear Hd.
    apply (Hfalse _ _ (VObj 2) (Some Cls.NewClassDesc));
      [vm_compute; reflexivity | vm_compute; reflexivity |].
    right. exists "X". split; vm_compute; reflexivity.
  - split; [vm_compute; reflexivity|]. split; [vm_compute; reflexivity|].
    split; [vm_compute; reflexivity|]. split; [vm_compute; reflexivity|].
    split; [vm_compute; reflexivity|].
    apply (Hdispatch false 2%nat 1%nat
             (mkObj Cls.NewArray
                [("new_class_desc", VNone); ("size", VInt 0);
                 ("type", VStr ""); ("contents", VList [])])
             array_of_X_entered (VObj 2) array_of_X_described
             (Some Cls.NewClassDesc) (VObj 2) (Some Cls.NewClassDesc));
      try (vm_compute; reflexivity).
    right. exists "X". split; vm_compute; reflexivity.
Defined.

(** ** Block-data frames *)

Lemma io_read_Ok n h out h' :
  io_read n h = Ok out h' ->
  heap h' = heap h /\ block_mode h' = block_mode h /\ (length out <= n)%nat.
Proof.
  unfold io_read, BytesIO_read. intros H. inversion H; subst. simpl.
  repeat split. rewrite length_take. lia.
Qed.

Section Frames.
Variable complex_formats : bool.
Variable rec : M value.

Lemma BlockData_read_size_stream self h z h' :
  block_mode h = false ->
  BlockData_read_size complex_formats rec self h = Ok z h' ->
  heap h' = heap h /\ block_mode h' = false.
Proof.
  intros Hm H. unfold BlockData_read_size in H.
  apply bind_Ok in H as (c & h1 & Hc & H). apply class_of_Ok in Hc as [-> _].
  destruct (is_class c Cls.BlockDataLong).
  - apply read_int_stream_Ok in H as ->; auto.
  - apply read_byte_stream_Ok in H as [-> _]; auto.
Qed.

(** In stream mode [BlockData.decode] fills a new frame object. *)
Lemma BlockData_decode_stream a c h u h' :
  block_mode h = false ->
  heap h !! a
  = Some (mkObj c [("size", VInt 0); ("content", VStr ""); ("io", VNone)]) ->
  BlockData_decode complex_formats rec (VObj a) h = Ok u h' ->
  exists o size, heap h' !! a = Some o /\ cls o = c /\ frame_object o size.
Proof.
  intros Hm Ha H. unfold BlockData_decode in H.
  assert (Hlt : (a < length (heap h))%nat) by (eapply lookup_lt_Some; eauto).
  apply bind_Ok in H as (size & h1 & Hs & H).
  apply BlockData_read_size_stream in Hs as [Hh1 Hm1]; [|assumption].
  apply bind_Ok in H as ([] & h2 & Hset & H).
  rewrite (setattr_here a _ "size" _ h1) in Hset by (rewrite Hh1; exact Ha).
  inversion Hset; subst h2. clear Hset. simpl in H.
  destruct (size =? 0) eqn:Ez.
  - apply ret_Ok in H as [_ ->]. apply Z.eqb_eq in Ez. subst size. simpl.
    rewrite list_lookup_insert_eq by (rewrite Hh1; exact Hlt).
    eexists _, 0. split; [reflexivity|]. split; [reflexivity|].
    split; [reflexivity|]. left. split; reflexivity.
  - apply bind_Ok in H as (content & h3 & Hrd & H).
    apply io_read_Ok in Hrd as (Hh3 & _ & _). simpl in Hh3.
    apply bind_Ok in H as ([] & h4 & Hset & H).
    erewrite (setattr_here a _ "content" _ h3) in Hset
      by (rewrite Hh3; apply list_lookup_insert_eq; rewrite Hh1; exact Hlt).
    inversion Hset; subst h4. clear Hset.
    destruct (Z.eqb_spec (Z.of_nat (length content)) size) as [Hsz|];
      [|destruct content; discriminate].
    destruct content as [|b0 content]; [discriminate|].
    cbn [truthy negb orb] in H.
    erewrite (setattr_here a) in H
      by (simpl; apply list_lookup_insert_eq; rewrite Hh3, length_insert, Hh1; exact Hlt).
    inversion H; subst h'. clear H. simpl.
    rewrite list_lookup_insert_eq
      by (rewrite length_insert, Hh3, length_insert, Hh1; exact Hlt).
    eexists _, size. split; [reflexivity|]. split; [reflexivity|].
    split; [reflexivity|]. right. exists (b0 :: content).
    split; [reflexivity|]. split; [exact Hsz|]. rewrite <- Hsz. simpl. lia.
Qed.
End Frames.

Lemma tag_class_frame tc c :
  tag_class tc = Some c ->
  in_classes (Some c) [Cls.BlockData; Cls.BlockDataLong] = true ->
  (tc = Constants.TC_BLOCKDATA /\ c = Cls.BlockData) \/
  (tc = Constants.TC_BLOCKDATALONG /\ c = Cls.BlockDataLong).
Proof.
  unfold tag_class.
  repeat match goal with
         | |- context [if ?a =? ?b then _ else _] =>
             destruct (Z.eqb_spec a b)
         end;
    intros E; inversion E; subst c; simpl; intros Hc; try discriminate; auto.
Qed.

(** A record of class BlockData or BlockDataLong that tag dispatch returns
    in stream mode is a filled frame. *)
Lemma decode_object_frame cf fuel h v h' c :
  block_mode h = false ->
  decode_object cf (S fuel) h = Ok v h' ->
  class_of v h' = Ok c h' ->
  in_classes c [Cls.BlockData; Cls.BlockDataLong] = true ->
  exists a o size, v = VObj a /\ heap h' !! a = Some o /\ frame_object o size.
Proof.
  intros Hm H Hc Hin. simpl in H.
  destruct (decode_object_body_class cf _ fuel (decode_object_evolves cf fuel) _ _ _ H)
    as (tc & h1 & Hr & Hcl).
  destruct (tag_class tc) as [c'|] eqn:Et.
  2:{ destruct Hcl as [-> _]. inversion Hc; subst c. discriminate. }
  destruct Hcl as (o & -> & Ho & Ecls).
  apply class_of_Ok in Hc as (_ & [(_ & Hn)|(a & o' & Ea & Ho' & ->)]);
    [exfalso; eapply Hn; reflexivity|].
  inversion Ea; subst a. clear Ea. rewrite Ho in Ho'. inversion Ho'; subst o'. clear Ho'.
  rewrite Ecls in Hin.
  pose proof Hr as Hr'. apply read_byte_stream_Ok in Hr' as [-> _]; [|assumption].
  unfold decode_object_body, bind at 1 in H. rewrite Hr in H.
  destruct (tag_class_frame _ _ Et Hin) as [[-> ->]|[-> ->]]; simpl in H.
  - unfold new_BlockData in H. apply bind_Ok in H as (x & h2 & Hal & H).
    unfold alloc in Hal. inversion Hal; subst x h2. clear Hal.
    apply bind_Ok in H as ([] & h3 & Hdec & H). apply ret_Ok in H as [_ ->].
    apply BlockData_decode_stream with (c := Cls.BlockData) in Hdec;
      [|exact Hm|simpl; apply list_lookup_middle; reflexivity].
    destruct Hdec as (o'' & size & Ho'' & _ & Hf). eauto 6.
  - unfold new_BlockDataLong in H. apply bind_Ok in H as (x & h2 & Hal & H).
    unfold alloc in Hal. inversion Hal; subst x h2. clear Hal.
    apply bind_Ok in H as ([] & h3 & Hdec & H). apply ret_Ok in H as [_ ->].
    apply BlockData_decode_stream with (c := Cls.BlockDataLong) in Hdec;
      [|exact Hm|simpl; apply list_lookup_middle; reflexivity].
    destruct Hdec as (o'' & size & Ho'' & _ & Hf). eauto 6.
Qed.

Lemma set_block_data_mode_Ok b h v h' :
  set_block_data_mode b h = Ok v h' ->
  block_mode h' = b /\ heap h' = heap h /\ io h' = io h.
Proof.
  unfold set_block_data_mode, bind, get, modify, ret. intros H.
  destruct (Bool.eqb b (block_mode h)) eqn:E.
  - inversion H; subst. apply Bool.eqb_prop in E. auto.
  - destruct b; simpl in H.
    + inversion H; subst. auto.
    + destruct (pos h <? end_ h); inversion H; subst. auto.
Qed.

Lemma skip_loop_nonpositive k n h : n <= 0 -> skip_loop k n h = Ok tt h.
Proof.
  intros Hn. destruct k; simpl; [reflexivity|].
  destruct (Z.ltb_spec 0 n); [lia|reflexivity].
Qed.

(** [skip]: the loop ends after its first turn, [seek] having returned
    the new position, which is at least [n]. *)
Lemma skip_positive n h :
  0 < n ->
  Z.of_nat (cur (io h)) + n <= PY_SSIZE_T_MAX ->
  skip n h
  = Ok tt (with_io (mkBytesIO (buf (io h)) (cur (io h) + Z.to_nat n)) h).
Proof.
  intros Hn Hmax. unfold skip. destruct (Z.to_nat n) as [|k] eqn:Ek; [lia|].
  cbn [skip_loop]. destruct (Z.ltb_spec 0 n) as [_|]; [|lia].
  unfold bind, io_seek_cur, BytesIO_seek_cur.
  unfold PY_SSIZE_T_MIN.
  destruct (Z.ltb_spec n (- 2 ^ 63)) as [|_]; [lia|].
  destruct (Z.ltb_spec PY_SSIZE_T_MAX n) as [|_]; [lia|]. cbn [orb].
  destruct (Z.ltb_spec (PY_SSIZE_T_MAX - Z.of_nat (cur (io h))) n) as [|_]; [lia|].
  destruct (Z.eqb_spec (Z.max 0 (Z.of_nat (cur (io h)) + n)) 0) as [E|_]; [lia|].
  rewrite skip_loop_nonpositive by lia.
  unfold with_io. simpl. do 3 f_equal. lia.
Qed.

(** Past [PY_SSIZE_T_MAX] the first [seek] raises. *)
Lemma skip_overflow n h :
  0 < n ->
  PY_SSIZE_T_MAX < Z.of_nat (cur (io h)) + n ->
  skip n h = Raise OverflowError h.
Proof.
  intros Hn Hmax. unfold skip. destruct (Z.to_nat n) as [|k] eqn:Ek; [lia|].
  cbn [skip_loop]. destruct (Z.ltb_spec 0 n) as [_|]; [|lia].
  unfold bind, io_seek_cur, BytesIO_seek_cur.
  destruct ((n <? PY_SSIZE_T_MIN) || (PY_SSIZE_T_MAX <? n)); [reflexivity|].
  destruct (Z.ltb_spec (PY_SSIZE_T_MAX - Z.of_nat (cur (io h))) n) as [_|]; [reflexivity|lia].
Qed.

(** [refill], called when the frame is used up, reads exactly one record
    from the stream and, if it is block data, makes it the frame: [pos] is
    0 and [end] its size. *)
Lemma refill_adopts_frame cf fuel h u h1 :
  pos h = end_ h ->
  refill (decode_object cf fuel) h = Ok u h1 ->
  block_mode h1 = true /\ pos h1 = 0 /\
  exists a o, block_data h1 = VObj a /\ heap h1 !! a = Some o /\
              frame_object o (end_ h1).
Proof.
  intros Hpe H. unfold refill in H.
  apply bind_Ok in H as (h0 & h0' & Hg & H). inversion Hg; subst h0 h0'. clear Hg.
  destruct (block_mode h) eqn:Hm; cbn [negb] in H; [|discriminate].
  apply bind_Ok in H as (n & h0 & Hn & H).
  unfold get_unread, bind, get, ret in Hn. inversion Hn; subst n h0. clear Hn.
  apply bind_Ok in H as ([] & h0 & Hsk & H).
  unfold skip in Hsk. rewrite skip_loop_nonpositive in Hsk by lia.
  inversion Hsk; subst h0. clear Hsk.
  apply bind_Ok in H as (v0 & ha & Hoff & H).
  apply set_block_data_mode_Ok in Hoff as (Hma & _ & _).
  apply bind_Ok in H as (frame & hb & Hdec & H).
  apply bind_Ok in H as (v1 & hc & Hon & H).
  apply set_block_data_mode_Ok in Hon as (Hmc & Hhc & _).
  apply bind_Ok in H as (c & hc' & Hc & H).
  pose proof Hc as Hc'. apply class_of_Ok in Hc' as [-> _].
  destruct (in_classes c [Cls.BlockData; Cls.BlockDataLong]) eqn:Hin;
    cbn [negb] in H; [|discriminate].
  destruct fuel as [|fuel]; [discriminate|].
  assert (Hc0 : class_of frame hb = Ok c hb).
  { clear - Hc Hhc. unfold class_of in *. destruct frame; try (inversion Hc; reflexivity).
    rewrite Hhc in Hc. destruct (heap hb !! a); inversion Hc; reflexivity. }
  destruct (decode_object_frame cf fuel ha frame hb c Hma Hdec Hc0 Hin)
    as (a & o & size & -> & Ho & Hsz & Hio).
  rewrite <- Hhc in Ho.
  unfold bind, modify, get in H. simpl in H.
  unfold getattr in H. simpl in H. rewrite Ho, Hsz in H. simpl in H.
  inversion H; subst h1. clear H. simpl.
  split; [assumption|]. split; [reflexivity|].
  exists a, o. repeat split; auto.
Qed.

Lemma setattr_io_Ok v x h u h' :
  setattr v "io" x h = Ok u h' ->
  io h' = io h /\ block_data h' = block_data h /\ pos h' = pos h /\
  end_ h' = end_ h /\ block_mode h' = block_mode h /\
  exists a o, v = VObj a /\ heap h !! a = Some o /\
              heap h' !! a = Some (mkObj (cls o) (attr_set "io" x (attrs o))).
Proof.
  intros H. apply setattr_Ok in H as (a & o & -> & Ha & ->). simpl.
  repeat split. exists a, o. repeat split; auto.
  apply list_lookup_insert_eq. eapply lookup_lt_Some; eauto.
Qed.

Section BlockRead.
Variable cf : bool.
Variable fuel : nat.

(** The part of [read_struct] that follows the refill, on a handler whose
    frame is in step: it reads from the frame only. *)
Lemma read_struct_in_frame fmt h t h' :
  block_mode h = true ->
  (pos h = end_ h -> False) ->
  frame_synced h ->
  read_struct cf (decode_object cf fuel) fmt h = Ok t h' ->
  block_mode h' = true /\ frame_synced h' /\ pos h' <= end_ h' /\
  io h' = io h /\ block_data h' = block_data h.
Proof.
  intros Hm Hne (a & o & b & Hbd & Ho & Hio & Hp & He & Hle) H.
  unfold read_struct in H.
  apply bind_Ok in H as (ln & h0 & Hc & H).
  destruct (Struct.calcsize cf fmt) as [ln'|]; [|discriminate].
  apply ret_Ok in Hc as [-> ->].
  apply bind_Ok in H as (h0 & h0' & Hg & H). inversion Hg; subst h0 h0'. clear Hg.
  rewrite Hm in H. destruct (Z.eqb_spec (pos h) (end_ h)) as [E|_]; [tauto|].
  cbn [andb] in H.
  apply bind_Ok in H as ([] & h0 & Hr & H). apply ret_Ok in Hr as [_ ->].
  apply bind_Ok in H as (h0 & h0' & Hg & H). inversion Hg; subst h0 h0'. clear Hg.
  rewrite Hm in H.
  apply bind_Ok in H as (ba & h1 & Hba & H).
  apply bind_Ok in Hba as (bio & h0 & Hget & Hba).
  rewrite Hbd in Hget, Hba.
  apply getattr_Ok in Hget as (-> & a' & o' & Ea & Ho' & Hio').
  inversion Ea; subst a'. clear Ea. rewrite Ho in Ho'. inversion Ho'; subst o'. clear Ho'.
  rewrite Hio in Hio'. inversion Hio'; subst bio. clear Hio'.
  unfold BytesIO_read in Hba.
  apply bind_Ok in Hba as ([] & h2 & Hset & Hba). apply ret_Ok in Hba as [-> ->].
  apply setattr_io_Ok in Hset
    as (Eio & Ebd & Epos & Eend & Emode & a' & o' & Ea & Ho' & Hnew).
  inversion Ea; subst a'. clear Ea. rewrite Ho in Ho'. inversion Ho'; subst o'. clear Ho'.
  destruct (Nat.eqb_spec (length (take ln' (drop (cur b) (buf b)))) ln') as [Hlen|];
    cbn [negb] in H; [|discriminate].
  apply bind_Ok in H as ([] & h3 & Hmod & H).
  unfold modify in Hmod. inversion Hmod; subst h3. clear Hmod.
  assert (Hst : h' = with_pos (pos h2 + Z.of_nat ln') h2).
  { destruct (Struct.unpack cf fmt (take ln' (drop (cur b) (buf b))));
      inversion H; reflexivity. }
  subst h'. clear H. simpl.
  rewrite length_take, length_drop in Hlen.
  split; [congruence|]. split; [|split; [lia|split; congruence]].
  eexists a, _, _. simpl.
  split; [congruence|]. split; [exact Hnew|]. simpl.
  split; [apply attr_get_set_eq|]. simpl.
  rewrite length_take, length_drop. repeat split; lia.
Qed.

(** ... and when the frame has fewer bytes left than the format needs, it
    raises an end-of-stream error without looking for another frame. *)
Lemma read_struct_frame_short fmt ln h :
  block_mode h = true ->
  (pos h = end_ h -> False) ->
  frame_synced h ->
  Struct.calcsize cf fmt = Some ln ->
  end_ h - pos h < Z.of_nat ln ->
  exists h',
    read_struct cf (decode_object cf fuel) fmt h
    = Raise (EOFError "Unexpected end of stream") h' /\
    io h' = io h /\ block_data h' = block_data h.
Proof.
  intros Hm Hne (a & o & b & Hbd & Ho & Hio & Hp & He & Hle) Hc Hshort.
  unfold read_struct, bind at 1. rewrite Hc. cbn [lift_opt ret].
  unfold bind at 1, get at 1. rewrite Hm.
  destruct (Z.eqb_spec (pos h) (end_ h)) as [E|_]; [tauto|]. cbn [andb].
  unfold bind at 1, ret at 1. unfold bind at 1, get at 1. rewrite Hm.
  unfold bind at 1. unfold bind at 1. rewrite Hbd.
  unfold getattr at 1. rewrite Ho, Hio. unfold BytesIO_read.
  unfold bind at 1. rewrite (setattr_here a o) by exact Ho. cbn [ret].
  rewrite length_take, length_drop.
  destruct (Nat.eqb_spec (ln `min` (length (buf b) - cur b)) ln) as [El|_]; [lia|].
  cbn [negb raise]. eexists. split; [reflexivity|]. split; [reflexivity|exact Hbd].
Qed.

(** A read on a used-up frame is the refill followed by the read on the
    new frame. *)
Lemma read_struct_refill fmt ln h u h1 :
  block_mode h = true ->
  pos h = end_ h ->
  Struct.calcsize cf fmt = Some ln ->
  refill (decode_object cf fuel) h = Ok u h1 ->
  (pos h1 = end_ h1 -> False) ->
  read_struct cf (decode_object cf fuel) fmt h
  = read_struct cf (decode_object cf fuel) fmt h1.
Proof.
  intros Hm Hpe Hc Hrf Hne.
  destruct (refill_adopts_frame cf fuel h u h1 Hpe Hrf) as (Hm1 & _).
  unfold read_struct. rewrite Hc. cbn [lift_opt].
  unfold bind at 1. cbn [ret]. symmetry. unfold bind at 1. cbn [ret]. symmetry.
  unfold bind at 1, get at 1. symmetry. unfold bind at 1, get at 1. symmetry.
  rewrite Hm, Hm1. rewrite (proj2 (Z.eqb_eq _ _) Hpe).
  destruct (Z.eqb_spec (pos h1) (end_ h1)) as [E|_]; [tauto|]. cbn [andb].
  unfold bind at 1. rewrite Hrf. destruct u. reflexivity.
Qed.
End BlockRead.

Section RefillOnce.
Variable cf : bool.
Variable fuel : nat.

Lemma refill_synced h u h1 :
  pos h = end_ h ->
  refill (decode_object cf fuel) h = Ok u h1 ->
  end_ h1 <> 0 ->
  block_mode h1 = true /\ frame_synced h1 /\ pos h1 = 0.
Proof.
  intros Hpe Hrf Hnz.
  destruct (refill_adopts_frame cf fuel h u h1 Hpe Hrf)
    as (Hm1 & Hp1 & a & o & Hbd & Ho & Hsz & [[Hz _]|(content & Hio & Hlen & _)]);
    [contradiction|].
  split; [assumption|]. split; [|assumption].
  exists a, o, (mkBytesIO content 0). simpl. repeat split; auto; lia.
Qed.

(** When the frame adopted is empty its [io] is [None], and the read
    raises [AttributeError]. *)
Lemma read_struct_empty_frame fmt ln h u h1 :
  block_mode h = true ->
  pos h = end_ h ->
  Struct.calcsize cf fmt = Some ln ->
  refill (decode_object cf fuel) h = Ok u h1 ->
  end_ h1 = 0 ->
  read_struct cf (decode_object cf fuel) fmt h = Raise AttributeError h1.
Proof.
  intros Hm Hpe Hc Hrf Hz.
  destruct (refill_adopts_frame cf fuel h u h1 Hpe Hrf)
    as (Hm1 & Hp1 & a & o & Hbd & Ho & Hsz & [[_ Hio]|(content & _ & _ & Hnz)]);
    [|contradiction].
  unfold read_struct. rewrite Hc. cbn [lift_opt].
  unfold bind at 1. cbn [ret]. unfold bind at 1, get at 1.
  rewrite Hm, (proj2 (Z.eqb_eq _ _) Hpe). cbn [andb].
  unfold bind at 1. rewrite Hrf.
  unfold bind at 1, get at 1. rewrite Hm1.
  unfold bind at 1. unfold bind at 1. rewrite Hbd.
  unfold getattr. rewrite Ho, Hio. reflexivity.
Qed.

Lemma read_struct_Ok_refill fmt h t h' :
  block_mode h = true ->
  pos h = end_ h ->
  read_struct cf (decode_object cf fuel) fmt h = Ok t h' ->
  exists ln u h1,
    Struct.calcsize cf fmt = Some ln /\ refill (decode_object cf fuel) h = Ok u h1.
Proof.
  intros Hm Hpe H. unfold read_struct in H.
  apply bind_Ok in H as (ln & h0 & Hc & H).
  destruct (Struct.calcsize cf fmt) as [ln'|]; [|discriminate].
  apply ret_Ok in Hc as [-> ->].
  apply bind_Ok in H as (h0 & h0' & Hg & H). inversion Hg; subst h0 h0'. clear Hg.
  rewrite Hm, (proj2 (Z.eqb_eq _ _) Hpe) in H. cbn [andb] in H.
  apply bind_Ok in H as (u & h1 & Hrf & _). eauto.
Qed.
End RefillOnce.

(** C10 (as amended): in block mode a call of [read_struct] refills at
    most once, before it reads.  When the frame is used up it adopts one
    frame; if that frame is not empty and has fewer bytes than the format
    needs, the call raises an end-of-stream error and leaves the stream
    where the refill left it; if the call returns, the frame is still the
    one adopted and the stream has not moved further.  Every call that
    returns in block mode leaves [pos] and [end] in step with the frame,
    with [pos <= end]. *)
Theorem read_struct_refills_once :
  (forall cf fuel fmt ln h u h1,
      block_mode h = true -> pos h = end_ h ->
      Struct.calcsize cf fmt = Some ln ->
      refill (decode_object cf fuel) h = Ok u h1 ->
      end_ h1 <> 0 -> end_ h1 < Z.of_nat ln ->
      exists h2,
        read_struct cf (decode_object cf fuel) fmt h
        = Raise (EOFError "Unexpected end of stream") h2 /\
        io h2 = io h1 /\ block_data h2 = block_data h1) /\
  (forall cf fuel fmt h u h1 t h',
      block_mode h = true -> pos h = end_ h ->
      refill (decode_object cf fuel) h = Ok u h1 ->
      read_struct cf (decode_object cf fuel) fmt h = Ok t h' ->
      io h' = io h1 /\ block_data h' = block_data h1) /\
  (forall cf fuel fmt h t h',
      block_mode h = true -> frame_ok h ->
      read_struct cf (decode_object cf fuel) fmt h = Ok t h' ->
      block_mode h' = true /\ frame_synced h' /\ pos h' <= end_ h').
Proof.
  split; [|split].
  - intros cf fuel fmt ln h u h1 Hm Hpe Hc Hrf Hnz Hshort.
    destruct (refill_synced cf fuel h u h1 Hpe Hrf Hnz) as (Hm1 & Hsync & Hp1).
    rewrite (read_struct_refill cf fuel fmt ln h u h1 Hm Hpe Hc Hrf) by lia.
    apply (read_struct_frame_short cf fuel fmt ln h1); auto; lia.
  - intros cf fuel fmt h u h1 t h' Hm Hpe Hrf H.
    destruct (read_struct_Ok_refill cf fuel fmt h t h' Hm Hpe H) as (ln & u' & h1' & Hc & Hrf').
    rewrite Hrf in Hrf'. inversion Hrf'; subst u' h1'. clear Hrf'.
    destruct (Z.eq_dec (end_ h1) 0) as [Hz|Hnz].
    + rewrite (read_struct_empty_frame cf fuel fmt ln h u h1 Hm Hpe Hc Hrf Hz) in H.
      discriminate.
    + destruct (refill_synced cf fuel h u h1 Hpe Hrf Hnz) as (Hm1 & Hsync & Hp1).
      rewrite (read_struct_refill cf fuel fmt ln h u h1 Hm Hpe Hc Hrf) in H by lia.
      apply read_struct_in_frame in H; auto; [tauto|lia].
  - intros cf fuel fmt h t h' Hm Hok H.
    destruct (Z.eq_dec (pos h) (end_ h)) as [Hpe|Hne].
    + destruct (read_struct_Ok_refill cf fuel fmt h t h' Hm Hpe H) as (ln & u & h1 & Hc & Hrf).
      destruct (Z.eq_dec (end_ h1) 0) as [Hz|Hnz].
      * rewrite (read_struct_empty_frame cf fuel fmt ln h u h1 Hm Hpe Hc Hrf Hz) in H.
        discriminate.
      * destruct (refill_synced cf fuel h u h1 Hpe Hrf Hnz) as (Hm1 & Hsync & Hp1).
        rewrite (read_struct_refill cf fuel fmt ln h u h1 Hm Hpe Hc Hrf) in H by lia.
        apply read_struct_in_frame in H; auto; [tauto|lia].
    + destruct Hok as [Hpe|Hsync]; [contradiction|].
      apply read_struct_in_frame in H; auto. tauto.
Qed.

Lemma read_struct_refills_once_witness :
  block_mode (opened_block_mode false stream_int_two_frames) = true /\
  pos (opened_block_mode false stream_int_two_frames)
  = end_ (opened_block_mode false stream_int_two_frames) /\
  refill (decode_object false 1) (opened_block_mode false stream_int_two_frames)
  = Ok tt (refilled false 1 stream_int_two_frames) /\
  (exists h2,
      read_struct false (decode_object false 1) ">HH"
        (opened_block_mode false stream_int_two_frames)
      = Raise (EOFError "Unexpected end of stream") h2 /\
      io h2 = io (refilled false 1 stream_int_two_frames) /\
      block_data h2 = block_data (refilled false 1 stream_int_two_frames)) /\
  (exists t h',
      read_struct false (decode_object false 1) ">B"
        (opened_block_mode false stream_int_two_frames) = Ok t h' /\
      (io h' = io (refilled false 1 stream_int_two_frames) /\
       block_data h' = block_data (refilled false 1 stream_int_two_frames)) /\
      block_mode h' = true /\ frame_synced h' /\ pos h' <= end_ h').
Proof.
  destruct read_struct_refills_once as (Hshort & Hone & Hinv).
  split; [reflexivity|]. split; [reflexivity|]. split; [vm_compute; reflexivity|].
  split.
  - apply (Hshort false 1%nat ">HH" 4%nat _ tt);
      try (vm_compute; reflexivity). vm_compute. discriminate.
  - do 2 eexists. split; [vm_compute; reflexivity|]. split.
    + apply (Hone false 1%nat ">B" (opened_block_mode false stream_int_two_frames) tt
               _ [VInt 0]);
        vm_compute; reflexivity.
    + apply (Hinv false 1%nat ">B" (opened_block_mode false stream_int_two_frames)
               [VInt 0]);
        [reflexivity|left; reflexivity|vm_compute; reflexivity].
Defined.

(** C10 (counterexample): outside block mode [read_struct] moves [pos]
    too, and [end] stays 0: the read of the header takes [pos] from 0 to 4,
    past [end]. *)
Lemma stream_read_moves_pos_past_end :
  pos (Handler_new (mkBytesIO stream_back_reference 0))
  <= end_ (Handler_new (mkBytesIO stream_back_reference 0)) /\
  exists t h',
    read_struct false (decode_object false 0) ">HH"
      (Handler_new (mkBytesIO stream_back_reference 0)) = Ok t h' /\
    pos h' = 4 /\ end_ h' = 0 /\ ~ pos h' <= end_ h'.
Proof.
  split; [vm_compute; discriminate|].
  do 2 eexists. split; [vm_compute; reflexivity|].
  split; [reflexivity|]. split; [reflexivity|]. vm_compute. intros H. now apply H.
Qed.

(** On a frame of length zero the read raises [AttributeError], not an
    end-of-stream error: [BlockData.decode] returns before it gives the
    frame an [io]. *)
Example empty_frame_attribute_error :
  exists h',
    read_byte false (decode_object false 1)
      (opened_block_mode false stream_empty_frame) = Raise AttributeError h' /\
    avail h' = [x41].
Proof. eexists. split; vm_compute; reflexivity. Qed.

(** The int 5 read across two frames of two bytes. *)
Example int_across_two_frames :
  exists h',
    read_int false (decode_object false 1)
      (opened_block_mode false stream_int_two_frames) = Ok 5 h' /\
    avail h' = [] /\ pos h' = 2 /\ end_ h' = 2.
Proof. eexists. split; [vm_compute; reflexivity|]. evaluate. Qed.

(** ** Primitives across frames *)

(** C1 (the code departs from the claim): [read_char], [read_float] and
    [read_double] are single calls of [read_struct], not two reads of the
    next smaller size.  With the bytes [00 41] in two frames of one byte,
    [read_char] raises an end-of-stream error at the frame boundary, where
    [read_short] returns [0x41]; on the same bytes in stream mode it raises
    [ValueError].  [read_float] and [read_double] raise [struct.error]
    where ['F'] and ['D'] are no format characters, and where they are,
    [read_float] takes eight bytes at once: it returns a complex in stream
    mode and raises an end-of-stream error on two frames of four bytes. *)
Theorem char_and_float_not_split :
  (exists h,
      read_char false (decode_object false 1)
        (opened_block_mode false stream_char_two_frames)
      = Raise (EOFError "Unexpected end of stream") h) /\
  (exists h,
      read_short false (decode_object false 1)
        (opened_block_mode false stream_char_two_frames) = Ok 0x41 h) /\
  read_char false (decode_object false 1) (opened false stream_char)
  = Raise ValueError (advance 2 (opened false stream_char)) /\
  read_short false (decode_object false 1) (opened false stream_char)
  = Ok 0x41 (advance 2 (opened false stream_char)) /\
  read_float false (decode_object false 1) (opened false stream_float)
  = Raise struct_error (opened false stream_float) /\
  read_double false (decode_object false 1) (opened false stream_float)
  = Raise struct_error (opened false stream_float) /\
  read_float true (decode_object true 1) (opened true stream_float)
  = Ok (VComplex [x3f; x80; x00; x00] [x00; x00; x00; x00])
      (advance 8 (opened true stream_float)) /\
  (exists h,
      read_float true (decode_object true 1)
        (opened_block_mode true stream_float_two_frames)
      = Raise (EOFError "Unexpected end of stream") h).
Proof. evaluate. Qed.

(** ** Integers and booleans read alike in both modes *)

Lemma length_byte_val f : valid_frame f -> byte_val (length_byte f) = Z.of_nat (length f).
Proof.
  intros [H1 H2]. unfold length_byte, byte_val.
  destruct (Byte.of_N (N.of_nat (length f))) as [b|] eqn:E.
  - apply Byte.to_of_N in E. simpl. rewrite E. lia.
  - apply Byte.of_N_None_iff in E. lia.
Qed.

Section Transparency.
Variable cf : bool.
Variable fuel : nat.

(** Reading from a frame that has enough bytes left. *)
Lemma read_struct_frame rec fmt ln h a o b :
  block_mode h = true ->
  block_data h = VObj a -> heap h !! a = Some o ->
  attr_get "io" (attrs o) = Some (VBytesIO b) ->
  (pos h = end_ h -> False) ->
  Struct.calcsize cf fmt = Some ln ->
  (ln <= length (drop (cur b) (buf b)))%nat ->
  read_struct cf rec fmt h
  = lift_opt struct_error (Struct.unpack cf fmt (take ln (drop (cur b) (buf b))))
      (with_pos (pos h + Z.of_nat ln)
         (with_heap
            (<[a := mkObj (cls o)
                      (attr_set "io" (VBytesIO (mkBytesIO (buf b) (cur b + ln)))
                         (attrs o))]> (heap h)) h)).
Proof.
  intros Hm Hbd Ho Hio Hne Hc Hle.
  unfold read_struct, bind at 1. rewrite Hc. cbn [lift_opt ret].
  unfold bind at 1, get at 1. rewrite Hm.
  destruct (Z.eqb_spec (pos h) (end_ h)) as [E|_]; [tauto|]. cbn [andb].
  unfold bind at 1, ret at 1. unfold bind at 1, get at 1. rewrite Hm.
  unfold bind at 1. unfold bind at 1. rewrite Hbd.
  unfold getattr at 1. rewrite Ho, Hio. unfold BytesIO_read.
  unfold bind at 1. rewrite (setattr_here a o) by exact Ho. cbn [ret].
  rewrite length_take, Nat.min_l by exact Hle. rewrite Nat.eqb_refl. cbn [negb].
  unfold bind, modify. reflexivity.
Qed.

(** [BlockData.decode] on a short frame, in stream mode. *)
Lemma BlockData_decode_frame rec a h f rest :
  block_mode h = false ->
  heap h !! a
  = Some (mkObj Cls.BlockData [("size", VInt 0); ("content", VStr ""); ("io", VNone)]) ->
  avail h = length_byte f :: f ++ rest ->
  valid_frame f ->
  BlockData_decode cf rec (VObj a) h
  = Ok tt
      (with_heap
         (<[a := mkObj Cls.BlockData
                   [("size", VInt (Z.of_nat (length f))); ("content", VBytes f);
                    ("io", VBytesIO (mkBytesIO f 0))]]> (heap h))
         (with_io (mkBytesIO (buf (io h)) (cur (io h) + 1 + length f))
            (with_pos (pos h + 1) h))).
Proof.
  intros Hm Ha Hav Hf.
  assert (Hlt : (a < length (heap h))%nat) by (eapply lookup_lt_Some; eauto).
  unfold BlockData_decode, bind at 1. unfold BlockData_read_size, bind at 1.
  unfold class_of. rewrite Ha. cbn [cls is_class Cls.eqb].
  rewrite (read_byte_stream cf rec h _ _ Hm Hav).
  rewrite (length_byte_val f Hf).
  unfold bind at 1. rewrite (setattr_here a _ "size") by exact Ha.
  cbn [cls attrs attr_set String.eqb Ascii.eqb Bool.eqb].
  destruct (Z.eqb_spec (Z.of_nat (length f)) 0) as [E|_];
    [destruct Hf; lia|].
  unfold bind at 1. unfold io_read, BytesIO_read.
  cbn [io with_heap advance with_pos with_io buf cur].
  rewrite Nat2Z.id.
  assert (Hd : drop (cur (io h) + 1) (buf (io h)) = f ++ rest).
  { change (drop (cur (io h) + 1) (buf (io h))) with (avail (advance 1 h)).
    rewrite avail_advance, Hav. reflexivity. }
  rewrite Hd, take_app_length.
  unfold bind at 1. erewrite (setattr_here a _ "content")
    by (cbn [heap with_heap with_io]; apply list_lookup_insert_eq; exact Hlt).
  cbn [cls attrs attr_set String.eqb Ascii.eqb Bool.eqb].
  destruct f as [|b0 f]; [destruct Hf; simpl in *; lia|].
  cbn [truthy negb orb]. rewrite Z.eqb_refl. cbn [negb].
  erewrite (setattr_here a _ "io")
    by (cbn [heap with_heap with_io]; apply list_lookup_insert_eq;
        rewrite length_insert; exact Hlt).
  cbn [cls attrs attr_set String.eqb Ascii.eqb Bool.eqb heap with_heap with_io].
  rewrite !list_insert_insert_eq.
  reflexivity.
Qed.

Lemma set_block_data_mode_off h :
  block_mode h = true -> pos h = end_ h ->
  set_block_data_mode false h = Ok (VBool true) (with_block_mode false h).
Proof.
  intros Hm Hpe. unfold set_block_data_mode, bind, get, modify, ret.
  rewrite Hm. cbn [Bool.eqb]. destruct (Z.ltb_spec (pos h) (end_ h)); [lia|].
  reflexivity.
Qed.

Lemma set_block_data_mode_on h :
  block_mode h = false ->
  set_block_data_mode true h
  = Ok (VBool false) (with_block_mode true (with_end 0 (with_pos 0 h))).
Proof.
  intros Hm. unfold set_block_data_mode, bind, get, modify, ret.
  rewrite Hm. reflexivity.
Qed.

(** Tag dispatch on a short frame, in stream mode. *)
Lemma decode_object_frame_bytes h f rest :
  block_mode h = false ->
  avail h = frame_bytes f ++ rest ->
  valid_frame f ->
  decode_object cf (S fuel) h
  = Ok (VObj (length (heap h)))
      (with_heap
         (heap h ++
          [mkObj Cls.BlockData
             [("size", VInt (Z.of_nat (length f))); ("content", VBytes f);
              ("io", VBytesIO (mkBytesIO f 0))]])
         (with_io (mkBytesIO (buf (io h)) (cur (io h) + 2 + length f))
            (with_pos (pos h + 2) h))).
Proof.
  intros Hm Hav Hf. cbn [decode_object]. unfold decode_object_body.
  rewrite (bind_eq _ _ _ _ _ (read_byte_stream cf _ h _ _ Hm Hav)).
  change (byte_val x77) with 119.
  cbn [Z.eqb Pos.eqb Constants.TC_ARRAY Constants.TC_BLOCKDATA].
  unfold new_BlockData. erewrite bind_eq by reflexivity.
  erewrite bind_eq.
  2:{ apply (BlockData_decode_frame _ (length (heap h)) _ f rest).
      - exact Hm.
      - cbn [heap with_heap advance with_pos with_io]. apply list_lookup_middle. reflexivity.
      - change (avail (with_heap ?x ?y)) with (avail y).
        rewrite avail_advance, Hav. reflexivity.
      - exact Hf. }
  unfold ret. f_equal.
  unfold with_heap, with_io, with_pos, advance. simpl. f_equal.
  - f_equal. lia.
  - lia.
  - rewrite insert_app_r_alt by lia. rewrite Nat.sub_diag. reflexivity.
Qed.

(** The frame object and the handler once the frame [f] is adopted. *)
Lemma refill_frame h f rest :
  block_mode h = true ->
  pos h = end_ h ->
  avail h = frame_bytes f ++ rest ->
  valid_frame f ->
  refill (decode_object cf (S fuel)) h
  = Ok tt
      (mkHandler (mkBytesIO (buf (io h)) (cur (io h) + 2 + length f))
         0 (Z.of_nat (length f)) true (VObj (length (heap h)))
         (references h) (header h)
         (heap h ++
          [mkObj Cls.BlockData
             [("size", VInt (Z.of_nat (length f))); ("content", VBytes f);
              ("io", VBytesIO (mkBytesIO f 0))]])).
Proof.
  intros Hm Hpe Hav Hf. unfold refill.
  erewrite bind_eq by reflexivity. rewrite Hm. cbn [negb].
  erewrite bind_eq by reflexivity.
  erewrite bind_eq by (unfold skip; apply skip_loop_nonpositive; lia).
  erewrite bind_eq by (apply set_block_data_mode_off; assumption).
  erewrite bind_eq by (apply (decode_object_frame_bytes _ f rest); [reflexivity|exact Hav|exact Hf]).
  erewrite bind_eq by (apply set_block_data_mode_on; reflexivity).
  erewrite bind_eq.
  2:{ unfold class_of. cbn [heap with_heap with_io with_pos with_end with_block_mode].
      rewrite list_lookup_middle by reflexivity. reflexivity. }
  cbn [cls in_classes existsb is_class Cls.eqb orb negb].
  erewrite bind_eq by reflexivity. erewrite bind_eq by reflexivity.
  erewrite bind_eq by reflexivity.
  erewrite bind_eq.
  2:{ unfold getattr.
      cbn [block_data heap with_heap with_io with_pos with_end with_block_mode
           with_block_data].
      rewrite list_lookup_middle by reflexivity. reflexivity. }
  erewrite bind_eq by reflexivity.
  reflexivity.
Qed.

(** One byte read from a frame that has some left. *)
Lemma read_one_in_frame fmt h a o bio b left :
  Struct.calcsize cf fmt = Some 1%nat ->
  block_mode h = true ->
  block_data h = VObj a -> heap h !! a = Some o ->
  attr_get "io" (attrs o) = Some (VBytesIO bio) ->
  pos h = Z.of_nat (cur bio) -> end_ h = Z.of_nat (length (buf bio)) ->
  drop (cur bio) (buf bio) = b :: left ->
  exists h',
    read_struct cf (decode_object cf (S fuel)) fmt h
    = lift_opt struct_error (Struct.unpack cf fmt [b]) h' /\
    block_mode h' = true /\ frame_left h' left /\ avail h' = avail h.
Proof.
  intros Hc Hm Hbd Ho Hio Hp He Hd.
  assert (Hlen : (cur bio + S (length left) = length (buf bio))%nat).
  { pose proof (f_equal length Hd) as E. rewrite length_drop in E. simpl in E.
    lia. }
  rewrite (read_struct_frame _ fmt 1 h a o bio Hm Hbd Ho Hio)
    by (auto; try lia; rewrite Hd; simpl; lia).
  rewrite Hd. cbn [take]. eexists. split; [reflexivity|].
  split; [exact Hm|]. split; [|reflexivity].
  assert (Hd' : drop (cur bio + 1) (buf bio) = left).
  { rewrite <- drop_drop, Hd. reflexivity. }
  destruct left as [|b' left'].
  - left. split; [|reflexivity]. simpl in *. lia.
  - right. exists a, (mkObj (cls o)
                        (attr_set "io" (VBytesIO (mkBytesIO (buf bio) (cur bio + 1)))
                           (attrs o))),
      (mkBytesIO (buf bio) (cur bio + 1)).
    cbn [block_data heap pos end_ with_pos with_heap buf cur].
    split; [exact Hbd|].
    split; [apply list_lookup_insert_eq; eapply lookup_lt_Some; eauto|].
    split; [apply attr_get_set_eq|].
    split; [lia|]. split; [exact He|]. split; [now rewrite Hd'|discriminate].
Qed.

Lemma concat_cons_inv (frames : list (list byte)) b data :
  Forall valid_frame frames ->
  concat frames = b :: data ->
  exists f frames', frames = (b :: f) :: frames' /\ data = f ++ concat frames' /\
                    valid_frame (b :: f) /\ Forall valid_frame frames'.
Proof.
  intros Hv Hc. destruct frames as [|f0 frames']; [discriminate|].
  inversion Hv as [|? ? Hf0 Hv']; subst.
  destruct f0 as [|b0 f]; [destruct Hf0; simpl in *; lia|].
  simpl in Hc. inversion Hc; subst. eauto 6.
Qed.

(** One byte read in both modes. *)
Lemma read_one_same_data fmt rest hb hs b data :
  Struct.calcsize cf fmt = Some 1%nat ->
  same_data rest hb hs (b :: data) ->
  exists hb' hs',
    read_struct cf (decode_object cf (S fuel)) fmt hb
    = lift_opt struct_error (Struct.unpack cf fmt [b]) hb' /\
    read_struct cf (decode_object cf (S fuel)) fmt hs
    = lift_opt struct_error (Struct.unpack cf fmt [b]) hs' /\
    same_data rest hb' hs' data.
Proof.
  intros Hc (Hmb & Hms & left & frames & Hleft & Havb & Hv & Hdata & rest_s & Havs).
  assert (Hs : read_struct cf (decode_object cf (S fuel)) fmt hs
               = lift_opt struct_error (Struct.unpack cf fmt [b]) (advance 1 hs)).
  { rewrite (read_struct_stream cf _ fmt 1 hs Hms Hc) by (rewrite Havs; simpl; lia).
    rewrite Havs. reflexivity. }
  assert (Havs' : avail (advance 1 hs) = data ++ rest_s).
  { rewrite avail_advance, Havs. reflexivity. }
  destruct Hleft as [[Hpe ->]|(a & o & bio & Hbd & Ho & Hio & Hp & He & Hl & Hne)].
  - (* the frame is used up: the next one is adopted *)
    simpl in Hdata. symmetry in Hdata.
    destruct (concat_cons_inv _ _ _ Hv Hdata) as (f & frames' & -> & -> & Hf & Hv').
    assert (Hav : avail hb = frame_bytes (b :: f) ++ (wire frames' ++ rest)).
    { rewrite Havb. unfold wire. simpl. now rewrite <- app_assoc. }
    pose proof (refill_frame hb (b :: f) _ Hmb Hpe Hav Hf) as Hrf.
    set (h1 := mkHandler _ _ _ _ _ _ _ _) in Hrf.
    rewrite (read_struct_refill cf (S fuel) fmt 1 hb tt h1 Hmb Hpe Hc Hrf)
      by (unfold h1; simpl; lia).
    destruct (read_one_in_frame fmt h1 (length (heap hb))
                (mkObj Cls.BlockData
                   [("size", VInt (Z.of_nat (length (b :: f))));
                    ("content", VBytes (b :: f));
                    ("io", VBytesIO (mkBytesIO (b :: f) 0))])
                (mkBytesIO (b :: f) 0) b f Hc)
      as (hb' & Hrd & Hmb' & Hleft' & Hav');
      try reflexivity.
    { unfold h1. simpl. apply list_lookup_middle. reflexivity. }
    exists hb', (advance 1 hs). split; [exact Hrd|]. split; [exact Hs|].
    split; [exact Hmb'|]. split; [exact Hms|].
    exists f, frames'. split; [exact Hleft'|]. split.
    + rewrite Hav'.
      transitivity (drop (2 + length (b :: f)) (avail hb)).
      * unfold avail, h1. cbn [io buf cur]. rewrite drop_drop. f_equal. lia.
      * rewrite Hav. unfold frame_bytes.
        change (2 + length (b :: f))%nat
          with (length (x77 :: length_byte (b :: f) :: b :: f)).
        apply drop_app_length.
    + split; [exact Hv'|]. split; [reflexivity|]. eauto.
  - (* the frame has bytes left *)
    destruct left as [|b0 left]; [contradiction|].
    simpl in Hdata. inversion Hdata; subst b0 data. clear Hdata.
    destruct (read_one_in_frame fmt hb a o bio b left Hc Hmb Hbd Ho Hio Hp He)
      as (hb' & Hrd & Hmb' & Hleft' & Hav'); [now symmetry|].
    exists hb', (advance 1 hs). split; [exact Hrd|]. split; [exact Hs|].
    split; [exact Hmb'|]. split; [exact Hms|].
    exists left, frames. rewrite Hav'. repeat split; auto. eauto.
Qed.

Lemma reads_alike_ret {A} rest (a : A) : reads_alike rest 0 (ret a).
Proof. intros hb hs data Hs _. exists a, hb, hs. auto. Qed.

Lemma reads_alike_bind {A B} rest n n' (m : M A) (k : A -> M B) :
  reads_alike rest n m -> (forall a, reads_alike rest n' (k a)) ->
  reads_alike rest (n + n') (bind m k).
Proof.
  intros Hm Hk hb hs data Hs Hlen.
  destruct (Hm hb hs data Hs) as (a & hb1 & hs1 & Eb & Es & Hs1); [lia|].
  destruct (Hk a hb1 hs1 _ Hs1) as (b & hb2 & hs2 & Eb2 & Es2 & Hs2);
    [rewrite length_drop; lia|].
  exists b, hb2, hs2. rewrite (bind_eq _ _ _ _ _ Eb), (bind_eq _ _ _ _ _ Es).
  rewrite drop_drop in Hs2. auto.
Qed.

Lemma reads_alike_read_byte rest :
  reads_alike rest 1 (read_byte cf (decode_object cf (S fuel))).
Proof.
  intros hb hs data Hs Hlen. destruct data as [|b data]; [simpl in Hlen; lia|].
  destruct (read_one_same_data ">B" rest hb hs b data eq_refl Hs)
    as (hb' & hs' & Eb & Es & Hs').
  exists (byte_val b), hb', hs'. unfold read_byte.
  rewrite (bind_eq _ _ _ _ _ Eb), (bind_eq _ _ _ _ _ Es). auto.
Qed.

Lemma reads_alike_read_boolean rest :
  reads_alike rest 1 (read_boolean cf (decode_object cf (S fuel))).
Proof.
  intros hb hs data Hs Hlen. destruct data as [|b data]; [simpl in Hlen; lia|].
  destruct (read_one_same_data ">?" rest hb hs b data eq_refl Hs)
    as (hb' & hs' & Eb & Es & Hs').
  eexists _, hb', hs'. unfold read_boolean.
  rewrite (bind_eq _ _ _ _ _ Eb), (bind_eq _ _ _ _ _ Es).
  split; [reflexivity|]. split; [reflexivity|exact Hs'].
Qed.

Lemma reads_alike_read_short rest :
  reads_alike rest 2 (read_short cf (decode_object cf (S fuel))).
Proof.
  unfold read_short. apply (reads_alike_bind rest 1 1); [apply reads_alike_read_byte|].
  intros v1. apply (reads_alike_bind rest 1 0); [apply reads_alike_read_byte|].
  intros v2. apply reads_alike_ret.
Qed.

Lemma reads_alike_read_int rest :
  reads_alike rest 4 (read_int cf (decode_object cf (S fuel))).
Proof.
  unfold read_int. apply (reads_alike_bind rest 2 2); [apply reads_alike_read_short|].
  intros v1. apply (reads_alike_bind rest 2 0); [apply reads_alike_read_short|].
  intros v2. apply reads_alike_ret.
Qed.

Lemma reads_alike_read_long rest :
  reads_alike rest 8 (read_long cf (decode_object cf (S fuel))).
Proof.
  unfold read_long. apply (reads_alike_bind rest 4 4); [apply reads_alike_read_int|].
  intros v1. apply (reads_alike_bind rest 4 0); [apply reads_alike_read_int|].
  intros v2. apply reads_alike_ret.
Qed.

Lemma reads_alike_read_primitive rest t w :
  integer_width t = Some w ->
  reads_alike rest w (read_primitive cf (decode_object cf (S fuel)) (VStr t)).
Proof.
  unfold integer_width, read_primitive, is_str.
  destruct (String.eqb t "byte").
  { intros E. inversion E. apply (reads_alike_bind rest 1 0); [apply reads_alike_read_byte|].
    intros z. apply reads_alike_ret. }
  destruct (String.eqb_spec t "short") as [->|_].
  { intros E. inversion E. cbn [String.eqb Ascii.eqb Bool.eqb].
    apply (reads_alike_bind rest 2 0); [apply reads_alike_read_short|].
    intros z. apply reads_alike_ret. }
  destruct (String.eqb_spec t "int") as [->|_].
  { intros E. inversion E. cbn [String.eqb Ascii.eqb Bool.eqb].
    apply (reads_alike_bind rest 4 0); [apply reads_alike_read_int|].
    intros z. apply reads_alike_ret. }
  destruct (String.eqb_spec t "long") as [->|_].
  { intros E. inversion E. cbn [String.eqb Ascii.eqb Bool.eqb].
    apply (reads_alike_bind rest 8 0); [apply reads_alike_read_long|].
    intros z. apply reads_alike_ret. }
  destruct (String.eqb_spec t "boolean") as [->|_]; [|discriminate].
  intros E. inversion E. cbn [String.eqb Ascii.eqb Bool.eqb].
  apply reads_alike_read_boolean.
Qed.

(** Block-data transparency for the primitives that are read byte by
    byte: a sequence of byte, short, int, long and boolean reads returns the
    same values on frames of 1 to 255 bytes, however the bytes are cut, as
    on the bare bytes in stream mode. *)
Theorem integers_read_alike rest ts :
  forall n,
    integer_widths ts = Some n ->
    reads_alike rest n
      (mapM (fun t => read_primitive cf (decode_object cf (S fuel)) (VStr t)) ts).
Proof.
  induction ts as [|t ts IH]; simpl; intros n E.
  - inversion E. apply reads_alike_ret.
  - destruct (integer_width t) as [w|] eqn:Ew; [|discriminate].
    destruct (integer_widths ts) as [n'|]; [|discriminate]. inversion E; subst n.
    apply reads_alike_bind; [now apply reads_alike_read_primitive|].
    intros v. replace n' with (n' + 0)%nat by lia.
    apply reads_alike_bind; [now apply IH|]. intros vs. apply reads_alike_ret.
Qed.

(** The starting point: a handler that has just entered block mode on the
    frames, and one in stream mode on their bytes. *)
Lemma same_data_start rest rest_s hb hs frames :
  block_mode hb = true -> pos hb = end_ hb ->
  avail hb = wire frames ++ rest ->
  Forall valid_frame frames ->
  block_mode hs = false ->
  avail hs = concat frames ++ rest_s ->
  same_data rest hb hs (concat frames).
Proof.
  intros Hmb Hpe Hav Hv Hms Havs. split; [assumption|]. split; [assumption|].
  exists [], frames. split; [left; auto|]. repeat split; auto. eauto.
Qed.
End Transparency.

(** ** Records in stream mode *)

Lemma advance_0 h : advance 0 h = h.
Proof.
  destruct h as [[b c] p e m bd r hd hp]. unfold advance, with_pos, with_io. simpl.
  rewrite Z.add_0_r, Nat.add_0_r. reflexivity.
Qed.

(** One level of the recursion of tag dispatch, at the head of the goal. *)
Ltac enter :=
  lazymatch goal with
  | |- decode_object ?cf (S ?f) ?h0 = _ =>
      change (decode_object cf (S f) h0)
        with (decode_object_body cf (decode_object cf f) f h0)
  | |- bind (decode_object ?cf (S ?f)) ?k ?h0 = _ =>
      change (bind (decode_object cf (S f)) k h0)
        with (bind (decode_object_body cf (decode_object cf f) f) k h0)
  end;
  unfold decode_object_body at 1.

Lemma insert_snoc {A} (l : list A) x y : <[length l := x]> (l ++ [y]) = l ++ [x].
Proof.
  rewrite insert_app_r_alt by lia. rewrite Nat.sub_diag. reflexivity.
Qed.

(** Two handlers with the same attributes and the same store. *)
Lemma handler_ext h h' :
  io h = io h' -> pos h = pos h' -> end_ h = end_ h' ->
  block_mode h = block_mode h' -> block_data h = block_data h' ->
  references h = references h' -> header h = header h' -> heap h = heap h' ->
  h = h'.
Proof. destruct h, h'. simpl. congruence. Qed.

Ltac handler_eq :=
  apply handler_ext;
  cbn [io pos end_ block_mode block_data references header heap
       with_io with_pos with_end with_block_mode with_block_data
       with_references with_header with_heap advance buf cur];
  try reflexivity.

Section Wire.
Variable cf : bool.
Variable rec : M value.

Lemma read_long_stream h b1 b2 b3 b4 b5 b6 b7 b8 rest :
  block_mode h = false ->
  avail h = b1 :: b2 :: b3 :: b4 :: b5 :: b6 :: b7 :: b8 :: rest ->
  read_long cf rec h
  = Ok (be_uint [b1; b2; b3; b4; b5; b6; b7; b8]) (advance 8 h).
Proof.
  intros Hm Ha. unfold read_long, bind.
  rewrite (read_int_stream cf rec h b1 b2 b3 b4 (b5 :: b6 :: b7 :: b8 :: rest)) by auto.
  rewrite (read_int_stream cf rec (advance 4 h) b5 b6 b7 b8 rest)
    by (auto; rewrite avail_advance, Ha; reflexivity).
  rewrite advance_advance. unfold ret, be_uint. simpl.
  rewrite Z.shiftl_mul_pow2 by lia. f_equal. lia.
Qed.

(** The loop of [String.decode] and [LongString.decode] over bytes that
    are there. *)
Lemma read_chars_stream s : forall h rest,
  block_mode h = false ->
  avail h = s ++ rest ->
  repeatM (length s) (b <- read_byte cf rec ;; ret (chr b)) h
  = Ok ((fun b => chr (byte_val b)) <$> s) (advance (length s) h).
Proof.
  induction s as [|b s IH]; intros h rest Hm Ha; simpl.
  - rewrite advance_0. reflexivity.
  - unfold bind at 1. unfold bind at 1.
    rewrite (read_byte_stream cf rec h b (s ++ rest) Hm Ha). cbn [ret].
    unfold bind at 1.
    rewrite (IH (advance 1 h) rest) by (auto; rewrite avail_advance, Ha; reflexivity).
    rewrite advance_advance. reflexivity.
Qed.

(** ... and over a stream that ends before the count is reached. *)
Lemma read_chars_eof s : forall n h,
  block_mode h = false ->
  avail h = s ->
  (length s < n)%nat ->
  exists h',
    repeatM n (b <- read_byte cf rec ;; ret (chr b)) h
    = Raise (EOFError "Unexpected end of stream") h' /\
    references h' = references h /\ heap h' = heap h.
Proof.
  induction s as [|b s IH]; intros n h Hm Ha Hn;
    (destruct n as [|n]; [simpl in Hn; lia|]); simpl.
  - unfold bind at 1. unfold bind at 1. unfold read_byte, bind at 1.
    rewrite (read_struct_stream_eof cf rec ">B" 1 h Hm eq_refl)
      by (rewrite Ha; simpl; lia).
    eexists. split; [reflexivity|]. split; reflexivity.
  - unfold bind at 1. unfold bind at 1.
    rewrite (read_byte_stream cf rec h b s Hm Ha). cbn [ret].
    destruct (IH n (advance 1 h)) as (h' & E & Hr & Hh);
      [exact Hm|rewrite avail_advance, Ha; reflexivity|simpl in Hn; lia|].
    unfold bind at 1. rewrite E. eexists. split; [reflexivity|]. split; assumption.
Qed.

Lemma String_decode_stream a h l1 l2 s rest :
  block_mode h = false ->
  avail h = l1 :: l2 :: s ++ rest ->
  be_uint [l1; l2] = Z.of_nat (length s) ->
  heap h !! a = Some (mkObj Cls.String [("content", VStr "")]) ->
  String_decode cf rec (VObj a) h
  = Ok tt
      (with_heap (<[a := mkObj Cls.String [("content", VStr (latin1 s))]]> (heap h))
         (advance (2 + length s) h)).
Proof.
  intros Hm Ha Hl Ho. unfold String_decode, bind at 1.
  rewrite (read_short_stream cf rec h l1 l2 (s ++ rest) Hm Ha). rewrite Hl.
  destruct s as [|b s].
  - simpl. rewrite list_insert_id by exact Ho. unfold ret.
    destruct h; reflexivity.
  - destruct (Z.eqb_spec (Z.of_nat (length (b :: s))) 0) as [E|_]; [simpl in E; lia|].
    rewrite Nat2Z.id. unfold bind at 1.
    rewrite (read_chars_stream (b :: s) (advance 2 h) rest)
      by (auto; rewrite avail_advance, Ha; reflexivity).
    rewrite advance_advance.
    erewrite setattr_here by exact Ho. reflexivity.
Qed.

Lemma LongString_decode_stream a h l1 l2 l3 l4 l5 l6 l7 l8 s rest :
  block_mode h = false ->
  avail h = l1 :: l2 :: l3 :: l4 :: l5 :: l6 :: l7 :: l8 :: s ++ rest ->
  be_uint [l1; l2; l3; l4; l5; l6; l7; l8] = Z.of_nat (length s) ->
  heap h !! a = Some (mkObj Cls.LongString [("content", VStr "")]) ->
  LongString_decode cf rec (VObj a) h
  = Ok tt
      (with_heap (<[a := mkObj Cls.LongString [("content", VStr (latin1 s))]]> (heap h))
         (advance (8 + length s) h)).
Proof.
  intros Hm Ha Hl Ho. unfold LongString_decode, bind at 1.
  rewrite (read_long_stream h l1 l2 l3 l4 l5 l6 l7 l8 (s ++ rest) Hm Ha). rewrite Hl.
  destruct s as [|b s].
  - simpl. rewrite list_insert_id by exact Ho. unfold ret.
    destruct h; reflexivity.
  - destruct (Z.eqb_spec (Z.of_nat (length (b :: s))) 0) as [E|_]; [simpl in E; lia|].
    rewrite Nat2Z.id. unfold bind at 1.
    rewrite (read_chars_stream (b :: s) (advance 8 h) rest)
      by (auto; rewrite avail_advance, Ha; reflexivity).
    rewrite advance_advance.
    erewrite setattr_here by exact Ho. reflexivity.
Qed.
End Wire.

(** The comparisons of a known tag with the constants of [decode_object]. *)
Ltac dispatch :=
  cbn [Z.eqb Pos.eqb Constants.TC_ARRAY Constants.TC_BLOCKDATA
       Constants.TC_BLOCKDATALONG Constants.TC_CLASS Constants.TC_CLASSDESC
       Constants.TC_ENDBLOCKDATA Constants.TC_ENUM Constants.TC_EXCEPTION
       Constants.TC_LONGSTRING Constants.TC_NULL Constants.TC_OBJECT
       Constants.TC_PROXYCLASSDESC Constants.TC_REFERENCE Constants.TC_STRING].

Lemma read_byte_eof cf rec h :
  block_mode h = false ->
  avail h = [] ->
  exists h',
    read_byte cf rec h = Raise (EOFError "Unexpected end of stream") h' /\
    references h' = references h /\ heap h' = heap h.
Proof.
  intros Hm Ha. unfold read_byte, bind at 1.
  rewrite (read_struct_stream_eof cf rec ">B" 1 h Hm eq_refl)
    by (rewrite Ha; simpl; lia).
  eexists. split; [reflexivity|]. split; reflexivity.
Qed.

(** X1: in stream mode the tag [TC_STRING], a two-byte length [n] and
    [n] bytes decode to a new String record whose content has one
    character per byte, [chr] of the byte; the record is given the next
    handle, and the stream is left right after the bytes.  The empty
    string ([n = 0]) is a record with a handle too. *)
Theorem string_record_decoded cf fuel h l1 l2 s rest :
  block_mode h = false ->
  avail h = x74 :: l1 :: l2 :: s ++ rest ->
  be_uint [l1; l2] = Z.of_nat (length s) ->
  decode_object cf (S fuel) h
  = Ok (VObj (length (heap h)))
      (with_references (references h ++ [VObj (length (heap h))])
         (with_heap (heap h ++ [mkObj Cls.String [("content", VStr (latin1 s))]])
            (advance (3 + length s) h))).
Proof.
  intros Hm Ha Hl. cbn [decode_object]. unfold decode_object_body.
  rewrite (bind_eq _ _ _ _ _ (read_byte_stream cf _ h x74 _ Hm Ha)).
  change (byte_val x74) with 116. dispatch.
  unfold new_String. erewrite bind_eq by reflexivity.
  erewrite bind_eq.
  2:{ apply (String_decode_stream cf _ _ _ l1 l2 s rest).
      - exact Hm.
      - change (avail (with_heap ?hp ?h0)) with (avail h0).
        rewrite avail_advance, Ha. reflexivity.
      - exact Hl.
      - cbn [heap with_heap]. apply list_lookup_middle. reflexivity. }
  erewrite bind_eq by reflexivity. unfold ret. f_equal. handler_eq.
  - f_equal. lia.
  - lia.
  - apply insert_snoc.
Qed.

Lemma string_record_decoded_witness :
  block_mode (opened false stream_back_reference) = false /\
  avail (opened false stream_back_reference)
  = x74 :: x00 :: x01 :: [x41] ++ [x71; x00; x7e; x00; x00] /\
  be_uint [x00; x01] = Z.of_nat (length [x41]) /\
  decode_object false 1 (opened false stream_back_reference)
  = Ok (VObj (length (heap (opened false stream_back_reference))))
      (with_references
         (references (opened false stream_back_reference)
          ++ [VObj (length (heap (opened false stream_back_reference)))])
         (with_heap
            (heap (opened false stream_back_reference)
             ++ [mkObj Cls.String [("content", VStr (latin1 [x41]))]])
            (advance (3 + length [x41]) (opened false stream_back_reference)))).
Proof.
  split; [reflexivity|]. split; [vm_compute; reflexivity|]. split; [reflexivity|].
  apply (string_record_decoded false 0 _ x00 x01 [x41] [x71; x00; x7e; x00; x00]);
    vm_compute; reflexivity.
Defined.

Section FrameBytes.
Variable cf : bool.
Variable rec : M value.

Lemma BlockData_read_size_bytes a h tag lenb rest :
  block_mode h = false ->
  heap h !! a
  = Some (mkObj (frame_class tag) [("size", VInt 0); ("content", VStr ""); ("io", VNone)]) ->
  frame_header tag lenb ->
  avail h = lenb ++ rest ->
  BlockData_read_size cf rec (VObj a) h
  = Ok (be_uint lenb) (advance (length lenb) h).
Proof.
  intros Hm Ho Hh Ha. unfold BlockData_read_size, bind at 1, class_of.
  rewrite Ho. cbn [cls].
  destruct Hh as [[-> Hl]|[-> Hl]]; cbn [frame_class Byte.eqb is_class Cls.eqb].
  - destruct lenb as [|b [|? ?]]; try discriminate.
    change (frame_class x77) with Cls.BlockData. cbn [is_class Cls.eqb].
    apply (read_byte_stream cf rec h b rest Hm Ha).
  - destruct lenb as [|b1 [|b2 [|b3 [|b4 [|? ?]]]]]; try discriminate.
    change (frame_class x7a) with Cls.BlockDataLong. cbn [is_class Cls.eqb].
    apply (read_int_stream cf rec h b1 b2 b3 b4 rest Hm Ha).
Qed.

Lemma BlockData_decode_bytes a h tag lenb f rest :
  block_mode h = false ->
  heap h !! a
  = Some (mkObj (frame_class tag) [("size", VInt 0); ("content", VStr ""); ("io", VNone)]) ->
  frame_header tag lenb ->
  avail h = lenb ++ f ++ rest ->
  be_uint lenb = Z.of_nat (length f) ->
  BlockData_decode cf rec (VObj a) h
  = Ok tt
      (with_heap
         (<[a := mkObj (frame_class tag)
                   (match f with
                    | [] => [("size", VInt 0); ("content", VStr ""); ("io", VNone)]
                    | _ => [("size", VInt (Z.of_nat (length f))); ("content", VBytes f);
                            ("io", VBytesIO (mkBytesIO f 0))]
                    end)]> (heap h))
         (with_io (mkBytesIO (buf (io h)) (cur (io h) + length lenb + length f))
            (with_pos (pos h + Z.of_nat (length lenb)) h))).
Proof.
  intros Hm Ho Hh Ha Hl.
  assert (Hlt : (a < length (heap h))%nat) by (eapply lookup_lt_Some; eauto).
  unfold BlockData_decode, bind at 1.
  rewrite (BlockData_read_size_bytes a h tag lenb (f ++ rest) Hm Ho Hh Ha), Hl.
  unfold bind at 1. erewrite (setattr_here a _ "size") by exact Ho.
  cbn [cls attrs attr_set String.eqb Ascii.eqb Bool.eqb].
  destruct f as [|b0 f].
  - cbn [length Z.of_nat Z.eqb ret]. rewrite Nat.add_0_r. reflexivity.
  - destruct (Z.eqb_spec (Z.of_nat (length (b0 :: f))) 0) as [E|_]; [simpl in E; lia|].
    unfold bind at 1. unfold io_read, BytesIO_read.
    cbn [io with_heap advance with_pos with_io buf cur].
    rewrite Nat2Z.id.
    assert (Hd : drop (cur (io h) + length lenb) (buf (io h)) = (b0 :: f) ++ rest).
    { change (drop (cur (io h) + length lenb) (buf (io h)))
        with (avail (advance (length lenb) h)).
      rewrite avail_advance, Ha, drop_app_length. reflexivity. }
    rewrite Hd, take_app_length.
    unfold bind at 1. erewrite (setattr_here a _ "content")
      by (cbn [heap with_heap with_io]; apply list_lookup_insert_eq; exact Hlt).
    cbn [cls attrs attr_set String.eqb Ascii.eqb Bool.eqb].
    cbn [truthy negb orb]. rewrite Z.eqb_refl. cbn [negb].
    erewrite (setattr_here a _ "io")
      by (cbn [heap with_heap with_io]; apply list_lookup_insert_eq;
          rewrite length_insert; exact Hlt).
    cbn [cls attrs attr_set String.eqb Ascii.eqb Bool.eqb heap with_heap with_io].
    rewrite !list_insert_insert_eq.
    reflexivity.
Qed.

Lemma BlockData_decode_short a h tag lenb f :
  block_mode h = false ->
  heap h !! a
  = Some (mkObj (frame_class tag) [("size", VInt 0); ("content", VStr ""); ("io", VNone)]) ->
  frame_header tag lenb ->
  avail h = lenb ++ f ->
  Z.of_nat (length f) < be_uint lenb ->
  exists h',
    BlockData_decode cf rec (VObj a) h
    = Raise (EOFError "Unexpected end of stream") h' /\
    references h' = references h.
Proof.
  intros Hm Ho Hh Ha Hl.
  assert (Hlt : (a < length (heap h))%nat) by (eapply lookup_lt_Some; eauto).
  unfold BlockData_decode, bind at 1.
  rewrite <- (app_nil_r f) in Ha.
  rewrite (BlockData_read_size_bytes a h tag lenb (f ++ []) Hm Ho Hh Ha).
  unfold bind at 1. erewrite (setattr_here a _ "size") by exact Ho.
  cbn [cls attrs attr_set String.eqb Ascii.eqb Bool.eqb].
  destruct (Z.eqb_spec (be_uint lenb) 0) as [E|_]; [lia|].
  unfold bind at 1. unfold io_read, BytesIO_read.
  cbn [io with_heap advance with_pos with_io buf cur].
  assert (Hd : drop (cur (io h) + length lenb) (buf (io h)) = f).
  { change (drop (cur (io h) + length lenb) (buf (io h)))
      with (avail (advance (length lenb) h)).
    rewrite avail_advance, Ha, drop_app_length. apply app_nil_r. }
  rewrite Hd, take_ge by lia.
  unfold bind at 1. erewrite (setattr_here a _ "content")
    by (cbn [heap with_heap with_io]; apply list_lookup_insert_eq; exact Hlt).
  destruct (Z.eqb_spec (Z.of_nat (length f)) (be_uint lenb)) as [E|_]; [lia|].
  rewrite orb_true_r. eexists. split; reflexivity.
Qed.
End FrameBytes.

(** Tag dispatch on a frame of either kind, in stream mode. *)
Lemma decode_object_frame_any cf fuel h tag lenb f rest :
  block_mode h = false ->
  frame_header tag lenb ->
  avail h = tag :: lenb ++ f ++ rest ->
  be_uint lenb = Z.of_nat (length f) ->
  decode_object cf (S fuel) h
  = Ok (VObj (length (heap h)))
      (with_heap
         (heap h ++
          [mkObj (frame_class tag)
             (match f with
              | [] => [("size", VInt 0); ("content", VStr ""); ("io", VNone)]
              | _ => [("size", VInt (Z.of_nat (length f))); ("content", VBytes f);
                      ("io", VBytesIO (mkBytesIO f 0))]
              end)])
         (with_io (mkBytesIO (buf (io h)) (cur (io h) + 1 + length lenb + length f))
            (with_pos (pos h + 1 + Z.of_nat (length lenb)) h))).
Proof.
  intros Hm Hh Ha Hl. cbn [decode_object]. unfold decode_object_body.
  rewrite (bind_eq _ _ _ _ _ (read_byte_stream cf _ h _ _ Hm Ha)).
  set (o0 := mkObj (frame_class tag) [("size", VInt 0); ("content", VStr ""); ("io", VNone)]).
  assert (Hdec :
    (a0 <- alloc o0 ;; BlockData_decode cf (decode_object cf fuel) a0 ;;; ret a0)
      (advance 1 h)
    = Ok (VObj (length (heap h)))
        (with_heap
           (heap h ++
            [mkObj (frame_class tag)
               (match f with
                | [] => [("size", VInt 0); ("content", VStr ""); ("io", VNone)]
                | _ => [("size", VInt (Z.of_nat (length f))); ("content", VBytes f);
                        ("io", VBytesIO (mkBytesIO f 0))]
                end)])
           (with_io (mkBytesIO (buf (io h)) (cur (io h) + 1 + length lenb + length f))
              (with_pos (pos h + 1 + Z.of_nat (length lenb)) h)))).
  { erewrite bind_eq by reflexivity.
    erewrite bind_eq.
    2:{ apply (BlockData_decode_bytes cf _ (length (heap h)) _ tag lenb f rest).
        - exact Hm.
        - cbn [heap with_heap advance with_pos with_io]. apply list_lookup_middle. reflexivity.
        - exact Hh.
        - change (avail (with_heap ?x ?y)) with (avail y).
          rewrite avail_advance, Ha. reflexivity.
        - exact Hl. }
    unfold ret. f_equal.
    unfold with_heap, with_io, with_pos, advance. simpl. f_equal.
    rewrite insert_app_r_alt by lia. rewrite Nat.sub_diag. reflexivity. }
  destruct Hh as [[-> _]|[-> _]]; exact Hdec.
Qed.

(** X4: in stream mode a block-data frame, that is [TC_BLOCKDATA] with
    a length of one byte or [TC_BLOCKDATALONG] with a length of four
    bytes, followed by that many bytes, decodes to a new record of class
    BlockData or BlockDataLong whose [size] is the length and, unless the
    frame is empty, whose [content] is the bytes and whose [io] is a reader
    over these very bytes, at their start; an empty frame keeps the
    [content] and the [io] it was created with.  No handle is assigned, the
    stream moves past the bytes, and [pos] moves past the tag and the
    length only. *)
Theorem frame_record_decoded cf fuel h tag lenb f rest :
  block_mode h = false ->
  frame_header tag lenb ->
  avail h = tag :: lenb ++ f ++ rest ->
  be_uint lenb = Z.of_nat (length f) ->
  decode_object cf (S fuel) h
  = Ok (VObj (length (heap h)))
      (with_heap
         (heap h ++
          [mkObj (frame_class tag)
             (match f with
              | [] => [("size", VInt 0); ("content", VStr ""); ("io", VNone)]
              | _ => [("size", VInt (Z.of_nat (length f))); ("content", VBytes f);
                      ("io", VBytesIO (mkBytesIO f 0))]
              end)])
         (with_io (mkBytesIO (buf (io h)) (cur (io h) + 1 + length lenb + length f))
            (with_pos (pos h + 1 + Z.of_nat (length lenb)) h))).
Proof.
  intros Hm Hh Ha Hl.
  exact (decode_object_frame_any cf fuel h tag lenb f rest Hm Hh Ha Hl).
Qed.

Lemma frame_record_decoded_witness :
  block_mode (opened false stream_int_two_frames) = false /\
  frame_header x77 [x02] /\
  avail (opened false stream_int_two_frames)
  = x77 :: [x02] ++ [x00; x00] ++ [x77; x02; x00; x05] /\
  be_uint [x02] = Z.of_nat (length [x00; x00]) /\
  decode_object false 1 (opened false stream_int_two_frames)
  = Ok (VObj (length (heap (opened false stream_int_two_frames))))
      (with_heap
         (heap (opened false stream_int_two_frames) ++
          [mkObj (frame_class x77)
             [("size", VInt (Z.of_nat (length [x00; x00])));
              ("content", VBytes [x00; x00]);
              ("io", VBytesIO (mkBytesIO [x00; x00] 0))]])
         (with_io
            (mkBytesIO (buf (io (opened false stream_int_two_frames)))
               (cur (io (opened false stream_int_two_frames)) + 1 + length [x02]
                + length [x00; x00]))
            (with_pos
               (pos (opened false stream_int_two_frames) + 1
                + Z.of_nat (length [x02]))
               (opened false stream_int_two_frames)))).
Proof.
  split; [reflexivity|]. split; [left; split; reflexivity|].
  split; [vm_compute; reflexivity|]. split; [reflexivity|].
  apply (frame_record_decoded false 0 _ x77 [x02] [x00; x00] [x77; x02; x00; x05]);
    [reflexivity|left; split; reflexivity|vm_compute; reflexivity|reflexivity].
Defined.

(** X5: when fewer bytes follow than the length of a block-data frame
    says, [decode_object] raises EOFError and assigns no handle. *)
Theorem frame_record_truncated cf fuel h tag lenb f :
  block_mode h = false ->
  frame_header tag lenb ->
  avail h = tag :: lenb ++ f ->
  Z.of_nat (length f) < be_uint lenb ->
  exists h',
    decode_object cf (S fuel) h = Raise (EOFError "Unexpected end of stream") h' /\
    references h' = references h.
Proof.
  intros Hm Hh Ha Hl. cbn [decode_object]. unfold decode_object_body.
  rewrite (bind_eq _ _ _ _ _ (read_byte_stream cf _ h _ _ Hm Ha)).
  set (o0 := mkObj (frame_class tag) [("size", VInt 0); ("content", VStr ""); ("io", VNone)]).
  assert (Hdec : exists h',
    (a0 <- alloc o0 ;; BlockData_decode cf (decode_object cf fuel) a0 ;;; ret a0)
      (advance 1 h)
    = Raise (EOFError "Unexpected end of stream") h' /\ references h' = references h).
  { erewrite bind_eq by reflexivity.
    destruct (BlockData_decode_short cf (decode_object cf fuel) (length (heap h))
                (with_heap (heap h ++ [o0]) (advance 1 h)) tag lenb f)
      as (h' & E & Hr); auto.
    - cbn [heap with_heap advance with_pos with_io]. apply list_lookup_middle. reflexivity.
    - change (avail (with_heap ?x ?y)) with (avail y).
      rewrite avail_advance, Ha. reflexivity.
    - exists h'. split; [|exact Hr]. unfold bind at 1.
      change (heap (advance 1 h)) with (heap h). rewrite E. reflexivity. }
  destruct Hh as [[-> _]|[-> _]]; exact Hdec.
Qed.

Lemma frame_record_truncated_witness :
  block_mode (opened false stream_frame_cut) = false /\
  frame_header x77 [x03] /\
  avail (opened false stream_frame_cut) = x77 :: [x03] ++ [x00] /\
  Z.of_nat (length [x00]) < be_uint [x03] /\
  exists h',
    decode_object false 1 (opened false stream_frame_cut)
    = Raise (EOFError "Unexpected end of stream") h' /\
    references h' = references (opened false stream_frame_cut).
Proof.
  split; [reflexivity|]. split; [left; split; reflexivity|].
  split; [vm_compute; reflexivity|]. split; [reflexivity|].
  apply (frame_record_truncated false 0 _ x77 [x03] [x00]);
    [reflexivity|left; split; reflexivity|vm_compute; reflexivity|reflexivity].
Defined.

(** X3: a stream that ends anywhere inside a string record (after a
    proper prefix of the tag, the length and the bytes) makes
    [decode_object] raise EOFError, and no handle is assigned. *)
Theorem string_record_truncated cf fuel h l1 l2 s p :
  block_mode h = false ->
  be_uint [l1; l2] = Z.of_nat (length s) ->
  p `prefix_of` x74 :: l1 :: l2 :: s ->
  p <> x74 :: l1 :: l2 :: s ->
  avail h = p ->
  exists h',
    decode_object cf (S fuel) h = Raise (EOFError "Unexpected end of stream") h' /\
    references h' = references h.
Proof.
  intros Hm Hl [k Hk] Hne Ha. cbn [decode_object]. unfold decode_object_body.
  destruct p as [|t p].
  { destruct (read_byte_eof cf (decode_object cf fuel) h Hm Ha) as (h' & E & Hr & _).
    exists h'. split; [|exact Hr]. unfold bind at 1. rewrite E. reflexivity. }
  simpl in Hk. inversion Hk; subst t. clear Hk. rename H1 into Hk.
  rewrite (bind_eq _ _ _ _ _ (read_byte_stream cf _ h x74 _ Hm Ha)).
  change (byte_val x74) with 116. dispatch.
  unfold new_String. erewrite bind_eq by reflexivity.
  set (h1 := with_heap _ (advance 1 h)).
  assert (Hm1 : block_mode h1 = false) by exact Hm.
  assert (Ha1 : avail h1 = p).
  { change (avail h1) with (avail (advance 1 h)). rewrite avail_advance, Ha. reflexivity. }
  assert (Hr1 : references h1 = references h) by reflexivity.
  clearbody h1. clear Ha Hm.
  cut (exists h', String_decode cf (decode_object cf fuel) (VObj (length (heap h))) h1
                  = Raise (EOFError "Unexpected end of stream") h' /\
                  references h' = references h1).
  { intros (h' & E & Hr). exists h'. split; [|congruence].
    unfold bind at 1. change (heap (advance 1 h)) with (heap h).
    rewrite E. reflexivity. }
  unfold String_decode, read_short.
  destruct p as [|t1 p].
  { destruct (read_byte_eof cf (decode_object cf fuel) h1 Hm1 Ha1) as (h' & E & Hr & _).
    exists h'. split; [|exact Hr]. unfold bind at 1. unfold bind at 1. rewrite E. reflexivity. }
  simpl in Hk. inversion Hk; subst t1. clear Hk. rename H1 into Hk.
  unfold bind at 1. unfold bind at 1.
  rewrite (read_byte_stream cf _ h1 l1 _ Hm1 Ha1).
  destruct p as [|t2 p].
  { destruct (read_byte_eof cf (decode_object cf fuel) (advance 1 h1)) as (h' & E & Hr & _);
      [exact Hm1|rewrite avail_advance, Ha1; reflexivity|].
    exists h'. split; [|exact Hr]. unfold bind at 1. rewrite E. reflexivity. }
  simpl in Hk. inversion Hk; subst t2. clear Hk. rename H1 into Hk.
  unfold bind at 1.
  rewrite (read_byte_stream cf _ (advance 1 h1) l2 p)
    by (auto; rewrite avail_advance, Ha1; reflexivity).
  cbn [ret]. rewrite advance_advance.
  replace (Z.shiftl (byte_val l1) 8 + byte_val l2) with (be_uint [l1; l2])
    by (unfold be_uint; simpl; rewrite Z.shiftl_mul_pow2 by lia; lia).
  rewrite Hl.
  assert (Hlen : (length p < length s)%nat).
  { subst s. rewrite length_app. destruct k; [|simpl; lia].
    exfalso. apply Hne. rewrite app_nil_r. reflexivity. }
  destruct (Z.eqb_spec (Z.of_nat (length s)) 0) as [E|_]; [lia|].
  rewrite Nat2Z.id.
  destruct (read_chars_eof cf (decode_object cf fuel) p (length s) (advance (1 + 1) h1))
    as (h' & E & Hr & _); [exact Hm1|rewrite avail_advance, Ha1; reflexivity|exact Hlen|].
  exists h'. split; [|exact Hr]. unfold bind at 1. rewrite E. reflexivity.
Qed.

Lemma string_record_truncated_witness :
  block_mode (opened false stream_string_cut) = false /\
  be_uint [x00; x02] = Z.of_nat (length [x41; x42]) /\
  [x74; x00; x02; x41] `prefix_of` x74 :: x00 :: x02 :: [x41; x42] /\
  [x74; x00; x02; x41] <> x74 :: x00 :: x02 :: [x41; x42] /\
  avail (opened false stream_string_cut) = [x74; x00; x02; x41] /\
  exists h',
    decode_object false 1 (opened false stream_string_cut)
    = Raise (EOFError "Unexpected end of stream") h' /\
    references h' = references (opened false stream_string_cut).
Proof.
  split; [reflexivity|]. split; [reflexivity|].
  split; [exists [x42]; reflexivity|]. split; [discriminate|].
  split; [vm_compute; reflexivity|].
  apply (string_record_truncated false 0 _ x00 x02 [x41; x42] [x74; x00; x02; x41]);
    [reflexivity|reflexivity|exists [x42]; reflexivity|discriminate|vm_compute; reflexivity].
Defined.

(** X2: the same for [TC_LONGSTRING], whose length takes eight bytes:
    the record is a LongString with one character per byte and it is
    given the next handle. *)
Theorem long_string_record_decoded cf fuel h l1 l2 l3 l4 l5 l6 l7 l8 s rest :
  block_mode h = false ->
  avail h = x7c :: l1 :: l2 :: l3 :: l4 :: l5 :: l6 :: l7 :: l8 :: s ++ rest ->
  be_uint [l1; l2; l3; l4; l5; l6; l7; l8] = Z.of_nat (length s) ->
  decode_object cf (S fuel) h
  = Ok (VObj (length (heap h)))
      (with_references (references h ++ [VObj (length (heap h))])
         (with_heap (heap h ++ [mkObj Cls.LongString [("content", VStr (latin1 s))]])
            (advance (9 + length s) h))).
Proof.
  intros Hm Ha Hl. cbn [decode_object]. unfold decode_object_body.
  rewrite (bind_eq _ _ _ _ _ (read_byte_stream cf _ h x7c _ Hm Ha)).
  change (byte_val x7c) with 124. dispatch.
  unfold new_LongString. erewrite bind_eq by reflexivity.
  erewrite bind_eq.
  2:{ apply (LongString_decode_stream cf _ _ _ l1 l2 l3 l4 l5 l6 l7 l8 s rest).
      - exact Hm.
      - change (avail (with_heap ?hp ?h0)) with (avail h0).
        rewrite avail_advance, Ha. reflexivity.
      - exact Hl.
      - cbn [heap with_heap]. apply list_lookup_middle. reflexivity. }
  erewrite bind_eq by reflexivity. unfold ret. f_equal. handler_eq.
  - f_equal. lia.
  - lia.
  - apply insert_snoc.
Qed.

Lemma long_string_record_decoded_witness :
  block_mode (opened false stream_long_string) = false /\
  avail (opened false stream_long_string)
  = x7c :: x00 :: x00 :: x00 :: x00 :: x00 :: x00 :: x00 :: x01 :: [x41] ++ [] /\
  be_uint [x00; x00; x00; x00; x00; x00; x00; x01] = Z.of_nat (length [x41]) /\
  decode_object false 1 (opened false stream_long_string)
  = Ok (VObj (length (heap (opened false stream_long_string))))
      (with_references
         (references (opened false stream_long_string)
          ++ [VObj (length (heap (opened false stream_long_string)))])
         (with_heap
            (heap (opened false stream_long_string)
             ++ [mkObj Cls.LongString [("content", VStr (latin1 [x41]))]])
            (advance (9 + length [x41]) (opened false stream_long_string)))).
Proof.
  split; [reflexivity|]. split; [vm_compute; reflexivity|]. split; [reflexivity|].
  apply (long_string_record_decoded false 0 _ x00 x00 x00 x00 x00 x00 x00 x01 [x41] []);
    vm_compute; reflexivity.
Defined.

(** X6: in stream mode, at the end of the stream [decode_object] raises
    EOFError and neither creates an object nor assigns a handle; on a tag
    byte 0 it raises Exception("Invalid type code"), the byte consumed. *)
Theorem decode_object_no_record cf fuel h :
  block_mode h = false ->
  (avail h = [] ->
   exists h',
     decode_object cf (S fuel) h = Raise (EOFError "Unexpected end of stream") h' /\
     references h' = references h /\ heap h' = heap h) /\
  (forall rest,
     avail h = x00 :: rest ->
     decode_object cf (S fuel) h = Raise (Exception "Invalid type code") (advance 1 h)).
Proof.
  intros Hm. split.
  - intros Ha. destruct (read_byte_eof cf (decode_object cf fuel) h Hm Ha) as (h' & E & Hr).
    exists h'. split; [|exact Hr]. cbn [decode_object]. unfold decode_object_body, bind at 1.
    rewrite E. reflexivity.
  - intros rest Ha. cbn [decode_object]. unfold decode_object_body.
    rewrite (bind_eq _ _ _ _ _ (read_byte_stream cf _ h x00 _ Hm Ha)). reflexivity.
Qed.

Lemma decode_object_no_record_witness :
  block_mode (opened false stream_header_only) = false /\
  avail (opened false stream_header_only) = [] /\
  (exists h',
     decode_object false 1 (opened false stream_header_only)
     = Raise (EOFError "Unexpected end of stream") h' /\
     references h' = references (opened false stream_header_only) /\
     heap h' = heap (opened false stream_header_only)) /\
  block_mode (opened false stream_char) = false /\
  avail (opened false stream_char) = x00 :: [x41] /\
  decode_object false 1 (opened false stream_char)
  = Raise (Exception "Invalid type code") (advance 1 (opened false stream_char)).
Proof.
  split; [reflexivity|]. split; [vm_compute; reflexivity|].
  split.
  { apply (decode_object_no_record false 0 (opened false stream_header_only));
      [reflexivity|vm_compute; reflexivity]. }
  split; [reflexivity|]. split; [vm_compute; reflexivity|].
  apply (proj2 (decode_object_no_record false 0 (opened false stream_char) eq_refl) [x41]).
  vm_compute; reflexivity.
Defined.

(** X7: [Handler(io)] on a stream of fewer than four bytes raises
    EOFError while reading the header. *)
Theorem open_stream_short cf data :
  (length data < 4)%nat ->
  exists h,
    open_stream cf data = Raise (EOFError "Unexpected end of stream") h /\
    references h = [].
Proof.
  intros Hl. unfold open_stream, Handler_init, Header_decode, Header__decode_magic, new_Header.
  unfold bind at 1. simpl. unfold bind at 1. simpl. unfold bind at 1.
  rewrite (read_struct_stream_eof cf _ ">HH" 4) by (simpl; auto; rewrite ?drop_0; lia).
  eexists. split; reflexivity.
Qed.

Lemma open_stream_short_witness :
  (length [xac; xed] < 4)%nat /\
  exists h,
    open_stream false [xac; xed] = Raise (EOFError "Unexpected end of stream") h /\
    references h = [].
Proof.
  split; [simpl; lia|]. apply (open_stream_short false [xac; xed]). simpl; lia.
Defined.

Lemma byte_val_range b : 0 <= byte_val b < 256.
Proof.
  unfold byte_val. pose proof (Byte.to_N_bounded b). lia.
Qed.

Lemma be_uint_range bs : 0 <= be_uint bs < 256 ^ Z.of_nat (length bs).
Proof.
  unfold be_uint.
  cut (forall acc, 0 <= acc ->
         0 <= fold_left (fun acc b => acc * 256 + byte_val b) bs acc
         < (acc + 1) * 256 ^ Z.of_nat (length bs)).
  { intros H. specialize (H 0). simpl in H. rewrite Z.mul_1_l in H. apply H. lia. }
  induction bs as [|b bs IH]; intros acc Hacc.
  - simpl. lia.
  - cbn [fold_left length]. rewrite Nat2Z.inj_succ, Z.pow_succ_r by lia.
    pose proof (byte_val_range b) as Hb.
    specialize (IH (acc * 256 + byte_val b)). 
    assert (0 < 256 ^ Z.of_nat (length bs)) by (apply Z.pow_pos_nonneg; lia).
    split; [apply IH; lia|].
    eapply Z.lt_le_trans; [apply IH; lia|]. nia.
Qed.

(** X8: in stream mode the primitives byte, short, int and long are read
    as unsigned big-endian integers: [read_primitive] returns the value
    of the next 1, 2, 4 or 8 bytes, which is never negative, and moves
    the stream by that many bytes. *)
Theorem integers_unsigned_big_endian cf rec h t w bs rest :
  block_mode h = false ->
  integer_width t = Some w -> t <> "boolean" ->
  length bs = w ->
  avail h = bs ++ rest ->
  read_primitive cf rec (VStr t) h = Ok (VInt (be_uint bs)) (advance w h) /\
  0 <= be_uint bs < 256 ^ Z.of_nat w.
Proof.
  intros Hm Hw Hb Hl Ha. split; [|subst w; apply be_uint_range].
  unfold integer_width in Hw. unfold read_primitive. cbn [is_str].
  destruct (String.eqb_spec t "byte") as [->|_].
  { inversion Hw; subst w. destruct bs as [|b1 [|? ?]]; try discriminate.
    unfold bind. rewrite (read_byte_stream cf rec h b1 rest Hm Ha).
    unfold be_uint. simpl. reflexivity. }
  destruct (String.eqb_spec t "short") as [->|_].
  { inversion Hw; subst w. destruct bs as [|b1 [|b2 [|? ?]]]; try discriminate.
    cbn [String.eqb Ascii.eqb Bool.eqb]. unfold bind.
    rewrite (read_short_stream cf rec h b1 b2 rest Hm Ha). reflexivity. }
  destruct (String.eqb_spec t "int") as [->|_].
  { inversion Hw; subst w. destruct bs as [|b1 [|b2 [|b3 [|b4 [|? ?]]]]]; try discriminate.
    cbn [String.eqb Ascii.eqb Bool.eqb]. unfold bind.
    rewrite (read_int_stream cf rec h b1 b2 b3 b4 rest Hm Ha). reflexivity. }
  destruct (String.eqb_spec t "long") as [->|_].
  { inversion Hw; subst w.
    destruct bs as [|b1 [|b2 [|b3 [|b4 [|b5 [|b6 [|b7 [|b8 [|? ?]]]]]]]]]; try discriminate.
    cbn [String.eqb Ascii.eqb Bool.eqb]. unfold bind.
    rewrite (read_long_stream cf rec h b1 b2 b3 b4 b5 b6 b7 b8 rest Hm Ha). reflexivity. }
  destruct (String.eqb_spec t "boolean") as [->|_]; [congruence|discriminate].
Qed.

Lemma integers_unsigned_big_endian_witness :
  block_mode (opened false stream_byte_array) = false /\
  integer_width "long" = Some 8%nat /\ "long" <> "boolean" /\
  length [xac; xf3; x17; xf8; x06; x08; x54; xe0] = 8%nat /\
  avail (after_reading (opened false stream_byte_array) 6 [] [])
  = [xac; xf3; x17; xf8; x06; x08; x54; xe0]
    ++ [x02; x00; x00; x78; x70; x00; x00; x00; x02; x01; x02] /\
  read_primitive false (decode_object false 0) (VStr "long")
    (after_reading (opened false stream_byte_array) 6 [] [])
  = Ok (VInt (be_uint [xac; xf3; x17; xf8; x06; x08; x54; xe0]))
      (advance 8 (after_reading (opened false stream_byte_array) 6 [] [])) /\
  0 <= be_uint [xac; xf3; x17; xf8; x06; x08; x54; xe0] < 256 ^ Z.of_nat 8.
Proof.
  split; [reflexivity|]. split; [reflexivity|]. split; [discriminate|].
  split; [reflexivity|]. split; [vm_compute; reflexivity|].
  apply (integers_unsigned_big_endian false (decode_object false 0)
           (after_reading (opened false stream_byte_array) 6 [] []) "long" 8%nat
           [xac; xf3; x17; xf8; x06; x08; x54; xe0]
           [x02; x00; x00; x78; x70; x00; x00; x00; x02; x01; x02]);
    [reflexivity|reflexivity|discriminate|reflexivity|vm_compute; reflexivity].
Defined.

(** ** Runs in stream mode *)

Lemma stream_run_refl h : stream_run h h.
Proof. intros Hm. repeat split; auto; lia. Qed.

Lemma stream_run_trans h1 h2 h3 :
  stream_run h1 h2 -> stream_run h2 h3 -> stream_run h1 h3.
Proof.
  intros H12 H23 Hm. destruct (H12 Hm) as (Hm2 & Hb & Hc & Hp & He & Hd & Hh).
  destruct (H23 Hm2) as (Hm3 & Hb' & Hc' & Hp' & He' & Hd' & Hh').
  repeat split; try congruence; lia.
Qed.

(** A step that leaves the stream and the mode alone. *)
Lemma stream_run_same h h' :
  block_mode h' = block_mode h -> io h' = io h -> pos h' = pos h ->
  end_ h' = end_ h -> block_data h' = block_data h -> header h' = header h ->
  stream_run h h'.
Proof. intros Hm Hi Hp He Hd Hh Hm0. rewrite Hi. repeat split; auto; try congruence; lia. Qed.

Lemma stream_run_alloc o : preserves stream_run (alloc o).
Proof. intros h a h' H. inversion H; subst. apply stream_run_same; reflexivity. Qed.

Lemma stream_run_setattr v name x : preserves stream_run (setattr v name x).
Proof.
  intros h u h' H. apply setattr_Ok in H as (a & o & _ & _ & ->).
  apply stream_run_same; reflexivity.
Qed.

Lemma stream_run_getattr v name : preserves stream_run (getattr v name).
Proof.
  intros h a h' H. apply getattr_Ok in H as [-> _]. apply stream_run_refl.
Qed.

Lemma stream_run_class_of v : preserves stream_run (class_of v).
Proof.
  intros h a h' H. apply class_of_Ok in H as [-> _]. apply stream_run_refl.
Qed.

Lemma stream_run_add_reference v : preserves stream_run (add_reference v).
Proof. intros h u h' H. inversion H; subst. apply stream_run_same; reflexivity. Qed.

Lemma stream_run_io_read n : preserves stream_run (io_read n).
Proof.
  intros h out h' H. unfold io_read, BytesIO_read in H. inversion H; subst.
  intros Hm. simpl. repeat split; auto; lia.
Qed.

Create HintDb runs discriminated.
#[export] Hint Resolve stream_run_alloc stream_run_setattr stream_run_getattr
  stream_run_class_of stream_run_add_reference stream_run_io_read : runs.

(** The structure of a decoder, down to the calls the hints settle. *)
Ltac runs :=
  lazymatch goal with
  | |- preserves _ (bind _ _) =>
      apply (preserves_bind _ stream_run_trans); [ runs | intros ?; runs ]
  | |- preserves _ (ret _) => apply preserves_ret, stream_run_refl
  | |- preserves _ (raise _) => apply preserves_raise
  | |- preserves _ get => apply preserves_get, stream_run_refl
  | |- preserves _ (lift_opt _ _) => apply preserves_lift_opt, stream_run_refl
  | |- preserves _ (repeatM _ _) =>
      apply (preserves_repeatM _ stream_run_refl stream_run_trans); runs
  | |- preserves _ (mapM _ _) =>
      apply (preserves_mapM _ stream_run_refl stream_run_trans); intros ?; runs
  | |- preserves _ (if ?b then _ else _) => destruct b; runs
  | |- preserves _ (match ?x with _ => _ end) => destruct x; runs
  | |- _ => eauto with runs
  end.

Section StreamRun.
Variable cf : bool.
Variable rec : M value.
Variable depth : nat.
Hypothesis rec_runs : preserves stream_run rec.

Local Hint Resolve rec_runs : runs.

(** [refill] returns in block mode only. *)
Lemma stream_run_refill : preserves stream_run (refill rec).
Proof.
  intros h u h' H Hm. unfold refill, bind at 1, get in H. rewrite Hm in H. discriminate.
Qed.
Local Hint Resolve stream_run_refill : runs.

Lemma stream_run_read_struct fmt : preserves stream_run (read_struct cf rec fmt).
Proof.
  intros h t h' H Hm.
  apply read_struct_stream_Ok in H as (ln & _ & _ & -> & _); [|exact Hm].
  simpl. repeat split; auto; lia.
Qed.
Local Hint Resolve stream_run_read_struct : runs.

Lemma stream_run_as_int v : preserves stream_run (as_int v).
Proof. unfold as_int. runs. Qed.
Lemma stream_run_as_str v : preserves stream_run (as_str v).
Proof. unfold as_str. runs. Qed.
Lemma stream_run_as_list v : preserves stream_run (as_list v).
Proof. unfold as_list. runs. Qed.
Lemma stream_run_unpack1 t : preserves stream_run (unpack1 t).
Proof. unfold unpack1. runs. Qed.
Local Hint Resolve stream_run_as_int stream_run_as_str stream_run_as_list
  stream_run_unpack1 : runs.

Lemma stream_run_read_boolean : preserves stream_run (read_boolean cf rec).
Proof. unfold read_boolean. runs. Qed.
Lemma stream_run_read_byte : preserves stream_run (read_byte cf rec).
Proof. unfold read_byte. runs. Qed.
Lemma stream_run_read_char : preserves stream_run (read_char cf rec).
Proof. unfold read_char. runs. Qed.
Lemma stream_run_read_double : preserves stream_run (read_double cf rec).
Proof. unfold read_double. runs. Qed.
Lemma stream_run_read_float : preserves stream_run (read_float cf rec).
Proof. unfold read_float. runs. Qed.
Local Hint Resolve stream_run_read_boolean stream_run_read_byte stream_run_read_char
  stream_run_read_double stream_run_read_float : runs.

Lemma stream_run_read_short : preserves stream_run (read_short cf rec).
Proof. unfold read_short. runs. Qed.
Local Hint Resolve stream_run_read_short : runs.
Lemma stream_run_read_int : preserves stream_run (read_int cf rec).
Proof. unfold read_int. runs. Qed.
Local Hint Resolve stream_run_read_int : runs.
Lemma stream_run_read_long : preserves stream_run (read_long cf rec).
Proof. unfold read_long. runs. Qed.
Local Hint Resolve stream_run_read_long : runs.

Lemma stream_run_read_primitive t : preserves stream_run (read_primitive cf rec t).
Proof. unfold read_primitive. runs. Qed.
Lemma stream_run_get_reference n : preserves stream_run (get_reference n).
Proof. unfold get_reference. runs. Qed.
Lemma stream_run_unwrap_reference v : preserves stream_run (unwrap_reference v).
Proof. unfold unwrap_reference. runs. Qed.
Local Hint Resolve stream_run_read_primitive stream_run_get_reference
  stream_run_unwrap_reference : runs.

Lemma stream_run_String_decode s : preserves stream_run (String_decode cf rec s).
Proof. unfold String_decode. runs. Qed.
Lemma stream_run_LongString_decode s : preserves stream_run (LongString_decode cf rec s).
Proof. unfold LongString_decode. runs. Qed.
Lemma stream_run_BlockData_decode s : preserves stream_run (BlockData_decode cf rec s).
Proof. unfold BlockData_decode, BlockData_read_size. runs. Qed.
Lemma stream_run_Reference_decode s : preserves stream_run (Reference_decode cf rec s).
Proof. unfold Reference_decode. runs. Qed.
Lemma stream_run_ClassDesc_decode s : preserves stream_run (ClassDesc_decode rec s).
Proof. unfold ClassDesc_decode. runs. Qed.
Local Hint Resolve stream_run_String_decode stream_run_LongString_decode
  stream_run_BlockData_decode stream_run_Reference_decode
  stream_run_ClassDesc_decode : runs.

Lemma stream_run_Enum_decode s : preserves stream_run (Enum_decode rec s).
Proof. unfold Enum_decode, new_ClassDesc. runs. Qed.
Lemma stream_run_Field_decode s : preserves stream_run (Field_decode cf rec s).
Proof. unfold Field_decode, Field_is_valid, Field_is_object, new_String. runs. Qed.
Lemma stream_run_JavaException_decode s :
  preserves stream_run (JavaException_decode rec s).
Proof. unfold JavaException_decode. runs. Qed.
Lemma stream_run_NewArray_array_type v : preserves stream_run (NewArray_array_type v).
Proof. unfold NewArray_array_type. runs. Qed.
Local Hint Resolve stream_run_Enum_decode stream_run_Field_decode
  stream_run_JavaException_decode stream_run_NewArray_array_type : runs.

Lemma stream_run_NewArray_decode s : preserves stream_run (NewArray_decode cf rec s).
Proof. unfold NewArray_decode. runs. Qed.
Lemma stream_run_NewClass_decode s : preserves stream_run (NewClass_decode rec s).
Proof. unfold NewClass_decode, new_ClassDesc. runs. Qed.
Lemma stream_run_NewClassDesc_decode s :
  preserves stream_run (NewClassDesc_decode cf rec s).
Proof. unfold NewClassDesc_decode, new_ClassDesc, new_String, new_Field. runs. Qed.
Lemma stream_run_NewObject_get_class_content v :
  preserves stream_run (NewObject_get_class_content v).
Proof. unfold NewObject_get_class_content. runs. Qed.
Lemma stream_run_NewObject_field_value v :
  preserves stream_run (NewObject_field_value cf rec v).
Proof.
  unfold NewObject_field_value, Field_is_primitive, Field_get_primitive_type. runs.
Qed.
Local Hint Resolve stream_run_NewArray_decode stream_run_NewClass_decode
  stream_run_NewClassDesc_decode stream_run_NewObject_get_class_content
  stream_run_NewObject_field_value : runs.

Lemma stream_run_NewObject_decode_class_data calls v :
  preserves stream_run (NewObject_decode_class_data cf rec calls v).
Proof.
  revert v. induction calls as [|calls IH]; intros v; simpl.
  - intros h a h' H. discriminate.
  - runs.
Qed.
Local Hint Resolve stream_run_NewObject_decode_class_data : runs.

Lemma stream_run_NewObject_decode s :
  preserves stream_run (NewObject_decode cf rec depth s).
Proof. unfold NewObject_decode, new_ClassDesc. runs. Qed.
Local Hint Resolve stream_run_NewObject_decode : runs.

Lemma stream_run_decode_object_body :
  preserves stream_run (decode_object_body cf rec depth).
Proof.
  unfold decode_object_body, new_NewArray, new_BlockData, new_BlockDataLong,
    new_NewClass, new_NewClassDesc, new_EndBlockData, new_Enum,
    new_JavaException, new_LongString, new_Null, new_NewObject,
    new_Reference, new_String.
  runs.
Qed.
(** Tag dispatch takes the tag first: the cursor has moved. *)
Lemma decode_object_body_progress h v h' :
  block_mode h = false ->
  decode_object_body cf rec depth h = Ok v h' ->
  (cur (io h) < cur (io h'))%nat.
Proof.
  intros Hm H. unfold decode_object_body in H.
  apply bind_Ok in H as (tc & h1 & Hr & H).
  apply read_byte_stream_Ok in Hr as [-> _]; [|exact Hm].
  match type of H with
  | ?k _ = Ok _ _ =>
      assert (Hp : preserves stream_run k)
        by (unfold new_NewArray, new_BlockData, new_BlockDataLong,
              new_NewClass, new_NewClassDesc, new_EndBlockData, new_Enum,
              new_JavaException, new_LongString, new_Null, new_NewObject,
              new_Reference, new_String; runs)
  end.
  destruct (Hp _ _ _ H Hm) as (_ & _ & Hc & _). simpl in Hc. lia.
Qed.
End StreamRun.

Lemma stream_run_decode_object cf fuel : preserves stream_run (decode_object cf fuel).
Proof.
  induction fuel as [|fuel IH]; simpl.
  - intros h a h' H. discriminate.
  - apply stream_run_decode_object_body. assumption.
Qed.

(** X12: a call of [decode_object] that starts in stream mode and
    returns has stayed in stream mode: the stream is the same buffer, its
    cursor has moved forward by at least one byte, and [end],
    [block_data] and [header] are untouched. *)
Theorem decode_object_stream_mode cf fuel h v h' :
  block_mode h = false ->
  decode_object cf fuel h = Ok v h' ->
  block_mode h' = false /\ buf (io h') = buf (io h) /\
  (cur (io h) < cur (io h'))%nat /\ end_ h' = end_ h /\
  block_data h' = block_data h /\ header h' = header h.
Proof.
  intros Hm H.
  destruct (stream_run_decode_object cf fuel h v h' H Hm)
    as (Hm' & Hb & _ & _ & He & Hd & Hh).
  destruct fuel as [|fuel]; [discriminate|]. cbn [decode_object] in H.
  pose proof (decode_object_body_progress cf _ fuel (stream_run_decode_object cf fuel)
                h v h' Hm H).
  repeat split; auto.
Qed.

Lemma decode_object_stream_mode_witness :
  block_mode (opened false stream_back_reference) = false /\
  decode_object false 1 (opened false stream_back_reference)
  = Ok (VObj 1) (after_record false 1 stream_back_reference) /\
  block_mode (after_record false 1 stream_back_reference) = false /\
  buf (io (after_record false 1 stream_back_reference))
  = buf (io (opened false stream_back_reference)) /\
  (cur (io (opened false stream_back_reference))
   < cur (io (after_record false 1 stream_back_reference)))%nat /\
  end_ (after_record false 1 stream_back_reference)
  = end_ (opened false stream_back_reference) /\
  block_data (after_record false 1 stream_back_reference)
  = block_data (opened false stream_back_reference) /\
  header (after_record false 1 stream_back_reference)
  = header (opened false stream_back_reference).
Proof.
  split; [reflexivity|]. split; [vm_compute; reflexivity|].
  apply (decode_object_stream_mode false 1 (opened false stream_back_reference) (VObj 1));
    [reflexivity|vm_compute; reflexivity].
Defined.

(** ** The records behind the handles *)

Lemma handle_record_mono hp hp' v :
  (forall a o, hp !! a = Some o -> exists o', hp' !! a = Some o' /\ cls o' = cls o) ->
  handle_record hp v = true -> handle_record hp' v = true.
Proof.
  intros Hc. unfold handle_record. destruct v as [| | | | | | | |a]; auto.
  destruct (hp !! a) as [o|] eqn:E; [|discriminate].
  destruct (Hc a o E) as (o' & -> & ->). auto.
Qed.

Lemma handle_records_mono hp hp' l :
  (forall a o, hp !! a = Some o -> exists o', hp' !! a = Some o' /\ cls o' = cls o) ->
  forallb (handle_record hp) l = true -> forallb (handle_record hp') l = true.
Proof.
  intros Hc. rewrite !forallb_forall. eauto using handle_record_mono.
Qed.

Lemma keeps_handles_refl sel h : keeps_handles sel h h.
Proof. split; eauto. Qed.

Lemma keeps_handles_trans sel h1 h2 h3 :
  keeps_handles sel h1 h2 -> keeps_handles sel h2 h3 -> keeps_handles sel h1 h3.
Proof.
  intros [C1 K1] [C2 K2]. split.
  - intros a o Ha. destruct (C1 _ _ Ha) as (o' & Ha' & E').
    destruct (C2 _ _ Ha') as (o'' & Ha'' & E''). exists o''. split; [auto|congruence].
  - intros Hs Hok. apply K2; [|auto]. eapply handle_records_mono; eauto.
Qed.

(** A step that leaves the store and the handle table alone. *)
Lemma keeps_handles_same sel h h' :
  heap h' = heap h -> references h' = references h -> keeps_handles sel h h'.
Proof.
  intros Hh Hr. split.
  - intros a o Ha. rewrite Hh. eauto.
  - intros _. unfold handles_ok. now rewrite Hh, Hr.
Qed.

Lemma keeps_handles_alloc sel o : preserves (keeps_handles sel) (alloc o).
Proof.
  intros h a h' H. unfold alloc in H. inversion H; subst. clear H.
  assert (Hc : forall a o', heap h !! a = Some o' ->
               exists o'', (heap h ++ [o]) !! a = Some o'' /\ cls o'' = cls o').
  { intros a o' Ha. exists o'. split; [now apply lookup_app_l_Some|reflexivity]. }
  split; [exact Hc|]. intros _. apply handle_records_mono, Hc.
Qed.

(** The new object of a class that is given handles may be given one by
    what follows. *)
Lemma keeps_handles_alloc_bind {B} sel o (k : value -> M B) :
  handle_class (cls o) = true ->
  (forall s, preserves (keeps_handles (s :: sel)) (k s)) ->
  preserves (keeps_handles sel) (bind (alloc o) k).
Proof.
  intros Hcl Hk h b h' H. apply bind_Ok in H as (v & h1 & H1 & H2).
  unfold alloc in H1. inversion H1; subst v h1. clear H1.
  apply Hk in H2. destruct H2 as [C K].
  assert (Hc : forall a o', heap h !! a = Some o' ->
               exists o'', (heap h ++ [o]) !! a = Some o'' /\ cls o'' = cls o').
  { intros a o' Ha. exists o'. split; [now apply lookup_app_l_Some|reflexivity]. }
  split.
  - intros a o' Ha. apply C. simpl. now apply lookup_app_l_Some.
  - intros Hs Hok. apply K.
    + cbn [forallb heap with_heap handle_record].
      rewrite list_lookup_middle by reflexivity. rewrite Hcl. cbn [andb].
      eapply handle_records_mono; eauto.
    + unfold handles_ok. simpl. eapply handle_records_mono; eauto.
Qed.

Lemma keeps_handles_setattr sel v name x :
  preserves (keeps_handles sel) (setattr v name x).
Proof.
  intros h u h' H. apply setattr_Ok in H as (s & o & _ & Hs & ->).
  assert (Hc : forall a o', heap h !! a = Some o' ->
               exists o'', <[s := mkObj (cls o) (attr_set name x (attrs o))]> (heap h) !! a
                           = Some o'' /\ cls o'' = cls o').
  { intros a o' Ha. destruct (decide (a = s)) as [->|Hne].
    - rewrite list_lookup_insert_eq by (eapply lookup_lt_Some; eauto).
      eexists; split; eauto. simpl. congruence.
    - rewrite list_lookup_insert_ne by auto. eauto. }
  split; [exact Hc|]. intros _. apply handle_records_mono, Hc.
Qed.

Lemma keeps_handles_add_reference sel v :
  In v sel -> preserves (keeps_handles sel) (add_reference v).
Proof.
  intros Hin h u h' H. inversion H; subst. clear H. split; [eauto|].
  intros Hs Hok. unfold handles_ok in *. simpl. rewrite forallb_app, Hok. simpl.
  rewrite forallb_forall in Hs. rewrite (Hs v Hin). reflexivity.
Qed.

Lemma keeps_handles_modify sel f :
  (forall h, heap (f h) = heap h) -> (forall h, references (f h) = references h) ->
  preserves (keeps_handles sel) (modify f).
Proof. intros Hh Hr h u h' H. inversion H; subst. apply keeps_handles_same; auto. Qed.

Lemma keeps_handles_getattr sel v name : preserves (keeps_handles sel) (getattr v name).
Proof.
  intros h a h' H. apply getattr_Ok in H as [-> _]. apply keeps_handles_refl.
Qed.

Lemma keeps_handles_class_of sel v : preserves (keeps_handles sel) (class_of v).
Proof.
  intros h a h' H. apply class_of_Ok in H as [-> _]. apply keeps_handles_refl.
Qed.

Lemma keeps_handles_io_read sel n : preserves (keeps_handles sel) (io_read n).
Proof.
  intros h out h' H. unfold io_read, BytesIO_read in H. inversion H; subst.
  apply keeps_handles_same; reflexivity.
Qed.

Lemma keeps_handles_io_seek_cur sel n : preserves (keeps_handles sel) (io_seek_cur n).
Proof.
  intros h out h' H. unfold io_seek_cur in H.
  destruct (BytesIO_seek_cur n (io h)) as [[p b]|]; [|discriminate].
  inversion H; subst. apply keeps_handles_same; reflexivity.
Qed.

Create HintDb keeps discriminated.
#[export] Hint Resolve keeps_handles_alloc keeps_handles_setattr keeps_handles_getattr
  keeps_handles_class_of keeps_handles_io_read keeps_handles_io_seek_cur : keeps.
#[export] Hint Extern 1 (In _ _) => simpl; tauto : keeps.

Ltac keeps :=
  lazymatch goal with
  | |- preserves _ (bind (alloc _) _) =>
      first [ apply keeps_handles_alloc_bind; [ reflexivity | intros ?; keeps ]
            | apply (preserves_bind _ (keeps_handles_trans _));
              [ apply keeps_handles_alloc | intros ?; keeps ] ]
  | |- preserves _ (bind _ _) =>
      apply (preserves_bind _ (keeps_handles_trans _)); [ keeps | intros ?; keeps ]
  | |- preserves _ (ret _) => apply preserves_ret, keeps_handles_refl
  | |- preserves _ (raise _) => apply preserves_raise
  | |- preserves _ get => apply preserves_get, keeps_handles_refl
  | |- preserves _ (lift_opt _ _) => apply preserves_lift_opt, keeps_handles_refl
  | |- preserves _ (repeatM _ _) =>
      apply (preserves_repeatM _ (keeps_handles_refl _) (keeps_handles_trans _)); keeps
  | |- preserves _ (mapM _ _) =>
      apply (preserves_mapM _ (keeps_handles_refl _) (keeps_handles_trans _));
      intros ?; keeps
  | |- preserves _ (add_reference _) =>
      apply keeps_handles_add_reference; simpl; tauto
  | |- preserves _ (modify _) =>
      apply keeps_handles_modify; intros ?; reflexivity
  | |- preserves _ (if ?b then _ else _) => destruct b; keeps
  | |- preserves _ (match ?x with _ => _ end) => destruct x; keeps
  | |- _ => eauto with keeps
  end.

Section KeepsHandles.
Variable cf : bool.
Variable rec : M value.
Variable depth : nat.
Hypothesis rec_keeps : forall sel, preserves (keeps_handles sel) rec.

Local Hint Resolve rec_keeps : keeps.

Lemma keeps_handles_as_int sel v : preserves (keeps_handles sel) (as_int v).
Proof. unfold as_int. keeps. Qed.
Lemma keeps_handles_as_str sel v : preserves (keeps_handles sel) (as_str v).
Proof. unfold as_str. keeps. Qed.
Lemma keeps_handles_as_list sel v : preserves (keeps_handles sel) (as_list v).
Proof. unfold as_list. keeps. Qed.
Lemma keeps_handles_unpack1 sel t : preserves (keeps_handles sel) (unpack1 t).
Proof. unfold unpack1. keeps. Qed.
Local Hint Resolve keeps_handles_as_int keeps_handles_as_str keeps_handles_as_list
  keeps_handles_unpack1 : keeps.

Lemma keeps_handles_set_block_data_mode sel b :
  preserves (keeps_handles sel) (set_block_data_mode b).
Proof. unfold set_block_data_mode. keeps. Qed.
Lemma keeps_handles_skip_loop sel k n : preserves (keeps_handles sel) (skip_loop k n).
Proof. revert n. induction k as [|k IH]; intros n; simpl; keeps. Qed.
Local Hint Resolve keeps_handles_set_block_data_mode keeps_handles_skip_loop : keeps.

Lemma keeps_handles_refill sel : preserves (keeps_handles sel) (refill rec).
Proof. unfold refill, get_unread, skip. keeps. Qed.
Local Hint Resolve keeps_handles_refill : keeps.

Lemma keeps_handles_read_struct sel fmt :
  preserves (keeps_handles sel) (read_struct cf rec fmt).
Proof. unfold read_struct. keeps. Qed.
Local Hint Resolve keeps_handles_read_struct : keeps.

Lemma keeps_handles_read_boolean sel : preserves (keeps_handles sel) (read_boolean cf rec).
Proof. unfold read_boolean. keeps. Qed.
Lemma keeps_handles_read_byte sel : preserves (keeps_handles sel) (read_byte cf rec).
Proof. unfold read_byte. keeps. Qed.
Lemma keeps_handles_read_char sel : preserves (keeps_handles sel) (read_char cf rec).
Proof. unfold read_char. keeps. Qed.
Lemma keeps_handles_read_double sel : preserves (keeps_handles sel) (read_double cf rec).
Proof. unfold read_double. keeps. Qed.
Lemma keeps_handles_read_float sel : preserves (keeps_handles sel) (read_float cf rec).
Proof. unfold read_float. keeps. Qed.
Local Hint Resolve keeps_handles_read_boolean keeps_handles_read_byte
  keeps_handles_read_char keeps_handles_read_double keeps_handles_read_float : keeps.

Lemma keeps_handles_read_short sel : preserves (keeps_handles sel) (read_short cf rec).
Proof. unfold read_short. keeps. Qed.
Local Hint Resolve keeps_handles_read_short : keeps.
Lemma keeps_handles_read_int sel : preserves (keeps_handles sel) (read_int cf rec).
Proof. unfold read_int. keeps. Qed.
Local Hint Resolve keeps_handles_read_int : keeps.
Lemma keeps_handles_read_long sel : preserves (keeps_handles sel) (read_long cf rec).
Proof. unfold read_long. keeps. Qed.
Local Hint Resolve keeps_handles_read_long : keeps.

Lemma keeps_handles_read_primitive sel t :
  preserves (keeps_handles sel) (read_primitive cf rec t).
Proof. unfold read_primitive. keeps. Qed.
Lemma keeps_handles_get_reference sel n : preserves (keeps_handles sel) (get_reference n).
Proof. unfold get_reference. keeps. Qed.
Lemma keeps_handles_unwrap_reference sel v :
  preserves (keeps_handles sel) (unwrap_reference v).
Proof. unfold unwrap_reference. keeps. Qed.
Local Hint Resolve keeps_handles_read_primitive keeps_handles_get_reference
  keeps_handles_unwrap_reference : keeps.

Lemma keeps_handles_String_decode sel s :
  preserves (keeps_handles sel) (String_decode cf rec s).
Proof. unfold String_decode. keeps. Qed.
Lemma keeps_handles_LongString_decode sel s :
  preserves (keeps_handles sel) (LongString_decode cf rec s).
Proof. unfold LongString_decode. keeps. Qed.
Lemma keeps_handles_BlockData_decode sel s :
  preserves (keeps_handles sel) (BlockData_decode cf rec s).
Proof. unfold BlockData_decode, BlockData_read_size. keeps. Qed.
Lemma keeps_handles_Reference_decode sel s :
  preserves (keeps_handles sel) (Reference_decode cf rec s).
Proof. unfold Reference_decode. keeps. Qed.
Lemma keeps_handles_ClassDesc_decode sel s :
  preserves (keeps_handles sel) (ClassDesc_decode rec s).
Proof. unfold ClassDesc_decode. keeps. Qed.
Local Hint Resolve keeps_handles_String_decode keeps_handles_LongString_decode
  keeps_handles_BlockData_decode keeps_handles_Reference_decode
  keeps_handles_ClassDesc_decode : keeps.

(** The decoders that give [self] a handle. *)
Lemma keeps_handles_Enum_decode sel s :
  In s sel -> preserves (keeps_handles sel) (Enum_decode rec s).
Proof. intros. unfold Enum_decode, new_ClassDesc. keeps. Qed.
Lemma keeps_handles_Field_decode sel s :
  preserves (keeps_handles sel) (Field_decode cf rec s).
Proof. unfold Field_decode, Field_is_valid, Field_is_object, new_String. keeps. Qed.
Lemma keeps_handles_JavaException_decode sel s :
  preserves (keeps_handles sel) (JavaException_decode rec s).
Proof. unfold JavaException_decode. keeps. Qed.
Lemma keeps_handles_NewArray_array_type sel v :
  preserves (keeps_handles sel) (NewArray_array_type v).
Proof. unfold NewArray_array_type. keeps. Qed.
Local Hint Resolve keeps_handles_Enum_decode keeps_handles_Field_decode
  keeps_handles_JavaException_decode keeps_handles_NewArray_array_type : keeps.

Lemma keeps_handles_NewArray_decode sel s :
  In s sel -> preserves (keeps_handles sel) (NewArray_decode cf rec s).
Proof. intros. unfold NewArray_decode. keeps. Qed.
Lemma keeps_handles_NewClass_decode sel s :
  In s sel -> preserves (keeps_handles sel) (NewClass_decode rec s).
Proof. intros. unfold NewClass_decode, new_ClassDesc. keeps. Qed.
Lemma keeps_handles_NewClassDesc_decode sel s :
  In s sel -> preserves (keeps_handles sel) (NewClassDesc_decode cf rec s).
Proof.
  intros. unfold NewClassDesc_decode, new_ClassDesc, new_String, new_Field. keeps.
Qed.
Lemma keeps_handles_NewObject_get_class_content sel v :
  preserves (keeps_handles sel) (NewObject_get_class_content v).
Proof. unfold NewObject_get_class_content. keeps. Qed.
Lemma keeps_handles_NewObject_field_value sel v :
  preserves (keeps_handles sel) (NewObject_field_value cf rec v).
Proof.
  unfold NewObject_field_value, Field_is_primitive, Field_get_primitive_type. keeps.
Qed.
Local Hint Resolve keeps_handles_NewArray_decode keeps_handles_NewClass_decode
  keeps_handles_NewClassDesc_decode keeps_handles_NewObject_get_class_content
  keeps_handles_NewObject_field_value : keeps.

Lemma keeps_handles_NewObject_decode_class_data sel calls v :
  preserves (keeps_handles sel) (NewObject_decode_class_data cf rec calls v).
Proof.
  revert v. induction calls as [|calls IH]; intros v; simpl.
  - intros h a h' H. discriminate.
  - keeps.
Qed.
Local Hint Resolve keeps_handles_NewObject_decode_class_data : keeps.

Lemma keeps_handles_NewObject_decode sel s :
  In s sel -> preserves (keeps_handles sel) (NewObject_decode cf rec depth s).
Proof. intros. unfold NewObject_decode, new_ClassDesc. keeps. Qed.
Lemma keeps_handles_ProxyClassDesc_decode sel s :
  In s sel -> preserves (keeps_handles sel) (ProxyClassDesc_decode cf rec s).
Proof. intros. unfold ProxyClassDesc_decode, new_ClassDesc, new_String. keeps. Qed.
Local Hint Resolve keeps_handles_NewObject_decode : keeps.

Lemma keeps_handles_decode_object_body sel :
  preserves (keeps_handles sel) (decode_object_body cf rec depth).
Proof.
  unfold decode_object_body, new_NewArray, new_BlockData, new_BlockDataLong,
    new_NewClass, new_NewClassDesc, new_EndBlockData, new_Enum,
    new_JavaException, new_LongString, new_Null, new_NewObject,
    new_Reference, new_String.
  keeps.
Qed.
End KeepsHandles.

Lemma keeps_handles_decode_object cf fuel sel :
  preserves (keeps_handles sel) (decode_object cf fuel).
Proof.
  revert sel. induction fuel as [|fuel IH]; intros sel; simpl.
  - intros h a h' H. discriminate.
  - apply keeps_handles_decode_object_body. assumption.
Qed.

(** X13: the handle table holds only records of the classes that are
    given handles (String, LongString, NewArray, NewClass, NewClassDesc,
    NewObject, Enum, ProxyClassDesc): if this is so before
    [decode_object], it is so after. *)
Theorem handles_name_records cf fuel h v h' :
  handles_ok h = true ->
  decode_object cf fuel h = Ok v h' ->
  handles_ok h' = true.
Proof.
  intros Hok H. apply (keeps_handles_decode_object cf fuel [] h v h' H); auto.
Qed.

Lemma handles_name_records_witness :
  handles_ok (after_record false 3 stream_byte_array) = true /\
  decode_object false 3 (opened false stream_byte_array)
  = Ok (VObj 1) (after_record false 3 stream_byte_array) /\
  handles_ok (opened false stream_byte_array) = true.
Proof.
  split; [|split; [vm_compute; reflexivity|reflexivity]].
  apply (handles_name_records false 3 (opened false stream_byte_array) (VObj 1));
    [reflexivity|vm_compute; reflexivity].
Defined.

Lemma tag_class_Reference tc :
  tag_class tc = Some Cls.Reference -> tc = Constants.TC_REFERENCE.
Proof.
  unfold tag_class.
  repeat match goal with
         | |- context [if ?a =? ?b then _ else _] =>
             destruct (Z.eqb_spec a b); [try discriminate|]
         end; try discriminate.
  intros _. assumption.
Qed.

Lemma list_index_In {A} (l : list A) i x : list_index l i = Some x -> In x l.
Proof.
  unfold list_index. intros H. apply list_elem_of_In.
  destruct ((0 <=? i) && (i <? Z.of_nat (length l))).
  - eapply list_elem_of_lookup_2; eauto.
  - destruct ((- Z.of_nat (length l) <=? i) && (i <? 0)); [|discriminate].
    eapply list_elem_of_lookup_2; eauto.
Qed.

(** X15: the [obj] of a Reference record that [decode_object] returns is
    an entry of the handle table and a record of a class that is given
    handles; it is never itself a Reference, so one unwrapping
    ([x = x.obj]) is enough. *)
Theorem reference_target_is_record cf fuel h r h' o :
  handles_ok h = true ->
  decode_object cf fuel h = Ok (VObj r) h' ->
  heap h' !! r = Some o ->
  cls o = Cls.Reference ->
  exists target,
    attr_get "obj" (attrs o) = Some target /\
    In target (references h') /\
    handle_record (heap h') target = true.
Proof.
  intros Hok H Ho Hcls. destruct fuel as [|fuel]; [discriminate|]. simpl in H.
  destruct (decode_object_body_class cf _ fuel (decode_object_evolves cf fuel) _ _ _ H)
    as (tc & h1 & Hr & Hc).
  destruct (tag_class tc) as [c|] eqn:Et; [|destruct Hc; discriminate].
  destruct Hc as (o' & Er & Ho' & Ec). inversion Er; subst r. clear Er.
  rewrite Ho in Ho'. inversion Ho'; subst o'. clear Ho'.
  rewrite Hcls in Ec. subst c. apply tag_class_Reference in Et. subst tc.
  assert (Hok1 : handles_ok h1 = true).
  { apply (keeps_handles_read_byte cf _ (keeps_handles_decode_object cf fuel) [] h _ h1 Hr);
      auto. }
  unfold decode_object_body, bind at 1 in H. rewrite Hr in H. simpl in H.
  unfold new_Reference in H.
  apply bind_Ok in H as (x & h2 & Hal & H).
  assert (Hok2 : handles_ok h2 = true)
    by (apply (keeps_handles_alloc [] _ h1 x h2 Hal); auto).
  unfold alloc in Hal. inversion Hal; subst x. clear Hal.
  apply bind_Ok in H as ([] & h3 & Hdec & H). apply ret_Ok in H as [_ ->].
  unfold Reference_decode in Hdec.
  apply bind_Ok in Hdec as (n & h4 & Hn & Hdec).
  assert (Hok4 : handles_ok h4 = true).
  { apply (keeps_handles_read_int cf _ (keeps_handles_decode_object cf fuel) [] h2 _ h4 Hn);
      auto. }
  apply bind_Ok in Hdec as ([] & h5 & Hset & Hdec).
  assert (Hok5 : handles_ok h5 = true)
    by (apply (keeps_handles_setattr [] _ _ _ h4 _ h5 Hset); auto).
  apply bind_Ok in Hdec as (target & h6 & Hget & Hdec).
  unfold get_reference in Hget. apply bind_Ok in Hget as (h5' & h5'' & Hg & Hget).
  inversion Hg; subst h5' h5''. clear Hg.
  destruct (list_index (references h5) (n - Constants.BASE_WIRE_HANDLE)) as [t|] eqn:Ei;
    [|discriminate].
  apply ret_Ok in Hget as [-> ->]. apply list_index_In in Ei.
  assert (Ht : handle_record (heap h5) t = true).
  { unfold handles_ok in Hok5. rewrite forallb_forall in Hok5. auto. }
  pose proof (keeps_handles_setattr [] _ _ _ h5 _ h3 Hdec) as [Hc _].
  apply setattr_Ok in Hdec as (a & o5 & Ea & Ho5 & ->).
  assert (a = length (heap h1)) by (inversion Ea; subst; reflexivity). subst a.
  simpl in Ho. rewrite list_lookup_insert_eq in Ho by (eapply lookup_lt_Some; eauto).
  inversion Ho; subst o. clear Ho. exists t. simpl.
  split; [apply attr_get_set_eq|]. split; [exact Ei|].
  eapply handle_record_mono; [|exact Ht]. exact Hc.
Qed.

Lemma reference_target_is_record_witness :
  handles_ok (after_record false 1 stream_back_reference) = true /\
  decode_object false 1 (after_record false 1 stream_back_reference)
  = Ok (VObj 2) (after_second_record false 1 stream_back_reference) /\
  heap (after_second_record false 1 stream_back_reference) !! 2%nat
  = Some (mkObj Cls.Reference [("ref", VInt 0); ("obj", VObj 1)]) /\
  exists target,
    attr_get "obj" [("ref", VInt 0); ("obj", VObj 1)] = Some target /\
    In target (references (after_second_record false 1 stream_back_reference)) /\
    handle_record (heap (after_second_record false 1 stream_back_reference)) target = true.
Proof.
  split; [reflexivity|]. split; [vm_compute; reflexivity|].
  split; [vm_compute; reflexivity|].
  apply (reference_target_is_record false 1 (after_record false 1 stream_back_reference) 2
           (after_second_record false 1 stream_back_reference)
           (mkObj Cls.Reference [("ref", VInt 0); ("obj", VObj 1)]));
    vm_compute; reflexivity.
Defined.

(** ** Every record of a handle class has its handle *)

Lemma evolves_In S h h' v :
  evolves S h h' -> In v (references h) -> In v (references h').
Proof.
  intros [[k ->] _ _] Hin. apply in_or_app. auto.
Qed.

Section Assigned.
Variable cf : bool.
Variable rec : M value.
Variable depth : nat.
Hypothesis rec_evolves : forall S, preserves (evolves S) rec.

Local Hint Extern 5 (preserves (evolves _) _) =>
  solve [ eauto using rec_evolves, io_read_evolves, getattr_evolves, class_of_evolves,
            as_int_evolves, as_str_evolves, as_list_evolves, read_byte_evolves,
            read_short_evolves, read_int_evolves, read_primitive_evolves,
            unwrap_reference_evolves, ClassDesc_decode_evolves, Field_decode_evolves,
            NewArray_array_type_evolves, NewObject_get_class_content_evolves,
            NewObject_decode_class_data_evolves, in_eq, in_cons ] : pres.

Lemma NewClass_decode_assigned s h u h' :
  NewClass_decode rec (VObj s) h = Ok u h' -> In (VObj s) (references h').
Proof.
  unfold NewClass_decode, new_ClassDesc. intros H.
  apply bind_Ok in H as (cd & h1 & _ & H).
  apply bind_Ok in H as ([] & h2 & _ & H).
  apply bind_Ok in H as ([] & h3 & _ & H).
  inversion H; subst. simpl. apply in_or_app. right. left. reflexivity.
Qed.

Lemma Enum_decode_assigned s h u h' :
  Enum_decode rec (VObj s) h = Ok u h' -> In (VObj s) (references h').
Proof.
  unfold Enum_decode, new_ClassDesc. intros H.
  apply bind_Ok in H as (cd & h1 & _ & H).
  apply bind_Ok in H as ([] & h2 & _ & H).
  apply bind_Ok in H as ([] & h3 & _ & H).
  apply bind_Ok in H as ([] & h4 & Hadd & H).
  match type of H with
  | ?k _ = Ok _ _ => assert (Hp : preserves (evolves [s]) k) by pres
  end.
  eapply evolves_In; [exact (Hp _ _ _ H)|].
  inversion Hadd; subst. simpl. apply in_or_app. right. left. reflexivity.
Qed.

Lemma NewArray_decode_assigned s h u h' :
  NewArray_decode cf rec (VObj s) h = Ok u h' -> In (VObj s) (references h').
Proof.
  unfold NewArray_decode. intros H.
  apply bind_Ok in H as (cd & h1 & _ & H).
  apply bind_Ok in H as (c & h2 & _ & H).
  destruct (negb _); [discriminate|].
  apply bind_Ok in H as (cd' & h3 & _ & H).
  apply bind_Ok in H as ([] & h4 & _ & H).
  apply bind_Ok in H as ([] & h5 & Hadd & H).
  match type of H with
  | ?k _ = Ok _ _ => assert (Hp : preserves (evolves [s]) k) by pres
  end.
  eapply evolves_In; [exact (Hp _ _ _ H)|].
  inversion Hadd; subst. simpl. apply in_or_app. right. left. reflexivity.
Qed.

Lemma NewClassDesc_decode_assigned s h u h' :
  NewClassDesc_decode cf rec (VObj s) h = Ok u h' -> In (VObj s) (references h').
Proof.
  unfold NewClassDesc_decode, new_String. intros H.
  apply bind_Ok in H as (nm & h1 & _ & H).
  apply bind_Ok in H as ([] & h2 & _ & H).
  apply bind_Ok in H as (name & h3 & _ & H).
  apply bind_Ok in H as ([] & h4 & _ & H).
  apply bind_Ok in H as (uid & h5 & _ & H).
  apply bind_Ok in H as ([] & h6 & _ & H).
  apply bind_Ok in H as ([] & h7 & Hadd & H).
  match type of H with
  | ?k _ = Ok _ _ =>
      assert (Hp : preserves (evolves [s]) k) by (unfold new_Field, new_ClassDesc; pres)
  end.
  eapply evolves_In; [exact (Hp _ _ _ H)|].
  inversion Hadd; subst. simpl. apply in_or_app. right. left. reflexivity.
Qed.

Lemma NewObject_decode_assigned s h u h' :
  NewObject_decode cf rec depth (VObj s) h = Ok u h' -> In (VObj s) (references h').
Proof.
  unfold NewObject_decode, new_ClassDesc. intros H.
  apply bind_Ok in H as (cd & h1 & _ & H).
  apply bind_Ok in H as ([] & h2 & _ & H).
  apply bind_Ok in H as ([] & h3 & _ & H).
  apply bind_Ok in H as ([] & h4 & Hadd & H).
  match type of H with
  | ?k _ = Ok _ _ => assert (Hp : preserves (evolves [s]) k) by pres
  end.
  eapply evolves_In; [exact (Hp _ _ _ H)|].
  inversion Hadd; subst. simpl. apply in_or_app. right. left. reflexivity.
Qed.
End Assigned.

(** X14: conversely, a record of one of these classes that
    [decode_object] returns is in the handle table: its decoder has
    called [add_reference] on it. *)
Theorem handle_records_are_assigned cf fuel h r h' o :
  decode_object cf fuel h = Ok (VObj r) h' ->
  heap h' !! r = Some o ->
  handle_class (cls o) = true ->
  In (VObj r) (references h').
Proof.
  intros H Ho Hcls. destruct fuel as [|fuel]; [discriminate|]. cbn [decode_object] in H.
  destruct (decode_object_body_class cf _ fuel (decode_object_evolves cf fuel) _ _ _ H)
    as (tc & h1 & Hr & Hc).
  unfold decode_object_body in H. apply bind_Ok in H as (tc' & h1' & Hr' & H).
  rewrite Hr in Hr'. inversion Hr'; subst tc' h1'. clear Hr'.
  destruct (tc =? 0); [discriminate|].
  revert H Hc. unfold tag_class.
  repeat match goal with
         | |- context [if ?a =? ?b then _ else _] => destruct (a =? b)
         end;
    intros H Hc;
    try discriminate;
    try (destruct Hc; discriminate);
    destruct Hc as (o' & Er & Ho' & Ec); inversion Er; subst r; clear Er;
    rewrite Ho in Ho'; inversion Ho'; subst o'; clear Ho';
    rewrite Ec in Hcls; try discriminate; clear Hcls;
    unfold new_NewArray, new_NewClass, new_NewClassDesc, new_Enum, new_LongString,
      new_NewObject, new_String in H;
    apply bind_Ok in H as (x & h2 & Hal & H);
    unfold alloc in Hal; inversion Hal; subst x h2; clear Hal;
    apply bind_Ok in H as ([] & h3 & Hdec & H).
  - apply ret_Ok in H as [_ ->].
    apply (NewArray_decode_assigned cf _ (decode_object_evolves cf fuel) _ _ _ _ Hdec).
  - apply ret_Ok in H as [_ ->].
    apply (NewClass_decode_assigned _ _ _ _ _ Hdec).
  - apply ret_Ok in H as [_ ->].
    apply (NewClassDesc_decode_assigned cf _ (decode_object_evolves cf fuel) _ _ _ _ Hdec).
  - apply ret_Ok in H as [_ ->].
    apply (Enum_decode_assigned _ (decode_object_evolves cf fuel) _ _ _ _ Hdec).
  - apply bind_Ok in H as ([] & h4 & Hadd & H). apply ret_Ok in H as [_ ->].
    inversion Hadd; subst. simpl. apply in_or_app. right. left. reflexivity.
  - apply ret_Ok in H as [_ ->].
    apply (NewObject_decode_assigned cf _ fuel (decode_object_evolves cf fuel) _ _ _ _ Hdec).
  - apply bind_Ok in H as ([] & h4 & Hadd & H). apply ret_Ok in H as [_ ->].
    inversion Hadd; subst. simpl. apply in_or_app. right. left. reflexivity.
Qed.

Lemma handle_records_are_assigned_witness :
  decode_object false 3 (opened false stream_byte_array)
  = Ok (VObj 1) (after_record false 3 stream_byte_array) /\
  heap (after_record false 3 stream_byte_array) !! 1%nat
  = Some (mkObj Cls.NewArray
            [("new_class_desc", VObj 2); ("size", VInt 2); ("type", VStr "byte");
             ("contents", VList [VInt 1; VInt 2])]) /\
  handle_class Cls.NewArray = true /\
  In (VObj 1) (references (after_record false 3 stream_byte_array)).
Proof.
  split; [vm_compute; reflexivity|]. split; [vm_compute; reflexivity|].
  split; [reflexivity|].
  apply (handle_records_are_assigned false 3 (opened false stream_byte_array) 1
           (after_record false 3 stream_byte_array)
           (mkObj Cls.NewArray
              [("new_class_desc", VObj 2); ("size", VInt 2); ("type", VStr "byte");
               ("contents", VList [VInt 1; VInt 2])]));
    vm_compute; reflexivity.
Defined.

(** ** Reading at the end of a frame *)

Section FrameEnd.
Variable cf : bool.
Variable fuel : nat.

(** The handler once a frame of either kind is adopted. *)
Lemma refill_frame_any h tag lenb f rest :
  block_mode h = true ->
  pos h = end_ h ->
  frame_header tag lenb ->
  avail h = tag :: lenb ++ f ++ rest ->
  be_uint lenb = Z.of_nat (length f) ->
  refill (decode_object cf (S fuel)) h
  = Ok tt
      (mkHandler (mkBytesIO (buf (io h)) (cur (io h) + 1 + length lenb + length f))
         0 (Z.of_nat (length f)) true (VObj (length (heap h)))
         (references h) (header h)
         (heap h ++
          [mkObj (frame_class tag)
             (match f with
              | [] => [("size", VInt 0); ("content", VStr ""); ("io", VNone)]
              | _ => [("size", VInt (Z.of_nat (length f))); ("content", VBytes f);
                      ("io", VBytesIO (mkBytesIO f 0))]
              end)])).
Proof.
  intros Hm Hpe Hh Hav Hl. unfold refill.
  erewrite bind_eq by reflexivity. rewrite Hm. cbn [negb].
  erewrite bind_eq by reflexivity.
  erewrite bind_eq by (unfold skip; apply skip_loop_nonpositive; lia).
  erewrite bind_eq by (apply set_block_data_mode_off; assumption).
  erewrite bind_eq
    by (apply (decode_object_frame_any cf fuel _ tag lenb f rest);
        [reflexivity|exact Hh|exact Hav|exact Hl]).
  erewrite bind_eq by (apply set_block_data_mode_on; reflexivity).
  erewrite bind_eq.
  2:{ unfold class_of. cbn [heap with_heap with_io with_pos with_end with_block_mode].
      rewrite list_lookup_middle by reflexivity. reflexivity. }
  assert (Hin : in_classes (Some (frame_class tag)) [Cls.BlockData; Cls.BlockDataLong] = true)
    by (destruct Hh as [[-> _]|[-> _]]; reflexivity).
  cbn [cls]. rewrite Hin. cbn [negb].
  erewrite bind_eq by reflexivity. erewrite bind_eq by reflexivity.
  erewrite bind_eq by reflexivity.
  destruct f as [|b0 f];
    (erewrite bind_eq
       by (unfold getattr;
           cbn [block_data heap with_heap with_io with_pos with_end with_block_mode
                with_block_data];
           rewrite list_lookup_middle by reflexivity; reflexivity));
    erewrite bind_eq by reflexivity; reflexivity.
Qed.
End FrameEnd.

(** X18: in block mode, when the frame that follows is empty, a read
    raises AttributeError (the empty frame has no [io]) and not EOFError;
    the frame is consumed. *)
Theorem empty_frame_read_fails cf fuel fmt ln h tag lenb rest :
  block_mode h = true ->
  pos h = end_ h ->
  frame_header tag lenb ->
  avail h = tag :: lenb ++ rest ->
  be_uint lenb = 0 ->
  Struct.calcsize cf fmt = Some ln ->
  exists h',
    read_struct cf (decode_object cf (S fuel)) fmt h = Raise AttributeError h' /\
    avail h' = rest.
Proof.
  intros Hm Hpe Hh Hav Hl Hc.
  pose proof (refill_frame_any cf fuel h tag lenb [] rest Hm Hpe Hh Hav Hl) as Hrf.
  eexists. split.
  - apply (read_struct_empty_frame cf (S fuel) fmt ln h tt _ Hm Hpe Hc Hrf). reflexivity.
  - unfold avail. cbn [io buf cur length]. rewrite Nat.add_0_r, <- Nat.add_assoc.
    change (drop (cur (io h) + (1 + length lenb)) (buf (io h)))
      with (avail (advance (1 + length lenb) h)).
    rewrite avail_advance, Hav. cbn [drop Nat.add]. apply drop_app_length.
Qed.

Lemma empty_frame_read_fails_witness :
  block_mode (opened_block_mode false stream_empty_frame) = true /\
  pos (opened_block_mode false stream_empty_frame)
  = end_ (opened_block_mode false stream_empty_frame) /\
  frame_header x77 [x00] /\
  avail (opened_block_mode false stream_empty_frame) = x77 :: [x00] ++ [x41] /\
  be_uint [x00] = 0 /\
  Struct.calcsize false ">B" = Some 1%nat /\
  exists h',
    read_struct false (decode_object false 1) ">B"
      (opened_block_mode false stream_empty_frame) = Raise AttributeError h' /\
    avail h' = [x41].
Proof.
  split; [reflexivity|]. split; [reflexivity|]. split; [left; split; reflexivity|].
  split; [vm_compute; reflexivity|]. split; [reflexivity|]. split; [reflexivity|].
  apply (empty_frame_read_fails false 0 ">B" 1%nat _ x77 [x00] [x41]);
    [reflexivity|reflexivity|left; split; reflexivity|vm_compute; reflexivity
    |reflexivity|reflexivity].
Defined.

Lemma byte_val_inj b b' : byte_val b = byte_val b' -> b = b'.
Proof.
  unfold byte_val. intros H. apply N2Z.inj in H.
  pose proof (Byte.of_to_N b) as E. rewrite H, Byte.of_to_N in E. congruence.
Qed.

(** X19: in block mode with the frame used up, when the next record of
    the stream is not block data (its tag is neither [TC_BLOCKDATA] nor
    [TC_BLOCKDATALONG]) a read consumes that record and raises
    Exception("Invalid block data"), leaving the handler in block mode
    with [pos] and [end] at 0. *)
Theorem read_past_frames_fails cf fuel fmt ln h t rest v h1 :
  block_mode h = true ->
  pos h = end_ h ->
  Struct.calcsize cf fmt = Some ln ->
  avail h = t :: rest ->
  t <> x77 -> t <> x7a ->
  decode_object cf fuel (with_block_mode false h) = Ok v h1 ->
  read_struct cf (decode_object cf fuel) fmt h
  = Raise (Exception "Invalid block data")
      (with_block_mode true (with_end 0 (with_pos 0 h1))).
Proof.
  intros Hm Hpe Hc Hav H77 H7a Hdec.
  assert (Hm1 : block_mode h1 = false)
    by (apply (stream_run_decode_object cf fuel _ v h1 Hdec); reflexivity).
  assert (Hcls : exists c, class_of v h1 = Ok c h1 /\
                 in_classes c [Cls.BlockData; Cls.BlockDataLong] = false).
  { destruct fuel as [|fuel']; [discriminate|]. cbn [decode_object] in Hdec.
    destruct (decode_object_body_class cf _ fuel' (decode_object_evolves cf fuel') _ _ _ Hdec)
      as (tc & h0 & Hr & Hcl).
    apply read_byte_stream_Ok in Hr as (_ & b & rest' & Hb & ->); [|reflexivity].
    change (avail (with_block_mode false h)) with (avail h) in Hb.
    rewrite Hav in Hb. inversion Hb; subst b rest'. clear Hb.
    destruct (tag_class (byte_val t)) as [c|] eqn:Et.
    - destruct Hcl as (o & -> & Ho & <-). exists (Some (cls o)). split.
      + unfold class_of. rewrite Ho. reflexivity.
      + destruct (in_classes (Some (cls o)) [Cls.BlockData; Cls.BlockDataLong]) eqn:Hin;
          [|reflexivity].
        destruct (tag_class_frame _ _ Et Hin) as [[E _]|[E _]]; exfalso.
        * apply H77. apply byte_val_inj. exact E.
        * apply H7a. apply byte_val_inj. exact E.
    - destruct Hcl as [-> _]. exists None. split; reflexivity. }
  destruct Hcls as (c & Hcl & Hin).
  unfold read_struct. rewrite Hc. cbn [lift_opt].
  unfold bind at 1. cbn [ret]. unfold bind at 1, get at 1.
  rewrite Hm, (proj2 (Z.eqb_eq _ _) Hpe). cbn [andb].
  unfold bind at 1. unfold refill.
  erewrite bind_eq by reflexivity. rewrite Hm. cbn [negb].
  erewrite bind_eq by reflexivity.
  erewrite bind_eq by (unfold skip; apply skip_loop_nonpositive; lia).
  erewrite bind_eq by (apply set_block_data_mode_off; assumption).
  erewrite bind_eq by exact Hdec.
  erewrite bind_eq by (apply set_block_data_mode_on; exact Hm1).
  assert (Hcl' : class_of v (with_block_mode true (with_end 0 (with_pos 0 h1)))
                 = Ok c (with_block_mode true (with_end 0 (with_pos 0 h1)))).
  { clear - Hcl. unfold class_of in *. destruct v; try (inversion Hcl; reflexivity).
    cbn [heap with_block_mode with_end with_pos].
    destruct (heap h1 !! a); inversion Hcl; reflexivity. }
  erewrite bind_eq by exact Hcl'.
  rewrite Hin. reflexivity.
Qed.

Lemma read_past_frames_fails_witness :
  block_mode (opened_block_mode false stream_back_reference) = true /\
  pos (opened_block_mode false stream_back_reference)
  = end_ (opened_block_mode false stream_back_reference) /\
  Struct.calcsize false ">B" = Some 1%nat /\
  avail (opened_block_mode false stream_back_reference)
  = x74 :: [x00; x01; x41; x71; x00; x7e; x00; x00] /\
  x74 <> x77 /\ x74 <> x7a /\
  decode_object false 1 (with_block_mode false (opened_block_mode false stream_back_reference))
  = Ok (VObj 1) (with_pos 4 (after_record false 1 stream_back_reference)) /\
  read_struct false (decode_object false 1) ">B"
    (opened_block_mode false stream_back_reference)
  = Raise (Exception "Invalid block data")
      (with_block_mode true
         (with_end 0
            (with_pos 0 (with_pos 4 (after_record false 1 stream_back_reference))))).
Proof.
  split; [reflexivity|]. split; [reflexivity|]. split; [reflexivity|].
  split; [vm_compute; reflexivity|]. split; [discriminate|]. split; [discriminate|].
  split; [vm_compute; reflexivity|].
  apply (read_past_frames_fails false 1 ">B" 1%nat _ x74
           [x00; x01; x41; x71; x00; x7e; x00; x00] (VObj 1));
    [reflexivity|reflexivity|reflexivity|vm_compute; reflexivity|discriminate|discriminate
    |vm_compute; reflexivity].
Defined.

(** X20: [skip(n)] does nothing for [n <= 0].  For [n > 0] it makes one
    [seek]: when the new position is a [Py_ssize_t] the cursor of the
    stream moves [n] bytes on, past the end of the data if need be, and
    nothing is raised ([seek] returns the new position, which is not 0, so
    the loop ends and EOFError is never raised); when it is not, [seek]
    raises OverflowError and the cursor stays. *)
Theorem skip_moves_cursor n h :
  (n <= 0 -> skip n h = Ok tt h) /\
  (0 < n -> Z.of_nat (cur (io h)) + n <= PY_SSIZE_T_MAX ->
   skip n h
   = Ok tt (with_io (mkBytesIO (buf (io h)) (cur (io h) + Z.to_nat n)) h)) /\
  (0 < n -> PY_SSIZE_T_MAX < Z.of_nat (cur (io h)) + n ->
   skip n h = Raise OverflowError h).
Proof.
  split; [|split].
  - intros Hn. unfold skip. apply skip_loop_nonpositive. exact Hn.
  - apply skip_positive.
  - apply skip_overflow.
Qed.

Lemma skip_moves_cursor_witness :
  skip 0 (opened false stream_reset) = Ok tt (opened false stream_reset) /\
  (0 < 100 /\
   Z.of_nat (cur (io (opened false stream_reset))) + 100 <= PY_SSIZE_T_MAX /\
   skip 100 (opened false stream_reset)
   = Ok tt
       (with_io
          (mkBytesIO (buf (io (opened false stream_reset)))
             (cur (io (opened false stream_reset)) + Z.to_nat 100))
          (opened false stream_reset))) /\
  (0 < 2 ^ 63 /\
   PY_SSIZE_T_MAX < Z.of_nat (cur (io (opened false stream_reset))) + 2 ^ 63 /\
   skip (2 ^ 63) (opened false stream_reset)
   = Raise OverflowError (opened false stream_reset)).
Proof.
  split; [|split].
  - apply (proj1 (skip_moves_cursor 0 (opened false stream_reset))). lia.
  - split; [lia|]. split; [vm_compute; discriminate|].
    apply (proj1 (proj2 (skip_moves_cursor 100 (opened false stream_reset))));
      [lia|vm_compute; discriminate].
  - split; [lia|]. split; [vm_compute; reflexivity|].
    apply (proj2 (proj2 (skip_moves_cursor (2 ^ 63) (opened false stream_reset))));
      [lia|vm_compute; reflexivity].
Defined.

(** X9: the tag [TC_RESET] is read and nothing else happens:
    [decode_object] returns [None] and the handle table is as it was. *)
Theorem reset_tag_ignored cf fuel h rest :
  block_mode h = false ->
  avail h = x79 :: rest ->
  decode_object cf (S fuel) h = Ok VNone (advance 1 h).
Proof.
  intros Hm Ha. cbn [decode_object]. unfold decode_object_body.
  rewrite (bind_eq _ _ _ _ _ (read_byte_stream cf _ h x79 _ Hm Ha)). reflexivity.
Qed.

Lemma reset_tag_ignored_witness :
  block_mode (opened false stream_reset) = false /\
  avail (opened false stream_reset) = x79 :: [] /\
  decode_object false 1 (opened false stream_reset)
  = Ok VNone (advance 1 (opened false stream_reset)).
Proof.
  split; [reflexivity|]. split; [vm_compute; reflexivity|].
  apply (reset_tag_ignored false 0 _ []); [reflexivity|vm_compute; reflexivity].
Defined.

(** X17: a sequence of byte, short, int, long and boolean reads returns
    the same values from bytes that come in block-data frames, however
    the bytes are cut into frames of 1 to 255 bytes, as from the same
    bytes in the stream. *)
Theorem integers_across_frames cf fuel ts n frames rest rest_s hb hs :
  integer_widths ts = Some n ->
  block_mode hb = true -> pos hb = end_ hb ->
  avail hb = wire frames ++ rest ->
  Forall valid_frame frames ->
  block_mode hs = false ->
  avail hs = concat frames ++ rest_s ->
  (n <= length (concat frames))%nat ->
  exists vs hb' hs',
    mapM (fun t => read_primitive cf (decode_object cf (S fuel)) (VStr t)) ts hb
    = Ok vs hb' /\
    mapM (fun t => read_primitive cf (decode_object cf (S fuel)) (VStr t)) ts hs
    = Ok vs hs' /\
    block_mode hb' = true /\ block_mode hs' = false.
Proof.
  intros Hw Hmb Hpe Hav Hv Hms Havs Hn.
  destruct (integers_read_alike cf fuel rest ts n Hw hb hs (concat frames))
    as (vs & hb' & hs' & Eb & Es & Hb' & Hs' & _); [|exact Hn|].
  - apply (same_data_start rest rest_s); assumption.
  - exists vs, hb', hs'. auto.
Qed.

Lemma integers_across_frames_witness :
  integer_widths ["int"] = Some 4%nat /\
  block_mode (opened_block_mode false stream_int_two_frames) = true /\
  pos (opened_block_mode false stream_int_two_frames)
  = end_ (opened_block_mode false stream_int_two_frames) /\
  avail (opened_block_mode false stream_int_two_frames)
  = wire [[x00; x00]; [x00; x05]] ++ [] /\
  Forall valid_frame [[x00; x00]; [x00; x05]] /\
  block_mode (opened false stream_int) = false /\
  avail (opened false stream_int) = concat [[x00; x00]; [x00; x05]] ++ [] /\
  (4 <= length (concat [[x00; x00]; [x00; x05]]))%nat /\
  exists vs hb' hs',
    mapM (fun t => read_primitive false (decode_object false 1) (VStr t)) ["int"]
      (opened_block_mode false stream_int_two_frames) = Ok vs hb' /\
    mapM (fun t => read_primitive false (decode_object false 1) (VStr t)) ["int"]
      (opened false stream_int) = Ok vs hs' /\
    block_mode hb' = true /\ block_mode hs' = false.
Proof.
  assert (Hv : Forall valid_frame [[x00; x00]; [x00; x05]])
    by (repeat constructor; simpl; lia).
  split; [reflexivity|]. split; [reflexivity|]. split; [reflexivity|].
  split; [vm_compute; reflexivity|]. split; [exact Hv|]. split; [reflexivity|].
  split; [vm_compute; reflexivity|]. split; [simpl; lia|].
  apply (integers_across_frames false 0 ["int"] 4%nat [[x00; x00]; [x00; x05]] [] []);
    [reflexivity|reflexivity|reflexivity|vm_compute; reflexivity|exact Hv|reflexivity
    |vm_compute; reflexivity|simpl; lia].
Defined.

(** X11: [decode_object] only adds to what is there: the handles
    assigned before stay at their index, and every object that existed
    keeps its class and all its attributes but [io] (the reader of a
    block-data frame, which moves when the frame is read). *)
Theorem decode_object_keeps_records cf fuel h v h' :
  decode_object cf fuel h = Ok v h' ->
  references h `prefix_of` references h' /\
  forall a o,
    heap h !! a = Some o ->
    exists o',
      heap h' !! a = Some o' /\ cls o' = cls o /\
      forall name, name <> "io" -> attr_get name (attrs o') = attr_get name (attrs o).
Proof.
  intros H. destruct (decode_object_evolves cf fuel [] h v h' H) as [Hr _ Hf].
  split; [exact Hr|]. intros a o Ha.
  destruct (Hf a o Ha) as (o' & Ha' & Hc & Hat); [intros []|].
  exists o'. split; [exact Ha'|]. split; [congruence|].
  intros name Hn. symmetry. apply Hat, Hn.
Qed.

Lemma decode_object_keeps_records_witness :
  decode_object false 1 (after_record false 1 stream_back_reference)
  = Ok (VObj 2) (after_second_record false 1 stream_back_reference) /\
  references (after_record false 1 stream_back_reference)
  `prefix_of` references (after_second_record false 1 stream_back_reference) /\
  forall a o,
    heap (after_record false 1 stream_back_reference) !! a = Some o ->
    exists o',
      heap (after_second_record false 1 stream_back_reference) !! a = Some o' /\
      cls o' = cls o /\
      forall name, name <> "io" -> attr_get name (attrs o') = attr_get name (attrs o).
Proof.
  split; [vm_compute; reflexivity|].
  apply (decode_object_keeps_records false 1 (after_record false 1 stream_back_reference)
           (VObj 2) (after_second_record false 1 stream_back_reference)).
  vm_compute; reflexivity.
Defined.

(** X10: in stream mode what [decode_object] returns is fixed by the
    tag: for a tag of the dispatch, the object this call has created (at
    the next free address), of the class of the tag; for any other tag
    [None], with only the tag consumed.  An object that existed before is
    never returned, a back reference comes wrapped in a new Reference. *)
Theorem decode_object_returns_new_record cf fuel h t rest v h' :
  block_mode h = false ->
  avail h = t :: rest ->
  decode_object cf fuel h = Ok v h' ->
  match tag_class (byte_val t) with
  | Some c =>
      exists o, v = VObj (length (heap h)) /\
                heap h' !! length (heap h) = Some o /\ cls o = c
  | None => v = VNone /\ h' = advance 1 h
  end.
Proof.
  intros Hm Ha H. destruct fuel as [|fuel]; [discriminate|]. cbn [decode_object] in H.
  destruct (decode_object_body_class cf _ fuel (decode_object_evolves cf fuel) _ _ _ H)
    as (tc & h1 & Hr & Hc).
  apply read_byte_stream_Ok in Hr as (-> & b & rest' & Hb & ->); [|exact Hm].
  rewrite Ha in Hb. inversion Hb; subst b rest'. exact Hc.
Qed.

Lemma decode_object_returns_new_record_witness :
  block_mode (opened false stream_back_reference) = false /\
  avail (opened false stream_back_reference)
  = x74 :: [x00; x01; x41; x71; x00; x7e; x00; x00] /\
  decode_object false 1 (opened false stream_back_reference)
  = Ok (VObj 1) (after_record false 1 stream_back_reference) /\
  match tag_class (byte_val x74) with
  | Some c =>
      exists o, VObj 1 = VObj (length (heap (opened false stream_back_reference))) /\
                heap (after_record false 1 stream_back_reference)
                !! length (heap (opened false stream_back_reference)) = Some o /\
                cls o = c
  | None => VObj 1 = VNone /\
            after_record false 1 stream_back_reference
            = advance 1 (opened false stream_back_reference)
  end.
Proof.
  split; [reflexivity|]. split; [vm_compute; reflexivity|].
  split; [vm_compute; reflexivity|].
  apply (decode_object_returns_new_record false 1 (opened false stream_back_reference)
           x74 [x00; x01; x41; x71; x00; x7e; x00; x00] (VObj 1)
           (after_record false 1 stream_back_reference));
    [reflexivity|vm_compute; reflexivity|vm_compute; reflexivity].
Defined.

(** The tables: [TYPES] is the union of [OBJECT_TYPES] and
    [PRIMITIVE_TYPES], which share no key. *)
Lemma field_codes_partition code :
  bool_decide (is_Some (Constants.TYPES code))
  = bool_decide (is_Some (Constants.OBJECT_TYPES code))
    || bool_decide (is_Some (Constants.PRIMITIVE_TYPES code)) /\
  bool_decide (is_Some (Constants.OBJECT_TYPES code))
  && bool_decide (is_Some (Constants.PRIMITIVE_TYPES code)) = false.
Proof.
  unfold Constants.TYPES.
  destruct (Constants.OBJECT_TYPES code) as [t|] eqn:Eo.
  - split; [reflexivity|].
    assert (Constants.PRIMITIVE_TYPES code = None) as ->; [|reflexivity].
    unfold Constants.OBJECT_TYPES, Constants.PRIMITIVE_TYPES, Constants.by_code in *.
    destruct code as [| |z|s|bs| | | |]; try discriminate.
    + destruct ((0 <=? z) && (z <? 256)); [|discriminate].
      destruct (ascii_of_N (Z.to_N z)) as [[] [] [] [] [] [] [] []]; try discriminate;
        reflexivity.
    + destruct s as [|[[] [] [] [] [] [] [] []] [|]]; try discriminate; reflexivity.
    + destruct bs as [|b [|]]; try discriminate.
      destruct (ascii_of_byte b) as [[] [] [] [] [] [] [] []]; try discriminate;
        reflexivity.
  - split; [|reflexivity].
    destruct (Constants.PRIMITIVE_TYPES code); reflexivity.
Qed.

(** X21: for the type code of a field, [is_valid] is [is_object] or
    [is_primitive], never both, and whenever [is_primitive] holds
    [get_primitive_type] returns a type name (no KeyError). *)
Theorem field_kinds_partition self h valid object primitive h1 h2 h3 :
  Field_is_valid self h = Ok valid h1 ->
  Field_is_object self h = Ok object h2 ->
  Field_is_primitive self h = Ok primitive h3 ->
  valid = object || primitive /\ object && primitive = false /\
  (primitive = true -> exists t, Field_get_primitive_type self h = Ok (VStr t) h).
Proof.
  unfold Field_is_valid, Field_is_object, Field_is_primitive, Field_get_primitive_type.
  intros Hv Ho Hp.
  apply bind_Ok in Hv as (c & h0 & Hc & Hv). apply ret_Ok in Hv as [-> _].
  apply bind_Ok in Ho as (c' & h0' & Hc' & Ho). apply ret_Ok in Ho as [-> _].
  apply bind_Ok in Hp as (c'' & h0'' & Hc'' & Hp). apply ret_Ok in Hp as [-> _].
  rewrite Hc in Hc', Hc''. inversion Hc'; subst c' h0'. inversion Hc''; subst c'' h0''.
  destruct (field_codes_partition c) as [E1 E2].
  split; [exact E1|]. split; [exact E2|].
  intros Hprim. apply bool_decide_eq_true in Hprim as [t Ht].
  exists t. unfold bind. rewrite Hc.
  apply getattr_Ok in Hc as [-> _]. rewrite Ht. reflexivity.
Qed.

Lemma field_kinds_partition_witness :
  Field_is_valid (VObj 5) (after_record false 4 stream_object_B)
  = Ok true (after_record false 4 stream_object_B) /\
  Field_is_object (VObj 5) (after_record false 4 stream_object_B)
  = Ok false (after_record false 4 stream_object_B) /\
  Field_is_primitive (VObj 5) (after_record false 4 stream_object_B)
  = Ok true (after_record false 4 stream_object_B) /\
  true = false || true /\ false && true = false /\
  (true = true ->
   exists t,
     Field_get_primitive_type (VObj 5) (after_record false 4 stream_object_B)
     = Ok (VStr t) (after_record false 4 stream_object_B)).
Proof.
  split; [vm_compute; reflexivity|]. split; [vm_compute; reflexivity|].
  split; [vm_compute; reflexivity|].
  apply (field_kinds_partition (VObj 5) (after_record false 4 stream_object_B)
           true false true (after_record false 4 stream_object_B)
           (after_record false 4 stream_object_B) (after_record false 4 stream_object_B));
    vm_compute; reflexivity.
Defined.

(** ** Arrays *)

Lemma repeatM_length {A} n (m : M A) : forall h l h',
  repeatM n m h = Ok l h' -> length l = n.
Proof.
  induction n as [|n IH]; intros h l h' H; simpl in H.
  - apply ret_Ok in H as [-> _]. reflexivity.
  - apply bind_Ok in H as (x & h1 & _ & H).
    apply bind_Ok in H as (xs & h2 & Hxs & H). apply ret_Ok in H as [-> _].
    simpl. f_equal. eauto.
Qed.

Section Arrays.
Variable cf : bool.
Variable rec : M value.
Hypothesis rec_evolves : forall S, preserves (evolves S) rec.

(** [NewArray.decode] leaves in [contents] as many values as [size]
    says. *)
Lemma NewArray_decode_size r h u h' :
  NewArray_decode cf rec (VObj r) h = Ok u h' ->
  exists o n l,
    heap h' !! r = Some o /\
    attr_get "size" (attrs o) = Some (VInt n) /\
    attr_get "contents" (attrs o) = Some (VList l) /\
    length l = Z.to_nat n.
Proof.
  unfold NewArray_decode. intros H.
  apply bind_Ok in H as (cd & h1 & _ & H).
  apply bind_Ok in H as (c & h2 & _ & H).
  destruct (negb _); [discriminate|].
  apply bind_Ok in H as (cd' & h3 & _ & H).
  apply bind_Ok in H as ([] & h4 & _ & H).
  apply bind_Ok in H as ([] & h5 & _ & H).
  apply bind_Ok in H as (ty & h6 & _ & H).
  apply bind_Ok in H as ([] & h7 & _ & H).
  apply bind_Ok in H as (n & h8 & _ & H).
  apply bind_Ok in H as ([] & h9 & Hset & H).
  apply bind_Ok in H as (l & h10 & Hrep & H).
  apply setattr_Ok in Hset as (r' & o8 & Er & Ho8 & ->). inversion Er; subst r'. clear Er.
  assert (Ev : evolves [] (with_heap (<[r := mkObj (cls o8) (attr_set "size" (VInt n) (attrs o8))]> (heap h8)) h8) h10).
  { revert Hrep. apply (preserves_repeatM _ (evolves_refl _) (evolves_trans _)).
    apply (preserves_bind _ (evolves_trans _)); [apply getattr_evolves|]. intros t.
    apply (preserves_bind _ (evolves_trans _));
      [apply read_primitive_evolves, rec_evolves|]. intros x.
    apply unwrap_reference_evolves. }
  destruct (ev_frame _ _ _ Ev r (mkObj (cls o8) (attr_set "size" (VInt n) (attrs o8))))
    as (o10 & Ho10 & _ & Hat).
  { simpl. apply list_lookup_insert_eq. eapply lookup_lt_Some; eauto. }
  { intros []. }
  apply repeatM_length in Hrep.
  apply setattr_Ok in H as (r' & o10' & Er & Ho10' & ->). inversion Er; subst r'. clear Er.
  rewrite Ho10 in Ho10'. inversion Ho10'; subst o10'. clear Ho10'.
  eexists _, n, l. simpl. split; [|split; [|split]].
  - apply list_lookup_insert_eq. eapply lookup_lt_Some; eauto.
  - simpl. rewrite attr_get_set_ne by discriminate.
    rewrite <- Hat by discriminate. simpl. apply attr_get_set_eq.
  - simpl. apply attr_get_set_eq.
  - exact Hrep.
Qed.
End Arrays.

Lemma tag_class_NewArray tc :
  tag_class tc = Some Cls.NewArray -> tc = Constants.TC_ARRAY.
Proof.
  unfold tag_class.
  repeat match goal with
         | |- context [if ?a =? ?b then _ else _] =>
             destruct (Z.eqb_spec a b); [try discriminate|]
         end; try discriminate.
  intros _. assumption.
Qed.

(** X22: a NewArray record that [decode_object] returns has in
    [contents] as many elements as its [size]. *)
Theorem array_contents_match_size cf fuel h r h' o :
  decode_object cf fuel h = Ok (VObj r) h' ->
  heap h' !! r = Some o ->
  cls o = Cls.NewArray ->
  exists n l,
    attr_get "size" (attrs o) = Some (VInt n) /\
    attr_get "contents" (attrs o) = Some (VList l) /\
    length l = Z.to_nat n.
Proof.
  intros H Ho Hcls. destruct fuel as [|fuel]; [discriminate|]. simpl in H.
  destruct (decode_object_body_class cf _ fuel (decode_object_evolves cf fuel) _ _ _ H)
    as (tc & h1 & Hr & Hc).
  destruct (tag_class tc) as [c|] eqn:Et; [|destruct Hc; discriminate].
  destruct Hc as (o' & Er & Ho' & Ec). inversion Er; subst r. clear Er.
  rewrite Ho in Ho'. inversion Ho'; subst o'. clear Ho'.
  rewrite Hcls in Ec. subst c. apply tag_class_NewArray in Et. subst tc.
  unfold decode_object_body, bind at 1 in H. rewrite Hr in H. simpl in H.
  unfold new_NewArray in H.
  apply bind_Ok in H as (x & h2 & Hal & H).
  unfold alloc in Hal. inversion Hal; subst x h2. clear Hal.
  apply bind_Ok in H as ([] & h3 & Hdec & H). apply ret_Ok in H as [_ ->].
  apply NewArray_decode_size in Hdec; [|apply decode_object_evolves].
  destruct Hdec as (o' & n & l & Ho' & Hn & Hl & Hlen).
  rewrite Ho in Ho'. inversion Ho'; subst o'. eauto.
Qed.

Lemma array_contents_match_size_witness :
  decode_object false 3 (opened false stream_byte_array)
  = Ok (VObj 1) (after_record false 3 stream_byte_array) /\
  heap (after_record false 3 stream_byte_array) !! 1%nat
  = Some (mkObj Cls.NewArray
            [("new_class_desc", VObj 2); ("size", VInt 2); ("type", VStr "byte");
             ("contents", VList [VInt 1; VInt 2])]) /\
  exists n l,
    attr_get "size"
      [("new_class_desc", VObj 2); ("size", VInt 2); ("type", VStr "byte");
       ("contents", VList [VInt 1; VInt 2])] = Some (VInt n) /\
    attr_get "contents"
      [("new_class_desc", VObj 2); ("size", VInt 2); ("type", VStr "byte");
       ("contents", VList [VInt 1; VInt 2])] = Some (VList l) /\
    length l = Z.to_nat n.
Proof.
  split; [vm_compute; reflexivity|]. split; [vm_compute; reflexivity|].
  apply (array_contents_match_size false 3 (opened false stream_byte_array) 1
           (after_record false 3 stream_byte_array)
           (mkObj Cls.NewArray
              [("new_class_desc", VObj 2); ("size", VInt 2); ("type", VStr "byte");
               ("contents", VList [VInt 1; VInt 2])]));
    vm_compute; reflexivity.
Defined.

(** ** Steps of a run in stream mode *)

Lemma after_reading_start h : after_reading h 0 [] [] = h.
Proof.
  unfold after_reading. handler_eq.
  - destruct (io h). simpl. now rewrite Nat.add_0_r.
  - lia.
  - apply app_nil_r.
  - apply app_nil_r.
Qed.

Lemma drop_step {A} n (l : list A) pre t :
  drop n l = pre ++ t -> drop (n + length pre) l = t.
Proof. intros H. rewrite <- drop_drop, H. apply drop_app_length. Qed.

Section Steps.
Variable cf : bool.
Variable rec : M value.
Variable h : Handler.
Hypothesis stream_mode : block_mode h = false.

Lemma avail_after_reading n r o : avail (after_reading h n r o) = drop n (avail h).
Proof. change (avail (after_reading h n r o)) with (avail (advance n h)). apply avail_advance. Qed.

Lemma after_reading_advance n m r o :
  advance m (after_reading h n r o) = after_reading h (n + m) r o.
Proof. unfold after_reading. handler_eq; [f_equal|]; lia. Qed.

Lemma read_byte_after n r o b t :
  drop n (avail h) = b :: t ->
  read_byte cf rec (after_reading h n r o) = Ok (byte_val b) (after_reading h (n + 1) r o).
Proof.
  intros Hd. rewrite <- after_reading_advance.
  apply (read_byte_stream cf rec _ b t); [exact stream_mode|].
  rewrite avail_after_reading. exact Hd.
Qed.

Lemma read_short_after n r o b1 b2 t :
  drop n (avail h) = b1 :: b2 :: t ->
  read_short cf rec (after_reading h n r o)
  = Ok (be_uint [b1; b2]) (after_reading h (n + 2) r o).
Proof.
  intros Hd. rewrite <- after_reading_advance.
  apply (read_short_stream cf rec _ b1 b2 t); [exact stream_mode|].
  rewrite avail_after_reading. exact Hd.
Qed.

Lemma read_int_after n r o b1 b2 b3 b4 t :
  drop n (avail h) = b1 :: b2 :: b3 :: b4 :: t ->
  read_int cf rec (after_reading h n r o)
  = Ok (be_uint [b1; b2; b3; b4]) (after_reading h (n + 4) r o).
Proof.
  intros Hd. rewrite <- after_reading_advance.
  apply (read_int_stream cf rec _ b1 b2 b3 b4 t); [exact stream_mode|].
  rewrite avail_after_reading. exact Hd.
Qed.

Lemma read_long_after n r o b1 b2 b3 b4 b5 b6 b7 b8 t :
  drop n (avail h) = b1 :: b2 :: b3 :: b4 :: b5 :: b6 :: b7 :: b8 :: t ->
  read_long cf rec (after_reading h n r o)
  = Ok (be_uint [b1; b2; b3; b4; b5; b6; b7; b8]) (after_reading h (n + 8) r o).
Proof.
  intros Hd. rewrite <- after_reading_advance.
  apply (read_long_stream cf rec _ b1 b2 b3 b4 b5 b6 b7 b8 t); [exact stream_mode|].
  rewrite avail_after_reading. exact Hd.
Qed.

Lemma read_chars_after n r o s t :
  drop n (avail h) = s ++ t ->
  repeatM (length s) (b <- read_byte cf rec ;; ret (chr b)) (after_reading h n r o)
  = Ok ((fun b => chr (byte_val b)) <$> s) (after_reading h (n + length s) r o).
Proof.
  intros Hd. rewrite <- after_reading_advance.
  apply (read_chars_stream cf rec s _ t); [exact stream_mode|].
  rewrite avail_after_reading. exact Hd.
Qed.

Lemma alloc_after n r o x :
  alloc x (after_reading h n r o)
  = Ok (VObj (length (heap h) + length o)) (after_reading h n r (o ++ [x])).
Proof.
  unfold alloc. f_equal.
  - cbn [heap after_reading with_references with_heap]. now rewrite length_app.
  - unfold after_reading. handler_eq. now rewrite app_assoc.
Qed.

Lemma add_reference_after n r o v :
  add_reference v (after_reading h n r o) = Ok tt (after_reading h n (r ++ [v]) o).
Proof.
  unfold add_reference, modify. f_equal. unfold after_reading. handler_eq.
  now rewrite app_assoc.
Qed.

Lemma heap_after_reading n r o k :
  heap (after_reading h n r o) !! (length (heap h) + k)%nat = o !! k.
Proof.
  cbn [heap after_reading with_references with_heap].
  rewrite lookup_app_r by lia. f_equal. lia.
Qed.

Lemma setattr_after n r o k ob name x :
  o !! k = Some ob ->
  setattr (VObj (length (heap h) + k)) name x (after_reading h n r o)
  = Ok tt (after_reading h n r (<[k := mkObj (cls ob) (attr_set name x (attrs ob))]> o)).
Proof.
  intros Ho. unfold setattr. rewrite heap_after_reading, Ho. f_equal.
  unfold after_reading. handler_eq. apply insert_app_r.
Qed.

Lemma getattr_after n r o k ob name x :
  o !! k = Some ob -> attr_get name (attrs ob) = Some x ->
  getattr (VObj (length (heap h) + k)) name (after_reading h n r o)
  = Ok x (after_reading h n r o).
Proof.
  intros Ho Hx. unfold getattr. now rewrite heap_after_reading, Ho, Hx.
Qed.

Lemma class_of_after n r o k ob :
  o !! k = Some ob ->
  class_of (VObj (length (heap h) + k)) (after_reading h n r o)
  = Ok (Some (cls ob)) (after_reading h n r o).
Proof.
  intros Ho. unfold class_of. now rewrite heap_after_reading, Ho.
Qed.

Lemma unwrap_reference_after n r o k ob :
  o !! k = Some ob -> is_class (Some (cls ob)) Cls.Reference = false ->
  unwrap_reference (VObj (length (heap h) + k)) (after_reading h n r o)
  = Ok (VObj (length (heap h) + k)) (after_reading h n r o).
Proof.
  intros Ho Hc. unfold unwrap_reference.
  erewrite bind_eq by (apply class_of_after; exact Ho). rewrite Hc. reflexivity.
Qed.
End Steps.

(** ** An array and its class description, in stream mode *)

Section ArrayBytes.
Variable cf : bool.
Variable fuel : nat.
Variable h : Handler.
Hypothesis stream_mode : block_mode h = false.

Lemma String_decode_after rec n r o k s l1 l2 t :
  drop n (avail h) = l1 :: l2 :: s ++ t ->
  be_uint [l1; l2] = Z.of_nat (length s) ->
  o !! k = Some (mkObj Cls.String [("content", VStr "")]) ->
  String_decode cf rec (VObj (length (heap h) + k)) (after_reading h n r o)
  = Ok tt (after_reading h (n + 2 + length s) r
             (<[k := mkObj Cls.String [("content", VStr (latin1 s))]]> o)).
Proof.
  intros Hd Hl Ho.
  rewrite (String_decode_stream cf rec _ _ l1 l2 s t);
    [|exact stream_mode|rewrite avail_after_reading; exact Hd|exact Hl
     |rewrite heap_after_reading; exact Ho].
  f_equal. unfold after_reading. handler_eq.
  - f_equal. lia.
  - lia.
  - apply insert_app_r.
Qed.

Lemma decode_object_EndBlockData_after n r o t :
  drop n (avail h) = x78 :: t ->
  decode_object cf (S fuel) (after_reading h n r o)
  = Ok (VObj (length (heap h) + length o))
      (after_reading h (n + 1) r (o ++ [mkObj Cls.EndBlockData []])).
Proof.
  intros Hd. enter.
  erewrite bind_eq by (eapply read_byte_after; eauto).
  change (byte_val x78) with 120. dispatch. apply alloc_after.
Qed.

Lemma decode_object_Null_after n r o t :
  drop n (avail h) = x70 :: t ->
  decode_object cf (S fuel) (after_reading h n r o)
  = Ok (VObj (length (heap h) + length o))
      (after_reading h (n + 1) r (o ++ [mkObj Cls.Null []])).
Proof.
  intros Hd. enter.
  erewrite bind_eq by (eapply read_byte_after; eauto).
  change (byte_val x70) with 112. dispatch. apply alloc_after.
Qed.

(** The class description of an array: a name, no field, no annotation,
    no super class. *)
Lemma array_class_desc_after n r o0 l1 l2 name u1 u2 u3 u4 u5 u6 u7 u8 fl t :
  drop n (avail h)
  = l1 :: l2 :: name ++
    u1 :: u2 :: u3 :: u4 :: u5 :: u6 :: u7 :: u8 :: fl :: x00 :: x00 :: x78 :: x70 :: t ->
  be_uint [l1; l2] = Z.of_nat (length name) ->
  NewClassDesc_decode cf (decode_object cf (S fuel)) (VObj (length (heap h) + 1))
    (after_reading h n r
       [o0;
        mkObj Cls.NewClassDesc
          [("class_name", VStr ""); ("serial_version_uid", VInt 0);
           ("flags", VInt 0); ("fields", VList []); ("super_class", VNone)]])
  = Ok tt
      (after_reading h (n + 2 + length name + 8 + 1 + 2 + 1 + 1)
         (r ++ [VObj (length (heap h) + 1)])
         [o0;
          mkObj Cls.NewClassDesc
            [("class_name", VStr (latin1 name));
             ("serial_version_uid", VInt (be_uint [u1; u2; u3; u4; u5; u6; u7; u8]));
             ("flags", VInt (byte_val fl)); ("fields", VList []);
             ("super_class", VObj (length (heap h) + 4))];
          mkObj Cls.String [("content", VStr (latin1 name))];
          mkObj Cls.EndBlockData [];
          mkObj Cls.ClassDesc [("content", VObj (length (heap h) + 5))];
          mkObj Cls.Null []]).
Proof.
  intros Hd Hl. unfold NewClassDesc_decode, new_String.
  pose proof (drop_step n (avail h) [l1; l2] _ Hd) as Hd2. cbn [length] in Hd2.
  pose proof (drop_step _ _ name _ Hd2) as Hd3.
  pose proof (drop_step _ _ [u1; u2; u3; u4; u5; u6; u7; u8] _ Hd3) as Hd4.
  cbn [length] in Hd4.
  pose proof (drop_step _ _ [fl] _ Hd4) as Hd5. cbn [length] in Hd5.
  pose proof (drop_step _ _ [x00; x00] _ Hd5) as Hd6. cbn [length] in Hd6.
  pose proof (drop_step _ _ [x78] _ Hd6) as Hd7. cbn [length] in Hd7.
  erewrite bind_eq by apply alloc_after. cbn [length app].
  erewrite bind_eq
    by (eapply (String_decode_after _ _ _ _ 2%nat name l1 l2); [exact Hd|exact Hl|reflexivity]).
  cbn [insert list_insert].
  erewrite bind_eq by (eapply (getattr_after h _ _ _ 2%nat); reflexivity).
  erewrite bind_eq by (eapply (setattr_after h _ _ _ 1%nat); reflexivity).
  cbn [insert list_insert cls attrs attr_set String.eqb Ascii.eqb Bool.eqb].
  erewrite bind_eq by (eapply read_long_after; [exact stream_mode|exact Hd3]).
  erewrite bind_eq by (eapply (setattr_after h _ _ _ 1%nat); reflexivity).
  cbn [insert list_insert cls attrs attr_set String.eqb Ascii.eqb Bool.eqb].
  erewrite bind_eq by apply add_reference_after.
  erewrite bind_eq by (eapply read_byte_after; [exact stream_mode|exact Hd4]).
  erewrite bind_eq by (eapply (setattr_after h _ _ _ 1%nat); reflexivity).
  cbn [insert list_insert cls attrs attr_set String.eqb Ascii.eqb Bool.eqb].
  erewrite bind_eq by (eapply read_short_after; [exact stream_mode|exact Hd5]).
  change (Z.to_nat (be_uint [x00; x00])) with 0%nat. cbn [repeatM].
  erewrite bind_eq by reflexivity.
  erewrite bind_eq by (eapply (setattr_after h _ _ _ 1%nat); reflexivity).
  cbn [insert list_insert cls attrs attr_set String.eqb Ascii.eqb Bool.eqb].
  erewrite bind_eq by (eapply decode_object_EndBlockData_after; exact Hd6).
  cbn [length app].
  erewrite bind_eq by (eapply (class_of_after h _ _ _ 3%nat); reflexivity).
  cbn [cls in_classes existsb is_class Cls.eqb orb negb].
  unfold new_ClassDesc. erewrite bind_eq by apply alloc_after. cbn [length app].
  erewrite bind_eq by (eapply (setattr_after h _ _ _ 1%nat); reflexivity).
  cbn [insert list_insert cls attrs attr_set String.eqb Ascii.eqb Bool.eqb].
  unfold ClassDesc_decode.
  erewrite bind_eq by (eapply decode_object_Null_after; exact Hd7).
  cbn [length app].
  erewrite bind_eq by (eapply (class_of_after h _ _ _ 5%nat); reflexivity).
  cbn [cls in_classes existsb is_class Cls.eqb orb negb].
  erewrite bind_eq by (eapply (unwrap_reference_after h _ _ _ 5%nat); reflexivity).
  erewrite (setattr_after h _ _ _ 4%nat) by reflexivity.
  reflexivity.
Qed.

Lemma decode_object_class_desc_after n r o0 l1 l2 name u1 u2 u3 u4 u5 u6 u7 u8 fl t :
  drop n (avail h)
  = x72 :: l1 :: l2 :: name ++
    u1 :: u2 :: u3 :: u4 :: u5 :: u6 :: u7 :: u8 :: fl :: x00 :: x00 :: x78 :: x70 :: t ->
  be_uint [l1; l2] = Z.of_nat (length name) ->
  decode_object cf (S (S fuel)) (after_reading h n r [o0])
  = Ok (VObj (length (heap h) + 1))
      (after_reading h (n + 1 + 2 + length name + 8 + 1 + 2 + 1 + 1)
         (r ++ [VObj (length (heap h) + 1)])
         [o0;
          mkObj Cls.NewClassDesc
            [("class_name", VStr (latin1 name));
             ("serial_version_uid", VInt (be_uint [u1; u2; u3; u4; u5; u6; u7; u8]));
             ("flags", VInt (byte_val fl)); ("fields", VList []);
             ("super_class", VObj (length (heap h) + 4))];
          mkObj Cls.String [("content", VStr (latin1 name))];
          mkObj Cls.EndBlockData [];
          mkObj Cls.ClassDesc [("content", VObj (length (heap h) + 5))];
          mkObj Cls.Null []]).
Proof.
  intros Hd Hl. enter.
  erewrite bind_eq by (eapply read_byte_after; eauto).
  change (byte_val x72) with 114. dispatch.
  unfold new_NewClassDesc. erewrite bind_eq by apply alloc_after. cbn [length app].
  erewrite bind_eq
    by (eapply array_class_desc_after;
        [exact (drop_step n (avail h) [x72] _ Hd)|exact Hl]).
  reflexivity.
Qed.

(** [NewArray.decode] up to the handle of the array: the class
    description is read and both have their handles. *)
Lemma array_head_after n r l1 l2 name u1 u2 u3 u4 u5 u6 u7 u8 fl t
    (k : value -> M unit) cd arr :
  drop n (avail h)
  = x72 :: l1 :: l2 :: name ++
    u1 :: u2 :: u3 :: u4 :: u5 :: u6 :: u7 :: u8 :: fl :: x00 :: x00 :: x78 :: x70 :: t ->
  be_uint [l1; l2] = Z.of_nat (length name) ->
  cd = mkObj Cls.NewClassDesc
         [("class_name", VStr (latin1 name));
          ("serial_version_uid", VInt (be_uint [u1; u2; u3; u4; u5; u6; u7; u8]));
          ("flags", VInt (byte_val fl)); ("fields", VList []);
          ("super_class", VObj (length (heap h) + 4))] ->
  arr = mkObj Cls.NewArray
          [("new_class_desc", VObj (length (heap h) + 1)); ("size", VInt 0);
           ("type", VStr ""); ("contents", VList [])] ->
  (class_desc <- decode_object cf (S (S fuel)) ;;
   c <- class_of class_desc ;;
   if negb (in_classes c [Cls.NewClassDesc; Cls.Reference])
   then raise (Exception "Invalid type for class desc") else
   class_desc <- unwrap_reference class_desc ;;
   setattr (VObj (length (heap h) + 0)) "new_class_desc" class_desc ;;;
   add_reference (VObj (length (heap h) + 0)) ;;;
   k class_desc)
    (after_reading h n r
       [mkObj Cls.NewArray
          [("new_class_desc", VNone); ("size", VInt 0);
           ("type", VStr ""); ("contents", VList [])]])
  = k (VObj (length (heap h) + 1))
      (after_reading h (n + 1 + 2 + length name + 8 + 1 + 2 + 1 + 1)
         ((r ++ [VObj (length (heap h) + 1)]) ++ [VObj (length (heap h) + 0)])
         [arr; cd;
          mkObj Cls.String [("content", VStr (latin1 name))];
          mkObj Cls.EndBlockData [];
          mkObj Cls.ClassDesc [("content", VObj (length (heap h) + 5))];
          mkObj Cls.Null []]).
Proof.
  intros Hd Hl -> ->.
  erewrite bind_eq by (eapply decode_object_class_desc_after; [exact Hd|exact Hl]).
  erewrite bind_eq by (eapply (class_of_after h _ _ _ 1%nat); reflexivity).
  cbn [cls in_classes existsb is_class Cls.eqb orb negb].
  erewrite bind_eq by (eapply (unwrap_reference_after h _ _ _ 1%nat); reflexivity).
  erewrite bind_eq by (eapply (setattr_after h _ _ _ 0%nat); reflexivity).
  cbn [insert list_insert cls attrs attr_set String.eqb Ascii.eqb Bool.eqb].
  erewrite bind_eq by apply add_reference_after.
  reflexivity.
Qed.

(** The elements of an array of bytes. *)
Lemma read_bytes_after rec data : forall n r o ob t,
  o !! 0%nat = Some ob -> attr_get "type" (attrs ob) = Some (VStr "byte") ->
  drop n (avail h) = data ++ t ->
  repeatM (length data)
    (type <- getattr (VObj (length (heap h) + 0)) "type" ;;
     content <- read_primitive cf rec type ;;
     unwrap_reference content)
    (after_reading h n r o)
  = Ok (byte_values data) (after_reading h (n + length data) r o).
Proof.
  induction data as [|b data IH]; intros n r o ob t Ho Hty Hd; cbn [length repeatM].
  - rewrite Nat.add_0_r. reflexivity.
  - erewrite bind_eq.
    2:{ erewrite bind_eq by (eapply (getattr_after h _ _ _ 0%nat); eassumption).
        unfold read_primitive. cbn [is_str String.eqb Ascii.eqb Bool.eqb].
        erewrite bind_eq.
        2:{ erewrite bind_eq by (eapply read_byte_after; [exact stream_mode|exact Hd]).
            reflexivity. }
        reflexivity. }
    erewrite bind_eq
      by (eapply IH; [exact Ho|exact Hty|exact (drop_step n (avail h) [b] _ Hd)]).
    unfold ret. cbn [length]. rewrite <- Nat.add_assoc. reflexivity.
Qed.
Lemma array_type_byte_after n r o ob od :
  o !! 0%nat = Some ob ->
  attr_get "new_class_desc" (attrs ob) = Some (VObj (length (heap h) + 1)) ->
  o !! 1%nat = Some od -> cls od = Cls.NewClassDesc ->
  attr_get "class_name" (attrs od) = Some (VStr "[B") ->
  NewArray_array_type (VObj (length (heap h) + 0)) (after_reading h n r o)
  = Ok (VStr "byte") (after_reading h n r o).
Proof.
  intros Ho Hcd Hod Hcls Hname. unfold NewArray_array_type.
  erewrite bind_eq by (eapply (getattr_after h _ _ _ 0%nat); eassumption).
  erewrite bind_eq by (eapply (class_of_after h _ _ _ 1%nat); eassumption).
  rewrite Hcls. cbn [is_class Cls.eqb negb].
  erewrite bind_eq by (eapply (getattr_after h _ _ _ 1%nat); eassumption).
  erewrite bind_eq by reflexivity. reflexivity.
Qed.

(** A class name that begins with two brackets: the element type is
    neither a primitive nor an object. *)
Lemma array_type_nested_after n r o ob od name :
  o !! 0%nat = Some ob ->
  attr_get "new_class_desc" (attrs ob) = Some (VObj (length (heap h) + 1)) ->
  o !! 1%nat = Some od -> cls od = Cls.NewClassDesc ->
  attr_get "class_name" (attrs od) = Some (VStr (String "[" (String "[" name))) ->
  NewArray_array_type (VObj (length (heap h) + 0)) (after_reading h n r o)
  = Raise (Exception "Invalid array type") (after_reading h n r o).
Proof.
  intros Ho Hcd Hod Hcls Hname. unfold NewArray_array_type.
  erewrite bind_eq by (eapply (getattr_after h _ _ _ 0%nat); eassumption).
  erewrite bind_eq by (eapply (class_of_after h _ _ _ 1%nat); eassumption).
  rewrite Hcls. cbn [is_class Cls.eqb negb].
  erewrite bind_eq by (eapply (getattr_after h _ _ _ 1%nat); eassumption).
  erewrite bind_eq by reflexivity. reflexivity.
Qed.

Lemma byte_array_steps u1 u2 u3 u4 u5 u6 u7 u8 fl n1 n2 n3 n4 data rest :
  avail h
  = x75 :: x72 :: x00 :: x02 :: x5b :: x42 ::
    u1 :: u2 :: u3 :: u4 :: u5 :: u6 :: u7 :: u8 :: fl :: x00 :: x00 :: x78 :: x70 ::
    n1 :: n2 :: n3 :: n4 :: data ++ rest ->
  be_uint [n1; n2; n3; n4] = Z.of_nat (length data) ->
  decode_object cf (S (S (S fuel))) h
  = Ok (VObj (length (heap h) + 0))
      (after_reading h (23 + length data)
         [VObj (length (heap h) + 1); VObj (length (heap h) + 0)]
         [mkObj Cls.NewArray
            [("new_class_desc", VObj (length (heap h) + 1));
             ("size", VInt (Z.of_nat (length data)));
             ("type", VStr "byte"); ("contents", VList (byte_values data))];
          mkObj Cls.NewClassDesc
            [("class_name", VStr "[B");
             ("serial_version_uid", VInt (be_uint [u1; u2; u3; u4; u5; u6; u7; u8]));
             ("flags", VInt (byte_val fl)); ("fields", VList []);
             ("super_class", VObj (length (heap h) + 4))];
          mkObj Cls.String [("content", VStr "[B")];
          mkObj Cls.EndBlockData [];
          mkObj Cls.ClassDesc [("content", VObj (length (heap h) + 5))];
          mkObj Cls.Null []]).
Proof.
  intros Ha Hl.
  rewrite <- (after_reading_start h) at 1.
  enter.
  erewrite bind_eq by (eapply read_byte_after; [exact stream_mode|rewrite drop_0; exact Ha]).
  change (byte_val x75) with 117. dispatch.
  unfold new_NewArray. erewrite bind_eq by apply alloc_after. cbn [length app Nat.add].
  erewrite bind_eq; [reflexivity|].
  unfold NewArray_decode.
  assert (Hd1 : drop 1 (avail h)
                = x72 :: x00 :: x02 :: [x5b; x42] ++
                  u1 :: u2 :: u3 :: u4 :: u5 :: u6 :: u7 :: u8 :: fl ::
                  x00 :: x00 :: x78 :: x70 :: n1 :: n2 :: n3 :: n4 :: data ++ rest)
    by (rewrite Ha; reflexivity).
  erewrite array_head_after; [|exact Hd1|reflexivity|reflexivity|reflexivity].
  cbn [length Nat.add app]. change (latin1 [x5b; x42]) with "[B".
  erewrite bind_eq by (eapply array_type_byte_after; reflexivity).
  erewrite bind_eq by (eapply (setattr_after h _ _ _ 0%nat); reflexivity).
  cbn [insert list_insert cls attrs attr_set String.eqb Ascii.eqb Bool.eqb].
  erewrite bind_eq
    by (eapply read_int_after; [exact stream_mode|rewrite Ha; reflexivity]).
  erewrite bind_eq by (eapply (setattr_after h _ _ _ 0%nat); reflexivity).
  cbn [insert list_insert cls attrs attr_set String.eqb Ascii.eqb Bool.eqb].
  rewrite Hl, Nat2Z.id.
  erewrite bind_eq
    by (eapply read_bytes_after; [reflexivity|reflexivity|rewrite Ha; reflexivity]).
  erewrite (setattr_after h _ _ _ 0%nat) by reflexivity.
  reflexivity.
Qed.
Lemma nested_array_steps l1 l2 name u1 u2 u3 u4 u5 u6 u7 u8 fl rest :
  avail h
  = x75 :: x72 :: l1 :: l2 :: x5b :: x5b :: name ++
    u1 :: u2 :: u3 :: u4 :: u5 :: u6 :: u7 :: u8 :: fl :: x00 :: x00 :: x78 :: x70 :: rest ->
  be_uint [l1; l2] = Z.of_nat (2 + length name) ->
  exists h',
    decode_object cf (S (S (S fuel))) h = Raise (Exception "Invalid array type") h' /\
    references h'
    = references h ++ [VObj (length (heap h) + 1); VObj (length (heap h) + 0)].
Proof.
  intros Ha Hl.
  assert (Hd1 : drop 1 (avail h)
                = x72 :: l1 :: l2 :: (x5b :: x5b :: name) ++
                  u1 :: u2 :: u3 :: u4 :: u5 :: u6 :: u7 :: u8 :: fl ::
                  x00 :: x00 :: x78 :: x70 :: rest)
    by (rewrite Ha; reflexivity).
  eexists. split.
  - rewrite <- (after_reading_start h) at 1.
    enter.
    erewrite bind_eq by (eapply read_byte_after; [exact stream_mode|rewrite drop_0; exact Ha]).
    change (byte_val x75) with 117. dispatch.
    unfold new_NewArray. erewrite bind_eq by apply alloc_after. cbn [length app Nat.add].
    unfold bind at 1. unfold NewArray_decode.
    erewrite array_head_after; [|exact Hd1|exact Hl|reflexivity|reflexivity].
    unfold bind at 1.
    erewrite array_type_nested_after;
      [|reflexivity|reflexivity|reflexivity|reflexivity|reflexivity].
    reflexivity.
  - cbn [references after_reading with_references]. reflexivity.
Qed.
End ArrayBytes.

(** X23: in stream mode an array of bytes as Java writes it ([TC_ARRAY],
    the class description named "[B" with any serialVersionUID and flags,
    no field, no annotation and no super class, then the length and the
    bytes) decodes to a NewArray of type "byte" whose contents are the
    values 0..255 of the bytes, in order.  The class description gets the
    first new handle and the array the second. *)
Theorem byte_array_decoded cf fuel h u1 u2 u3 u4 u5 u6 u7 u8 fl n1 n2 n3 n4 data rest :
  block_mode h = false ->
  avail h
  = x75 :: x72 :: x00 :: x02 :: x5b :: x42 ::
    u1 :: u2 :: u3 :: u4 :: u5 :: u6 :: u7 :: u8 :: fl :: x00 :: x00 :: x78 :: x70 ::
    n1 :: n2 :: n3 :: n4 :: data ++ rest ->
  be_uint [n1; n2; n3; n4] = Z.of_nat (length data) ->
  decode_object cf (S (S (S fuel))) h
  = Ok (VObj (length (heap h)))
      (after_reading h (23 + length data)
         [VObj (length (heap h) + 1); VObj (length (heap h))]
         [mkObj Cls.NewArray
            [("new_class_desc", VObj (length (heap h) + 1));
             ("size", VInt (Z.of_nat (length data)));
             ("type", VStr "byte"); ("contents", VList (byte_values data))];
          mkObj Cls.NewClassDesc
            [("class_name", VStr "[B");
             ("serial_version_uid", VInt (be_uint [u1; u2; u3; u4; u5; u6; u7; u8]));
             ("flags", VInt (byte_val fl)); ("fields", VList []);
             ("super_class", VObj (length (heap h) + 4))];
          mkObj Cls.String [("content", VStr "[B")];
          mkObj Cls.EndBlockData [];
          mkObj Cls.ClassDesc [("content", VObj (length (heap h) + 5))];
          mkObj Cls.Null []]).
Proof.
  intros Hm Ha Hl. rewrite (byte_array_steps cf fuel h Hm _ _ _ _ _ _ _ _ _ _ _ _ _ _ _ Ha Hl).
  rewrite Nat.add_0_r. reflexivity.
Qed.

Lemma byte_array_decoded_witness :
  block_mode (opened false stream_byte_array) = false /\
  avail (opened false stream_byte_array)
  = x75 :: x72 :: x00 :: x02 :: x5b :: x42 ::
    xac :: xf3 :: x17 :: xf8 :: x06 :: x08 :: x54 :: xe0 :: x02 :: x00 :: x00 :: x78 :: x70 ::
    x00 :: x00 :: x00 :: x02 :: [x01; x02] ++ [] /\
  be_uint [x00; x00; x00; x02] = Z.of_nat (length [x01; x02]) /\
  decode_object false 3 (opened false stream_byte_array)
  = Ok (VObj (length (heap (opened false stream_byte_array))))
      (after_reading (opened false stream_byte_array) (23 + length [x01; x02])
         [VObj (length (heap (opened false stream_byte_array)) + 1);
          VObj (length (heap (opened false stream_byte_array)))]
         [mkObj Cls.NewArray
            [("new_class_desc", VObj (length (heap (opened false stream_byte_array)) + 1));
             ("size", VInt (Z.of_nat (length [x01; x02])));
             ("type", VStr "byte"); ("contents", VList (byte_values [x01; x02]))];
          mkObj Cls.NewClassDesc
            [("class_name", VStr "[B");
             ("serial_version_uid",
              VInt (be_uint [xac; xf3; x17; xf8; x06; x08; x54; xe0]));
             ("flags", VInt (byte_val x02)); ("fields", VList []);
             ("super_class", VObj (length (heap (opened false stream_byte_array)) + 4))];
          mkObj Cls.String [("content", VStr "[B")];
          mkObj Cls.EndBlockData [];
          mkObj Cls.ClassDesc
            [("content", VObj (length (heap (opened false stream_byte_array)) + 5))];
          mkObj Cls.Null []]).
Proof.
  split; [reflexivity|]. split; [vm_compute; reflexivity|]. split; [reflexivity|].
  apply (byte_array_decoded false 0 (opened false stream_byte_array)
           xac xf3 x17 xf8 x06 x08 x54 xe0 x02 x00 x00 x00 x02 [x01; x02] []);
    [reflexivity|vm_compute; reflexivity|reflexivity].
Defined.

(** X24: an array whose class name begins with "[[" (an array of
    arrays) is rejected: [decode_object] raises Exception("Invalid array
    type"), after the class description and the array have been given
    their handles. *)
Theorem array_of_arrays_rejected cf fuel h l1 l2 name u1 u2 u3 u4 u5 u6 u7 u8 fl rest :
  block_mode h = false ->
  avail h
  = x75 :: x72 :: l1 :: l2 :: x5b :: x5b :: name ++
    u1 :: u2 :: u3 :: u4 :: u5 :: u6 :: u7 :: u8 :: fl :: x00 :: x00 :: x78 :: x70 :: rest ->
  be_uint [l1; l2] = Z.of_nat (2 + length name) ->
  exists h',
    decode_object cf (S (S (S fuel))) h = Raise (Exception "Invalid array type") h' /\
    references h'
    = references h ++ [VObj (length (heap h) + 1); VObj (length (heap h))].
Proof.
  intros Hm Ha Hl.
  destruct (nested_array_steps cf fuel h Hm _ _ _ _ _ _ _ _ _ _ _ _ _ Ha Hl) as (h' & E & Hr).
  exists h'. split; [exact E|]. rewrite Hr, Nat.add_0_r. reflexivity.
Qed.

Lemma array_of_arrays_rejected_witness :
  block_mode (opened false stream_nested_array) = false /\
  avail (opened false stream_nested_array)
  = x75 :: x72 :: x00 :: x03 :: x5b :: x5b :: [x42] ++
    x00 :: x00 :: x00 :: x00 :: x00 :: x00 :: x00 :: x00 :: x02 :: x00 :: x00 :: x78 :: x70 ::
    [x00; x00; x00; x00] /\
  be_uint [x00; x03] = Z.of_nat (2 + length [x42]) /\
  exists h',
    decode_object false 3 (opened false stream_nested_array)
    = Raise (Exception "Invalid array type") h' /\
    references h'
    = references (opened false stream_nested_array)
      ++ [VObj (length (heap (opened false stream_nested_array)) + 1);
          VObj (length (heap (opened false stream_nested_array)))].
Proof.
  split; [reflexivity|]. split; [vm_compute; reflexivity|]. split; [reflexivity|].
  apply (array_of_arrays_rejected false 0 (opened false stream_nested_array)
           x00 x03 [x42] x00 x00 x00 x00 x00 x00 x00 x00 x02 [x00; x00; x00; x00]);
    [reflexivity|vm_compute; reflexivity|reflexivity].
Defined.

(** ** An object with one integer field, in stream mode *)

Lemma bind_bind {A B C} (m : M A) (f : A -> M B) (g : B -> M C) h :
  bind (bind m f) g h = bind m (fun x => bind (f x) g) h.
Proof. unfold bind. destruct (m h); reflexivity. Qed.

Lemma drop_add {A} n m (l : list A) : drop (n + m) l = drop m (drop n l).
Proof. symmetry. apply drop_drop. Qed.

(** The bytes at a position of a stream that is known. *)
Ltac at_position Ha :=
  rewrite ?drop_add, Ha;
  repeat (cbn [drop]; rewrite ?drop_app_length, ?drop_0);
  reflexivity.

(** One call of a decoder on a handler [after_reading]. *)
Ltac forward Hm Ha :=
  rewrite ?bind_bind;
  first
    [ erewrite bind_eq by apply alloc_after
    | erewrite bind_eq by apply add_reference_after
    | erewrite bind_eq by (eapply setattr_after; reflexivity)
    | erewrite bind_eq by (eapply getattr_after; reflexivity)
    | erewrite bind_eq by (eapply class_of_after; reflexivity)
    | erewrite bind_eq by (eapply unwrap_reference_after; reflexivity)
    | erewrite bind_eq
        by (eapply String_decode_after;
            [exact Hm|at_position Ha|eassumption|reflexivity])
    | erewrite bind_eq
        by (eapply decode_object_EndBlockData_after; [exact Hm|at_position Ha])
    | erewrite bind_eq by (eapply decode_object_Null_after; [exact Hm|at_position Ha])
    | erewrite bind_eq by (eapply read_long_after; [exact Hm|at_position Ha])
    | erewrite bind_eq by (eapply read_int_after; [exact Hm|at_position Ha])
    | erewrite bind_eq by (eapply read_short_after; [exact Hm|at_position Ha])
    | erewrite bind_eq by (eapply read_byte_after; [exact Hm|at_position Ha])
    | erewrite bind_eq by reflexivity ];
  cbn [length app insert list_insert cls attrs attr_set String.eqb Ascii.eqb Bool.eqb
       in_classes existsb is_class Cls.eqb orb negb truthy lift_opt].

Lemma NewObject_decode_class_data_S cf rec calls v :
  NewObject_decode_class_data cf rec (S calls) v
  = (if negb (truthy v) then ret [] else
     super_class <- getattr v "super_class" ;;
     contents <- (if truthy super_class then
                    super_desc <- NewObject_get_class_content super_class ;;
                    NewObject_decode_class_data cf rec calls super_desc
                  else ret []) ;;
     fields <- getattr v "fields" ;;
     fields <- as_list fields ;;
     values <- mapM (NewObject_field_value cf rec) fields ;;
     ret (contents ++ values)).
Proof. reflexivity. Qed.

Section ObjectField.
Variable cf : bool.
Variable fuel : nat.
Variable h : Handler.
Hypothesis stream_mode : block_mode h = false.

Lemma object_steps l1 l2 name u1 u2 u3 u4 u5 u6 u7 u8 fl f1 f2 fname v1 v2 v3 v4 rest :
  avail h
  = x73 :: x72 :: l1 :: l2 :: name ++
    u1 :: u2 :: u3 :: u4 :: u5 :: u6 :: u7 :: u8 :: fl :: x00 :: x01 ::
    x49 :: f1 :: f2 :: fname ++ x78 :: x70 :: v1 :: v2 :: v3 :: v4 :: rest ->
  be_uint [l1; l2] = Z.of_nat (length name) ->
  be_uint [f1; f2] = Z.of_nat (length fname) ->
  decode_object cf (S (S (S fuel))) h
  = Ok (VObj (length (heap h) + 0))
      (after_reading h
         (0 + 1 + 1 + 2 + length name + 8 + 1 + 2 + 1 + 2 + length fname + 1 + 1 + 4)
         [VObj (length (heap h) + 2); VObj (length (heap h) + 0)]
         [mkObj Cls.NewObject
            [("class_desc", VObj (length (heap h) + 1));
             ("contents", VList [VInt (be_uint [v1; v2; v3; v4])])];
          mkObj Cls.ClassDesc [("content", VObj (length (heap h) + 2))];
          mkObj Cls.NewClassDesc
            [("class_name", VStr (latin1 name));
             ("serial_version_uid", VInt (be_uint [u1; u2; u3; u4; u5; u6; u7; u8]));
             ("flags", VInt (byte_val fl));
             ("fields", VList [VObj (length (heap h) + 4)]);
             ("super_class", VObj (length (heap h) + 7))];
          mkObj Cls.String [("content", VStr (latin1 name))];
          mkObj Cls.Field
            [("code", VInt 73); ("type", VStr "int");
             ("field_name", VStr (latin1 fname)); ("field_type", VNone)];
          mkObj Cls.String [("content", VStr (latin1 fname))];
          mkObj Cls.EndBlockData [];
          mkObj Cls.ClassDesc [("content", VObj (length (heap h) + 8))];
          mkObj Cls.Null []]).
Proof.
  intros Ha Hl Hf.
  rewrite <- (after_reading_start h) at 1.
  enter.
  forward stream_mode Ha.
  change (byte_val x73) with 115. dispatch.
  unfold new_NewObject. forward stream_mode Ha.
  unfold NewObject_decode, new_ClassDesc.
  forward stream_mode Ha. forward stream_mode Ha.
  unfold ClassDesc_decode at 1.
  rewrite ?bind_bind.
  enter.
  forward stream_mode Ha.
  change (byte_val x72) with 114. dispatch.
  unfold new_NewClassDesc. forward stream_mode Ha.
  unfold NewClassDesc_decode, new_String.
  forward stream_mode Ha.
  forward stream_mode Ha.
  forward stream_mode Ha. forward stream_mode Ha.
  forward stream_mode Ha. forward stream_mode Ha.
  forward stream_mode Ha.
  forward stream_mode Ha. forward stream_mode Ha.
  forward stream_mode Ha.
  change (Z.to_nat (be_uint [x00; x01])) with 1%nat. cbn [repeatM].
  unfold new_Field. forward stream_mode Ha.
  unfold Field_decode, Field_is_valid, Field_is_object, new_String.
  forward stream_mode Ha. forward stream_mode Ha. forward stream_mode Ha.
  forward stream_mode Ha.
  change (Constants.TYPES (VInt (byte_val x49))) with (Some "int").
  rewrite bool_decide_eq_true_2 by (eexists; reflexivity). cbn [negb].
  forward stream_mode Ha.
  change (Constants.TYPES (VInt (byte_val x49))) with (Some "int").
  forward stream_mode Ha. forward stream_mode Ha. forward stream_mode Ha.
  forward stream_mode Ha. forward stream_mode Ha. forward stream_mode Ha.
  forward stream_mode Ha.
  change (Constants.OBJECT_TYPES (VInt (byte_val x49))) with (@None string).
  forward stream_mode Ha.
  rewrite bool_decide_eq_false_2 by (intros [? ?]; discriminate).
  forward stream_mode Ha. forward stream_mode Ha. forward stream_mode Ha.
  forward stream_mode Ha. forward stream_mode Ha. forward stream_mode Ha. forward stream_mode Ha.
  unfold new_ClassDesc. forward stream_mode Ha. forward stream_mode Ha.
  unfold ClassDesc_decode at 1.
  forward stream_mode Ha. forward stream_mode Ha. forward stream_mode Ha. forward stream_mode Ha.
  forward stream_mode Ha. forward stream_mode Ha. forward stream_mode Ha. forward stream_mode Ha.
  forward stream_mode Ha. forward stream_mode Ha.
  unfold NewObject_get_class_content at 1.
  forward stream_mode Ha. forward stream_mode Ha. forward stream_mode Ha.
  rewrite NewObject_decode_class_data_S. cbn [truthy negb].
  forward stream_mode Ha.
  unfold NewObject_get_class_content at 1.
  forward stream_mode Ha. forward stream_mode Ha. forward stream_mode Ha.
  rewrite NewObject_decode_class_data_S. cbn [truthy negb].
  forward stream_mode Ha.
  forward stream_mode Ha. forward stream_mode Ha.
  cbn [mapM]. unfold NewObject_field_value, Field_is_primitive, Field_get_primitive_type.
  forward stream_mode Ha.
  change (Constants.PRIMITIVE_TYPES (VInt (byte_val x49))) with (Some "int").
  forward stream_mode Ha.
  rewrite bool_decide_eq_true_2 by (eexists; reflexivity).
  forward stream_mode Ha.
  change (Constants.PRIMITIVE_TYPES (VInt (byte_val x49))) with (Some "int").
  forward stream_mode Ha. forward stream_mode Ha.
  unfold read_primitive. cbn [is_str String.eqb Ascii.eqb Bool.eqb].
  forward stream_mode Ha.
  forward stream_mode Ha. forward stream_mode Ha. forward stream_mode Ha. forward stream_mode Ha.
  forward stream_mode Ha.
  reflexivity.
Qed.
End ObjectField.

(** X25: in stream mode an object of a class with one int field, no
    annotation and no super class ([TC_OBJECT], the class description with
    its name, serialVersionUID, flags and the field, then the four bytes
    of the value) decodes to a NewObject whose [contents] is the unsigned
    big-endian value of these four bytes.  The class description gets the
    first new handle and the object the second. *)
Theorem object_with_int_field_decoded cf fuel h l1 l2 name u1 u2 u3 u4 u5 u6 u7 u8 fl
    f1 f2 fname v1 v2 v3 v4 rest :
  block_mode h = false ->
  avail h
  = x73 :: x72 :: l1 :: l2 :: name ++
    u1 :: u2 :: u3 :: u4 :: u5 :: u6 :: u7 :: u8 :: fl :: x00 :: x01 ::
    x49 :: f1 :: f2 :: fname ++ x78 :: x70 :: v1 :: v2 :: v3 :: v4 :: rest ->
  be_uint [l1; l2] = Z.of_nat (length name) ->
  be_uint [f1; f2] = Z.of_nat (length fname) ->
  decode_object cf (S (S (S fuel))) h
  = Ok (VObj (length (heap h)))
      (after_reading h (24 + length name + length fname)
         [VObj (length (heap h) + 2); VObj (length (heap h))]
         [mkObj Cls.NewObject
            [("class_desc", VObj (length (heap h) + 1));
             ("contents", VList [VInt (be_uint [v1; v2; v3; v4])])];
          mkObj Cls.ClassDesc [("content", VObj (length (heap h) + 2))];
          mkObj Cls.NewClassDesc
            [("class_name", VStr (latin1 name));
             ("serial_version_uid", VInt (be_uint [u1; u2; u3; u4; u5; u6; u7; u8]));
             ("flags", VInt (byte_val fl));
             ("fields", VList [VObj (length (heap h) + 4)]);
             ("super_class", VObj (length (heap h) + 7))];
          mkObj Cls.String [("content", VStr (latin1 name))];
          mkObj Cls.Field
            [("code", VInt 73); ("type", VStr "int");
             ("field_name", VStr (latin1 fname)); ("field_type", VNone)];
          mkObj Cls.String [("content", VStr (latin1 fname))];
          mkObj Cls.EndBlockData [];
          mkObj Cls.ClassDesc [("content", VObj (length (heap h) + 8))];
          mkObj Cls.Null []]).
Proof.
  intros Hm Ha Hl Hf.
  rewrite (object_steps cf fuel h Hm _ _ _ _ _ _ _ _ _ _ _ _ _ _ _ _ _ _ _ _ Ha Hl Hf).
  rewrite Nat.add_0_r. do 2 f_equal. lia.
Qed.

Lemma object_with_int_field_decoded_witness :
  block_mode (opened false stream_object_A) = false /\
  avail (opened false stream_object_A)
  = x73 :: x72 :: x00 :: x01 :: [x41] ++
    x00 :: x00 :: x00 :: x00 :: x00 :: x00 :: x00 :: x00 :: x02 :: x00 :: x01 ::
    x49 :: x00 :: x01 :: [x61] ++ x78 :: x70 :: x00 :: x00 :: x00 :: x07 :: [] /\
  be_uint [x00; x01] = Z.of_nat (length [x41]) /\
  be_uint [x00; x01] = Z.of_nat (length [x61]) /\
  decode_object false 3 (opened false stream_object_A)
  = Ok (VObj (length (heap (opened false stream_object_A))))
      (after_reading (opened false stream_object_A) (24 + length [x41] + length [x61])
         [VObj (length (heap (opened false stream_object_A)) + 2);
          VObj (length (heap (opened false stream_object_A)))]
         [mkObj Cls.NewObject
            [("class_desc", VObj (length (heap (opened false stream_object_A)) + 1));
             ("contents", VList [VInt (be_uint [x00; x00; x00; x07])])];
          mkObj Cls.ClassDesc
            [("content", VObj (length (heap (opened false stream_object_A)) + 2))];
          mkObj Cls.NewClassDesc
            [("class_name", VStr (latin1 [x41]));
             ("serial_version_uid",
              VInt (be_uint [x00; x00; x00; x00; x00; x00; x00; x00]));
             ("flags", VInt (byte_val x02));
             ("fields", VList [VObj (length (heap (opened false stream_object_A)) + 4)]);
             ("super_class", VObj (length (heap (opened false stream_object_A)) + 7))];
          mkObj Cls.String [("content", VStr (latin1 [x41]))];
          mkObj Cls.Field
            [("code", VInt 73); ("type", VStr "int");
             ("field_name", VStr (latin1 [x61])); ("field_type", VNone)];
          mkObj Cls.String [("content", VStr (latin1 [x61]))];
          mkObj Cls.EndBlockData [];
          mkObj Cls.ClassDesc
            [("content", VObj (length (heap (opened false stream_object_A)) + 8))];
          mkObj Cls.Null []]).
Proof.
  split; [reflexivity|]. split; [vm_compute; reflexivity|].
  split; [reflexivity|]. split; [reflexivity|].
  apply (object_with_int_field_decoded false 0 (opened false stream_object_A)
           x00 x01 [x41] x00 x00 x00 x00 x00 x00 x00 x00 x02 x00 x01 [x61]
           x00 x00 x00 x07 []);
    [reflexivity|vm_compute; reflexivity|reflexivity|reflexivity].
Defined.

(** ** Records that refer to earlier ones, in stream mode *)

Section StepsBack.
Variable cf : bool.
Variable rec : M value.
Variable h : Handler.
Hypothesis stream_mode : block_mode h = false.

(** The objects that were there before the run. *)
Lemma heap_after_reading_old n r o d od :
  heap h !! d = Some od -> heap (after_reading h n r o) !! d = Some od.
Proof.
  intros Hd. cbn [heap after_reading with_references with_heap].
  now apply lookup_app_l_Some.
Qed.

Lemma getattr_old_after n r o d od name x :
  heap h !! d = Some od -> attr_get name (attrs od) = Some x ->
  getattr (VObj d) name (after_reading h n r o) = Ok x (after_reading h n r o).
Proof.
  intros Hd Hx. unfold getattr. now rewrite (heap_after_reading_old _ _ _ _ _ Hd), Hx.
Qed.

Lemma class_of_old_after n r o d od :
  heap h !! d = Some od ->
  class_of (VObj d) (after_reading h n r o) = Ok (Some (cls od)) (after_reading h n r o).
Proof.
  intros Hd. unfold class_of. now rewrite (heap_after_reading_old _ _ _ _ _ Hd).
Qed.

Lemma get_reference_after n r o i target :
  list_index (references h ++ r) i = Some target ->
  get_reference i (after_reading h n r o) = Ok target (after_reading h n r o).
Proof. intros Hi. apply get_reference_Ok. exact Hi. Qed.
End StepsBack.

Section Back.
Variable cf : bool.
Variable fuel : nat.
Variable h : Handler.
Hypothesis stream_mode : block_mode h = false.

(** A back reference, read after [n] bytes. *)
Lemma decode_object_Reference_after n r o r1 r2 r3 r4 t target :
  drop n (avail h) = x71 :: r1 :: r2 :: r3 :: r4 :: t ->
  list_index (references h ++ r) (be_uint [r1; r2; r3; r4] - Constants.BASE_WIRE_HANDLE)
  = Some target ->
  decode_object cf (S fuel) (after_reading h n r o)
  = Ok (VObj (length (heap h) + length o))
      (after_reading h (n + 1 + 4) r
         (o ++ [mkObj Cls.Reference
                  [("ref", VInt (be_uint [r1; r2; r3; r4] - Constants.BASE_WIRE_HANDLE));
                   ("obj", target)]])).
Proof.
  intros Hd Ht. enter.
  erewrite bind_eq by (eapply read_byte_after; [exact stream_mode|exact Hd]).
  change (byte_val x71) with 113. dispatch.
  unfold new_Reference. erewrite bind_eq by apply alloc_after.
  unfold Reference_decode. rewrite ?bind_bind.
  erewrite bind_eq
    by (eapply read_int_after;
        [exact stream_mode|exact (drop_step n (avail h) [x71] _ Hd)]).
  rewrite ?bind_bind.
  erewrite bind_eq
    by (eapply setattr_after; apply list_lookup_middle; reflexivity).
  rewrite ?bind_bind.
  erewrite bind_eq by (eapply get_reference_after; exact Ht).
  rewrite ?bind_bind.
  erewrite bind_eq.
  2:{ eapply setattr_after. rewrite insert_snoc. apply list_lookup_middle. reflexivity. }
  rewrite !insert_snoc. reflexivity.
Qed.
End Back.

(** X28: in stream mode an exception record whose content is a back
    reference ([TC_EXCEPTION], [TC_REFERENCE], four bytes of handle) decodes
    to a JavaException whose [exception] is the value the handle names, not
    the Reference record.  Six bytes are read and no handle is assigned. *)
Theorem exception_with_reference_decoded cf fuel h r1 r2 r3 r4 rest target :
  block_mode h = false ->
  avail h = x7b :: x71 :: r1 :: r2 :: r3 :: r4 :: rest ->
  list_index (references h) (be_uint [r1; r2; r3; r4] - Constants.BASE_WIRE_HANDLE)
  = Some target ->
  decode_object cf (S (S fuel)) h
  = Ok (VObj (length (heap h)))
      (after_reading h 6 []
         [mkObj Cls.JavaException [("exception", target)];
          mkObj Cls.Reference
            [("ref", VInt (be_uint [r1; r2; r3; r4] - Constants.BASE_WIRE_HANDLE));
             ("obj", target)]]).
Proof.
  intros Hm Ha Ht.
  rewrite <- (after_reading_start h) at 1. enter.
  forward Hm Ha.
  change (byte_val x7b) with 123. dispatch.
  unfold new_JavaException. forward Hm Ha.
  unfold JavaException_decode. rewrite ?bind_bind.
  erewrite bind_eq
    by (eapply decode_object_Reference_after;
        [exact Hm|at_position Ha|rewrite app_nil_r; exact Ht]).
  cbn [length app]. unfold unwrap_reference.
  forward Hm Ha. forward Hm Ha. forward Hm Ha.
  rewrite Nat.add_0_r. reflexivity.
Qed.

Lemma exception_with_reference_decoded_witness :
  block_mode (after_record false 1 stream_exception_reference) = false /\
  avail (after_record false 1 stream_exception_reference)
  = x7b :: x71 :: x00 :: x7e :: x00 :: x00 :: [] /\
  list_index (references (after_record false 1 stream_exception_reference))
    (be_uint [x00; x7e; x00; x00] - Constants.BASE_WIRE_HANDLE)
  = Some (VObj 1) /\
  decode_object false 2 (after_record false 1 stream_exception_reference)
  = Ok (VObj (length (heap (after_record false 1 stream_exception_reference))))
      (after_reading (after_record false 1 stream_exception_reference) 6 []
         [mkObj Cls.JavaException [("exception", VObj 1)];
          mkObj Cls.Reference
            [("ref", VInt (be_uint [x00; x7e; x00; x00] - Constants.BASE_WIRE_HANDLE));
             ("obj", VObj 1)]]).
Proof.
  split; [reflexivity|]. split; [vm_compute; reflexivity|].
  split; [vm_compute; reflexivity|].
  apply (exception_with_reference_decoded false 0
           (after_record false 1 stream_exception_reference) x00 x7e x00 x00 [] (VObj 1));
    vm_compute; reflexivity.
Defined.

Section PlainClass.
Variable cf : bool.
Variable fuel : nat.
Variable h : Handler.
Hypothesis stream_mode : block_mode h = false.

(** A class description with no field, no annotation and no super class, read
    after [n] bytes by a record that has made two objects. *)
Lemma plain_class_desc_after n r o0 o1 l1 l2 name u1 u2 u3 u4 u5 u6 u7 u8 fl t :
  drop n (avail h)
  = x72 :: l1 :: l2 :: name ++
    u1 :: u2 :: u3 :: u4 :: u5 :: u6 :: u7 :: u8 :: fl :: x00 :: x00 :: x78 :: x70 :: t ->
  be_uint [l1; l2] = Z.of_nat (length name) ->
  decode_object cf (S (S fuel)) (after_reading h n r [o0; o1])
  = Ok (VObj (length (heap h) + 2))
      (after_reading h (n + 1 + 2 + length name + 8 + 1 + 2 + 1 + 1)
         (r ++ [VObj (length (heap h) + 2)])
         [o0; o1;
          mkObj Cls.NewClassDesc
            [("class_name", VStr (latin1 name));
             ("serial_version_uid", VInt (be_uint [u1; u2; u3; u4; u5; u6; u7; u8]));
             ("flags", VInt (byte_val fl)); ("fields", VList []);
             ("super_class", VObj (length (heap h) + 5))];
          mkObj Cls.String [("content", VStr (latin1 name))];
          mkObj Cls.EndBlockData [];
          mkObj Cls.ClassDesc [("content", VObj (length (heap h) + 6))];
          mkObj Cls.Null []]).
Proof.
  intros Hd Hl. enter.
  forward stream_mode Hd.
  change (byte_val x72) with 114. dispatch.
  unfold new_NewClassDesc. forward stream_mode Hd.
  unfold NewClassDesc_decode, new_String.
  forward stream_mode Hd. forward stream_mode Hd. forward stream_mode Hd.
  forward stream_mode Hd. forward stream_mode Hd. forward stream_mode Hd.
  forward stream_mode Hd. forward stream_mode Hd. forward stream_mode Hd.
  forward stream_mode Hd.
  change (Z.to_nat (be_uint [x00; x00])) with 0%nat. cbn [repeatM].
  forward stream_mode Hd. forward stream_mode Hd. forward stream_mode Hd.
  forward stream_mode Hd.
  unfold new_ClassDesc. forward stream_mode Hd. forward stream_mode Hd.
  unfold ClassDesc_decode at 1.
  forward stream_mode Hd. forward stream_mode Hd. forward stream_mode Hd.
  forward stream_mode Hd. reflexivity.
Qed.
End PlainClass.

(** X27: in stream mode a class record ([TC_CLASS], then a class
    description with a name, no field, no annotation and no super class)
    decodes to a NewClass whose [class_desc] wraps the description.  The
    description gets the first new handle and the NewClass the second. *)
Theorem class_record_decoded cf fuel h l1 l2 name u1 u2 u3 u4 u5 u6 u7 u8 fl rest :
  block_mode h = false ->
  avail h
  = x76 :: x72 :: l1 :: l2 :: name ++
    u1 :: u2 :: u3 :: u4 :: u5 :: u6 :: u7 :: u8 :: fl :: x00 :: x00 :: x78 :: x70 :: rest ->
  be_uint [l1; l2] = Z.of_nat (length name) ->
  decode_object cf (S (S (S fuel))) h
  = Ok (VObj (length (heap h)))
      (after_reading h (17 + length name)
         [VObj (length (heap h) + 2); VObj (length (heap h))]
         [mkObj Cls.NewClass [("class_desc", VObj (length (heap h) + 1))];
          mkObj Cls.ClassDesc [("content", VObj (length (heap h) + 2))];
          mkObj Cls.NewClassDesc
            [("class_name", VStr (latin1 name));
             ("serial_version_uid", VInt (be_uint [u1; u2; u3; u4; u5; u6; u7; u8]));
             ("flags", VInt (byte_val fl)); ("fields", VList []);
             ("super_class", VObj (length (heap h) + 5))];
          mkObj Cls.String [("content", VStr (latin1 name))];
          mkObj Cls.EndBlockData [];
          mkObj Cls.ClassDesc [("content", VObj (length (heap h) + 6))];
          mkObj Cls.Null []]).
Proof.
  intros Hm Ha Hl.
  rewrite <- (after_reading_start h) at 1. enter.
  forward Hm Ha.
  change (byte_val x76) with 118. dispatch.
  unfold new_NewClass. forward Hm Ha.
  unfold NewClass_decode, new_ClassDesc.
  forward Hm Ha. forward Hm Ha.
  unfold ClassDesc_decode at 1. rewrite ?bind_bind.
  erewrite bind_eq
    by (eapply plain_class_desc_after; [exact Hm|at_position Ha|exact Hl]).
  forward Hm Ha. forward Hm Ha. forward Hm Ha. forward Hm Ha.
  rewrite Nat.add_0_r.
  replace (0 + 1 + 1 + 2 + length name + 8 + 1 + 2 + 1 + 1)%nat
    with (17 + length name)%nat by lia.
  reflexivity.
Qed.

Lemma class_record_decoded_witness :
  block_mode (opened false stream_class_A) = false /\
  avail (opened false stream_class_A)
  = x76 :: x72 :: x00 :: x01 :: [x41] ++
    x00 :: x00 :: x00 :: x00 :: x00 :: x00 :: x00 :: x00 :: x02 :: x00 :: x00 :: x78 :: x70 ::
    [] /\
  be_uint [x00; x01] = Z.of_nat (length [x41]) /\
  decode_object false 3 (opened false stream_class_A)
  = Ok (VObj (length (heap (opened false stream_class_A))))
      (after_reading (opened false stream_class_A) (17 + length [x41])
         [VObj (length (heap (opened false stream_class_A)) + 2);
          VObj (length (heap (opened false stream_class_A)))]
         [mkObj Cls.NewClass
            [("class_desc", VObj (length (heap (opened false stream_class_A)) + 1))];
          mkObj Cls.ClassDesc
            [("content", VObj (length (heap (opened false stream_class_A)) + 2))];
          mkObj Cls.NewClassDesc
            [("class_name", VStr (latin1 [x41]));
             ("serial_version_uid",
              VInt (be_uint [x00; x00; x00; x00; x00; x00; x00; x00]));
             ("flags", VInt (byte_val x02)); ("fields", VList []);
             ("super_class", VObj (length (heap (opened false stream_class_A)) + 5))];
          mkObj Cls.String [("content", VStr (latin1 [x41]))];
          mkObj Cls.EndBlockData [];
          mkObj Cls.ClassDesc
            [("content", VObj (length (heap (opened false stream_class_A)) + 6))];
          mkObj Cls.Null []]).
Proof.
  split; [reflexivity|]. split; [vm_compute; reflexivity|]. split; [reflexivity|].
  apply (class_record_decoded false 0 (opened false stream_class_A)
           x00 x01 [x41] x00 x00 x00 x00 x00 x00 x00 x00 x02 []);
    [reflexivity|vm_compute; reflexivity|reflexivity].
Defined.

(** X26: in stream mode an enum constant ([TC_ENUM], a class description
    with no field, no annotation and no super class, then [TC_STRING] with
    the name of the constant) decodes to an Enum whose [name] is the Latin-1
    reading of the name bytes.  The new handles are, in this order, the class
    description, the Enum and the String of the name. *)
Theorem enum_record_decoded cf fuel h l1 l2 name u1 u2 u3 u4 u5 u6 u7 u8 fl
    c1 c2 cname rest :
  block_mode h = false ->
  avail h
  = x7e :: x72 :: l1 :: l2 :: name ++
    u1 :: u2 :: u3 :: u4 :: u5 :: u6 :: u7 :: u8 :: fl :: x00 :: x00 :: x78 :: x70 ::
    x74 :: c1 :: c2 :: cname ++ rest ->
  be_uint [l1; l2] = Z.of_nat (length name) ->
  be_uint [c1; c2] = Z.of_nat (length cname) ->
  decode_object cf (S (S (S fuel))) h
  = Ok (VObj (length (heap h)))
      (after_reading h (20 + length name + length cname)
         [VObj (length (heap h) + 2); VObj (length (heap h)); VObj (length (heap h) + 7)]
         [mkObj Cls.Enum
            [("description", VObj (length (heap h) + 1));
             ("name", VStr (latin1 cname))];
          mkObj Cls.ClassDesc [("content", VObj (length (heap h) + 2))];
          mkObj Cls.NewClassDesc
            [("class_name", VStr (latin1 name));
             ("serial_version_uid", VInt (be_uint [u1; u2; u3; u4; u5; u6; u7; u8]));
             ("flags", VInt (byte_val fl)); ("fields", VList []);
             ("super_class", VObj (length (heap h) + 5))];
          mkObj Cls.String [("content", VStr (latin1 name))];
          mkObj Cls.EndBlockData [];
          mkObj Cls.ClassDesc [("content", VObj (length (heap h) + 6))];
          mkObj Cls.Null [];
          mkObj Cls.String [("content", VStr (latin1 cname))]]).
Proof.
  intros Hm Ha Hl Hc.
  rewrite <- (after_reading_start h) at 1. enter.
  forward Hm Ha.
  change (byte_val x7e) with 126. dispatch.
  unfold new_Enum. forward Hm Ha.
  unfold Enum_decode, new_ClassDesc.
  forward Hm Ha. forward Hm Ha.
  unfold ClassDesc_decode at 1. rewrite ?bind_bind.
  erewrite bind_eq
    by (eapply plain_class_desc_after; [exact Hm|at_position Ha|exact Hl]).
  forward Hm Ha. forward Hm Ha. forward Hm Ha. forward Hm Ha.
  rewrite ?bind_bind. enter.
  forward Hm Ha.
  change (byte_val x74) with 116. dispatch.
  unfold new_String. forward Hm Ha. forward Hm Ha. forward Hm Ha.
  forward Hm Ha. forward Hm Ha.
  unfold unwrap_reference.
  forward Hm Ha. forward Hm Ha. forward Hm Ha. forward Hm Ha.
  rewrite Nat.add_0_r.
  replace (0 + 1 + 1 + 2 + length name + 8 + 1 + 2 + 1 + 1 + 1 + 2 + length cname)%nat
    with (20 + length name + length cname)%nat by lia.
  reflexivity.
Qed.

Lemma enum_record_decoded_witness :
  block_mode (opened false stream_enum) = false /\
  avail (opened false stream_enum)
  = x7e :: x72 :: x00 :: x01 :: [x45] ++
    x00 :: x00 :: x00 :: x00 :: x00 :: x00 :: x00 :: x00 :: x12 :: x00 :: x00 :: x78 :: x70 ::
    x74 :: x00 :: x01 :: [x58] ++ [] /\
  be_uint [x00; x01] = Z.of_nat (length [x45]) /\
  be_uint [x00; x01] = Z.of_nat (length [x58]) /\
  decode_object false 3 (opened false stream_enum)
  = Ok (VObj (length (heap (opened false stream_enum))))
      (after_reading (opened false stream_enum) (20 + length [x45] + length [x58])
         [VObj (length (heap (opened false stream_enum)) + 2);
          VObj (length (heap (opened false stream_enum)));
          VObj (length (heap (opened false stream_enum)) + 7)]
         [mkObj Cls.Enum
            [("description", VObj (length (heap (opened false stream_enum)) + 1));
             ("name", VStr (latin1 [x58]))];
          mkObj Cls.ClassDesc
            [("content", VObj (length (heap (opened false stream_enum)) + 2))];
          mkObj Cls.NewClassDesc
            [("class_name", VStr (latin1 [x45]));
             ("serial_version_uid",
              VInt (be_uint [x00; x00; x00; x00; x00; x00; x00; x00]));
             ("flags", VInt (byte_val x12)); ("fields", VList []);
             ("super_class", VObj (length (heap (opened false stream_enum)) + 5))];
          mkObj Cls.String [("content", VStr (latin1 [x45]))];
          mkObj Cls.EndBlockData [];
          mkObj Cls.ClassDesc
            [("content", VObj (length (heap (opened false stream_enum)) + 6))];
          mkObj Cls.Null [];
          mkObj Cls.String [("content", VStr (latin1 [x58]))]]).
Proof.
  split; [reflexivity|]. split; [vm_compute; reflexivity|]. split; [reflexivity|].
  split; [reflexivity|].
  apply (enum_record_decoded false 0 (opened false stream_enum)
           x00 x01 [x45] x00 x00 x00 x00 x00 x00 x00 x00 x12 x00 x01 [x58] []);
    [reflexivity|vm_compute; reflexivity|reflexivity|reflexivity].
Defined.

(** A call on an object that was there before the run. *)
Ltac back Hm H :=
  rewrite ?bind_bind;
  first
    [ erewrite bind_eq by (eapply getattr_old_after; [exact H|reflexivity])
    | erewrite bind_eq by (eapply class_of_old_after; exact H) ];
  cbn [length app insert list_insert cls attrs attr_set String.eqb Ascii.eqb Bool.eqb
       in_classes existsb is_class Cls.eqb orb negb truthy lift_opt].

(** X29: in stream mode an object whose class description is a back
    reference ([TC_OBJECT], [TC_REFERENCE], four bytes of handle, four bytes
    of value) to a description already in the store, with one int field and
    no super class, decodes to a NewObject whose [contents] is the unsigned
    big-endian value of the last four bytes.  Its ClassDesc holds the
    referenced description itself, and the object gets the only new
    handle. *)
Theorem object_of_known_class_decoded cf fuel h r1 r2 r3 r4 v1 v2 v3 v4 rest
    d f sc nl name uid flags fname :
  block_mode h = false ->
  avail h = x73 :: x71 :: r1 :: r2 :: r3 :: r4 :: v1 :: v2 :: v3 :: v4 :: rest ->
  list_index (references h) (be_uint [r1; r2; r3; r4] - Constants.BASE_WIRE_HANDLE)
  = Some (VObj d) ->
  heap h !! d
  = Some (mkObj Cls.NewClassDesc
            [("class_name", VStr name); ("serial_version_uid", VInt uid);
             ("flags", VInt flags); ("fields", VList [VObj f]);
             ("super_class", VObj sc)]) ->
  heap h !! f
  = Some (mkObj Cls.Field
            [("code", VInt 73); ("type", VStr "int");
             ("field_name", VStr fname); ("field_type", VNone)]) ->
  heap h !! sc = Some (mkObj Cls.ClassDesc [("content", VObj nl)]) ->
  heap h !! nl = Some (mkObj Cls.Null []) ->
  decode_object cf (S (S fuel)) h
  = Ok (VObj (length (heap h)))
      (after_reading h 10 [VObj (length (heap h))]
         [mkObj Cls.NewObject
            [("class_desc", VObj (length (heap h) + 1));
             ("contents", VList [VInt (be_uint [v1; v2; v3; v4])])];
          mkObj Cls.ClassDesc [("content", VObj d)];
          mkObj Cls.Reference
            [("ref", VInt (be_uint [r1; r2; r3; r4] - Constants.BASE_WIRE_HANDLE));
             ("obj", VObj d)]]).
Proof.
  intros Hm Ha Ht Hd Hf Hsc Hnl.
  rewrite <- (after_reading_start h) at 1. enter.
  forward Hm Ha.
  change (byte_val x73) with 115. dispatch.
  unfold new_NewObject. forward Hm Ha.
  unfold NewObject_decode, new_ClassDesc.
  forward Hm Ha. forward Hm Ha.
  unfold ClassDesc_decode at 1. rewrite ?bind_bind.
  erewrite bind_eq
    by (eapply decode_object_Reference_after;
        [exact Hm|at_position Ha|rewrite app_nil_r; exact Ht]).
  cbn [length app]. unfold unwrap_reference.
  forward Hm Ha. forward Hm Ha. forward Hm Ha. forward Hm Ha. forward Hm Ha.
  forward Hm Ha.
  unfold NewObject_get_class_content at 1.
  forward Hm Ha.
  back Hm Hd.
  forward Hm Ha.
  rewrite NewObject_decode_class_data_S. cbn [truthy negb].
  back Hm Hd.
  unfold NewObject_get_class_content at 1.
  back Hm Hsc. back Hm Hnl.
  forward Hm Ha.
  rewrite NewObject_decode_class_data_S. cbn [truthy negb].
  forward Hm Ha.
  back Hm Hd. forward Hm Ha.
  cbn [mapM]. unfold NewObject_field_value, Field_is_primitive, Field_get_primitive_type.
  back Hm Hf.
  change (Constants.PRIMITIVE_TYPES (VInt 73)) with (Some "int").
  forward Hm Ha.
  rewrite bool_decide_eq_true_2 by (eexists; reflexivity).
  back Hm Hf.
  change (Constants.PRIMITIVE_TYPES (VInt 73)) with (Some "int").
  forward Hm Ha. forward Hm Ha.
  unfold read_primitive. cbn [is_str String.eqb Ascii.eqb Bool.eqb].
  forward Hm Ha.
  forward Hm Ha. forward Hm Ha. forward Hm Ha. forward Hm Ha.
  forward Hm Ha.
  rewrite Nat.add_0_r. reflexivity.
Qed.

Lemma object_of_known_class_decoded_witness :
  block_mode (after_record false 3 stream_two_objects_A) = false /\
  avail (after_record false 3 stream_two_objects_A)
  = x73 :: x71 :: x00 :: x7e :: x00 :: x00 :: x00 :: x00 :: x00 :: x09 :: [] /\
  list_index (references (after_record false 3 stream_two_objects_A))
    (be_uint [x00; x7e; x00; x00] - Constants.BASE_WIRE_HANDLE)
  = Some (VObj 3) /\
  heap (after_record false 3 stream_two_objects_A) !! 3%nat
  = Some (mkObj Cls.NewClassDesc
            [("class_name", VStr "A"); ("serial_version_uid", VInt 0);
             ("flags", VInt 2); ("fields", VList [VObj 5]);
             ("super_class", VObj 8)]) /\
  heap (after_record false 3 stream_two_objects_A) !! 5%nat
  = Some (mkObj Cls.Field
            [("code", VInt 73); ("type", VStr "int");
             ("field_name", VStr "a"); ("field_type", VNone)]) /\
  heap (after_record false 3 stream_two_objects_A) !! 8%nat
  = Some (mkObj Cls.ClassDesc [("content", VObj 9)]) /\
  heap (after_record false 3 stream_two_objects_A) !! 9%nat
  = Some (mkObj Cls.Null []) /\
  decode_object false 2 (after_record false 3 stream_two_objects_A)
  = Ok (VObj (length (heap (after_record false 3 stream_two_objects_A))))
      (after_reading (after_record false 3 stream_two_objects_A) 10
         [VObj (length (heap (after_record false 3 stream_two_objects_A)))]
         [mkObj Cls.NewObject
            [("class_desc",
              VObj (length (heap (after_record false 3 stream_two_objects_A)) + 1));
             ("contents", VList [VInt (be_uint [x00; x00; x00; x09])])];
          mkObj Cls.ClassDesc [("content", VObj 3)];
          mkObj Cls.Reference
            [("ref", VInt (be_uint [x00; x7e; x00; x00] - Constants.BASE_WIRE_HANDLE));
             ("obj", VObj 3)]]).
Proof.
  split; [reflexivity|]. split; [vm_compute; reflexivity|].
  split; [vm_compute; reflexivity|]. split; [vm_compute; reflexivity|].
  split; [vm_compute; reflexivity|]. split; [vm_compute; reflexivity|].
  split; [vm_compute; reflexivity|].
  apply (object_of_known_class_decoded false 0
           (after_record false 3 stream_two_objects_A)
           x00 x7e x00 x00 x00 x00 x00 x09 [] 3%nat 5%nat 8%nat 9%nat "A" 0 2 "a");
    vm_compute; reflexivity.
Defined.
